(** * Ether: block allocator, wire protocol and request dispatcher

    A shallow embedding of [src/allocator.c], [src/protocol.c], the
    daemon [etherd] and the client library [src/client.c] of the Ether
    repository, with the properties of the specification proved over it.

    Conventions.
    - C unsigned integers ([size_t], [uint64_t], [uint32_t], ...) are values
      of [Z]; every place where the C code can wrap around is written out
      with [wrap64], [wrap32], [wrap16] or [wrap8].
    - A byte is a [Z]; buffers are [list Z].
    - A pointer is a [Z], [NULL] is [0].
    - [malloc]/[calloc] are the environment's: each function that calls one
      of them takes its outcome as an extra first argument.
    - [send]/[recv] are the environment's too: what the socket does during
      one call is a record of outcomes, and a function that sends returns
      the bytes it put on the socket. *)

From stdpp Require Import base numbers list gmap.
From Stdlib Require Import ZArith Lia.

Local Open Scope Z_scope.

(* ===================================================================== *)
(** * Machine integers and raw memory *)
(* ===================================================================== *)

Module Machine.

Definition wrap8 (x : Z) : Z := x mod 2 ^ 8.
Definition wrap16 (x : Z) : Z := x mod 2 ^ 16.
Definition wrap32 (x : Z) : Z := x mod 2 ^ 32.
Definition wrap64 (x : Z) : Z := x mod 2 ^ 64.

Definition NULL : Z := 0.

(** [buffer[i]] *)
Definition byte_at (buffer : list Z) (i : nat) : Z := nth i buffer 0.

(** [memcpy(dst, src, n)]: the first [n] bytes of [dst] become those of
    [src]. *)
Definition memcpy (dst src : list Z) (n : Z) : list Z :=
  take (Z.to_nat n) src ++ drop (Z.to_nat n) dst.

(** [memset(dst + off, c, n)] *)
Definition memset_at (dst : list Z) (off : Z) (c : Z) (n : Z) : list Z :=
  take (Z.to_nat off) dst ++ replicate (Z.to_nat n) c
    ++ drop (Z.to_nat off + Z.to_nat n) dst.

(** [memset(dst, c, n)] *)
Definition memset (dst : list Z) (c : Z) (n : Z) : list Z :=
  memset_at dst 0 c n.

(** [htonl(x)] stored through a [uint32_t*]: whatever the host byte order,
    the four bytes in memory are the big-endian digits of [x]. *)
Definition store_be32 (x : Z) : list Z :=
  [ Z.land (Z.shiftr x 24) 0xFF; Z.land (Z.shiftr x 16) 0xFF;
    Z.land (Z.shiftr x 8) 0xFF; Z.land x 0xFF ].

(** [ntohl] of a [uint32_t] loaded from four bytes in memory. *)
Definition load_be32 (b0 b1 b2 b3 : Z) : Z :=
  wrap32 (Z.lor (Z.lor (Z.lor (Z.shiftl b0 24) (Z.shiftl b1 16))
                       (Z.shiftl b2 8)) b3).

(** A value of [uint8_t]. *)
Definition is_byte (x : Z) : Prop := 0 <= x < 256.

End Machine.

(* ===================================================================== *)
(** * Wire protocol ([include/ether/protocol.h], [src/protocol.c]) *)
(* ===================================================================== *)

Module Protocol.
Import Machine.

Definition ETHER_MAGIC : Z := 0xE7E7E7E7.
Definition ETHER_PROTOCOL_VER : Z := 1.
Definition ETHER_MAX_PAYLOAD : Z := 16 * 1024 * 1024.
Definition ETHER_HEADER_SIZE : Z := 24.

Definition ETHER_CMD_PING : Z := 0x01.
Definition ETHER_CMD_PONG : Z := 0x02.
Definition ETHER_CMD_ALLOC : Z := 0x10.
Definition ETHER_CMD_FREE : Z := 0x11.
Definition ETHER_CMD_REALLOC : Z := 0x12.
Definition ETHER_CMD_WRITE : Z := 0x20.
Definition ETHER_CMD_READ : Z := 0x21.
Definition ETHER_CMD_OK : Z := 0xF0.
Definition ETHER_CMD_ERROR : Z := 0xFF.

(** [ether_msg_header_t] (packed, 24 bytes) *)
Record ether_msg_header_t := MkHeader {
  msg_magic : Z;      (* uint32_t *)
  msg_version : Z;    (* uint8_t  *)
  msg_command : Z;    (* uint8_t  *)
  msg_flags : Z;      (* uint16_t *)
  msg_handle : Z;     (* uint64_t *)
  msg_size : Z;       (* uint32_t *)
  msg_reserved : Z    (* uint32_t *)
}.

(** [ether_msg_t]: header and flexible payload. *)
Record ether_msg_t := MkMsg {
  header : ether_msg_header_t;
  payload : list Z
}.

(** A header whose fields hold values of their C types. *)
Definition header_in_range (h : ether_msg_header_t) : Prop :=
  0 <= msg_magic h < 2 ^ 32 /\ 0 <= msg_version h < 2 ^ 8 /\
  0 <= msg_command h < 2 ^ 8 /\ 0 <= msg_flags h < 2 ^ 16 /\
  0 <= msg_handle h < 2 ^ 64 /\ 0 <= msg_size h < 2 ^ 32 /\
  0 <= msg_reserved h < 2 ^ 32.

(** [ether_msg_create]; [calloc_ok] tells whether [calloc] succeeds. *)
Definition ether_msg_create (calloc_ok : bool) (cmd : Z) (payload_size : Z)
  : option ether_msg_t :=
  if ETHER_MAX_PAYLOAD <? payload_size then None
  else if negb calloc_ok then None
  else Some {| header := {| msg_magic := ETHER_MAGIC;
                            msg_version := ETHER_PROTOCOL_VER;
                            msg_command := wrap8 cmd;
                            msg_flags := 0;
                            msg_handle := 0;
                            msg_size := wrap32 payload_size;
                            msg_reserved := 0 |};
               payload := replicate (Z.to_nat payload_size) 0 |}.

(** [ether_msg_validate] on a non-null header. *)
Definition ether_msg_validate (h : ether_msg_header_t) : bool :=
  if negb (msg_magic h =? ETHER_MAGIC) then false
  else if negb (msg_version h =? ETHER_PROTOCOL_VER) then false
  else if ETHER_MAX_PAYLOAD <? msg_size h then false
  else true.

Definition ether_msg_total_size (m : ether_msg_t) : Z :=
  wrap64 (ETHER_HEADER_SIZE + msg_size (header m)).

(** [ether_msg_serialize_header]: the 24 bytes written to [buffer]. *)
Definition ether_msg_serialize_header (h : ether_msg_header_t) : list Z :=
  store_be32 (msg_magic h)
  ++ [ msg_version h;
       msg_command h;
       Z.land (Z.shiftr (msg_flags h) 8) 0xFF;
       Z.land (msg_flags h) 0xFF ]
  ++ (let handle := msg_handle h in
      [ Z.land (Z.shiftr handle 56) 0xFF;
        Z.land (Z.shiftr handle 48) 0xFF;
        Z.land (Z.shiftr handle 40) 0xFF;
        Z.land (Z.shiftr handle 32) 0xFF;
        Z.land (Z.shiftr handle 24) 0xFF;
        Z.land (Z.shiftr handle 16) 0xFF;
        Z.land (Z.shiftr handle 8) 0xFF;
        Z.land handle 0xFF ])
  ++ store_be32 (msg_size h)
  ++ store_be32 (msg_reserved h).

(** [ether_msg_deserialize_header] *)
Definition ether_msg_deserialize_header (buffer : list Z)
  : ether_msg_header_t :=
  let b := byte_at buffer in
  {| msg_magic := load_be32 (b 0%nat) (b 1%nat) (b 2%nat) (b 3%nat);
     msg_version := b 4%nat;
     msg_command := b 5%nat;
     msg_flags := wrap16 (Z.lor (Z.shiftl (b 6%nat) 8) (b 7%nat));
     msg_handle :=
       Z.lor (Z.lor (Z.lor (Z.lor (Z.lor (Z.lor (Z.lor
         (wrap64 (Z.shiftl (b 8%nat) 56))
         (wrap64 (Z.shiftl (b 9%nat) 48)))
         (wrap64 (Z.shiftl (b 10%nat) 40)))
         (wrap64 (Z.shiftl (b 11%nat) 32)))
         (wrap64 (Z.shiftl (b 12%nat) 24)))
         (wrap64 (Z.shiftl (b 13%nat) 16)))
         (wrap64 (Z.shiftl (b 14%nat) 8)))
         (b 15%nat);
     msg_size := load_be32 (b 16%nat) (b 17%nat) (b 18%nat) (b 19%nat);
     msg_reserved := load_be32 (b 20%nat) (b 21%nat) (b 22%nat) (b 23%nat) |}.

(** The header of the protocol test suite's round trip. *)
Definition sample_header : ether_msg_header_t :=
  {| msg_magic := ETHER_MAGIC; msg_version := ETHER_PROTOCOL_VER;
     msg_command := ETHER_CMD_ALLOC; msg_flags := 0x1234;
     msg_handle := 0xDEADBEEFCAFEBABE; msg_size := 12345;
     msg_reserved := 0 |}.

End Protocol.

(* ===================================================================== *)
(** * Block allocator ([src/allocator.c]) *)
(* ===================================================================== *)

Module Allocator.
Import Machine.

Definition BLOCK_MAGIC : Z := 0xF9A9582B.
Definition BLOCK_FREED : Z := 0x8FD76019.
Definition FLAG_ALLOCATED : Z := 0x01.
Definition HEADER_SIZE : Z := 24.

Definition ETHER_OK : Z := 0.
Definition ETHER_ERR_NOMEM : Z := -1.
Definition ETHER_ERR_INVALID : Z := -2.
Definition ETHER_ERR_CORRUPT : Z := -3.
Definition ETHER_ERR_OVERFLOW : Z := -4.

(** One chunk obtained from [malloc]: the [block_header_t] and the user
    data area behind it. *)
Record block := MkBlock {
  blk_magic : Z;        (* uint32_t magic    *)
  blk_flags : Z;        (* uint32_t flags    *)
  blk_size : Z;         (* size_t   size     *)
  blk_capacity : Z;     (* size_t   capacity *)
  blk_data : list Z     (* the bytes behind the header *)
}.

(** [ether_stats_t] *)
Record ether_stats_t := MkStats {
  total_allocated : Z;
  total_freed : Z;
  current_usage : Z;
  peak_usage : Z;
  num_allocs : Z;
  num_frees : Z
}.

(** What [ether_free] and [ether_realloc] print on [stderr] unconditionally
    (the [debug_print] lines, off by default, are not modelled). *)
Inductive report :=
| InvalidFree (ptr : Z)
| DoubleFree (ptr : Z)
| InvalidRealloc (ptr : Z).

(** The allocator's world: the chunks it has written, keyed by the address
    of their header, the global [g_stats], the error stream, and the chunks
    handed to [free], in order.

    [free(header)] gives a chunk back to the system; the model keeps the
    bytes the code left there, so a later validity check on the same address
    reads the FREED tag. An address that holds no chunk of ours carries no
    tag and fails the validity check. *)
Record state := MkState {
  heap : gmap Z block;
  g_stats : ether_stats_t;
  stderr : list report;
  released : list Z
}.

Definition zero_stats : ether_stats_t :=
  {| total_allocated := 0; total_freed := 0; current_usage := 0;
     peak_usage := 0; num_allocs := 0; num_frees := 0 |}.

Definition initial_state : state :=
  {| heap := ∅; g_stats := zero_stats; stderr := []; released := [] |}.

(** The four effects a statement of the allocator can have. *)
Definition set_heap (m : gmap Z block) (st : state) : state :=
  {| heap := m; g_stats := g_stats st; stderr := stderr st;
     released := released st |}.

Definition set_stats (s : ether_stats_t) (st : state) : state :=
  {| heap := heap st; g_stats := s; stderr := stderr st;
     released := released st |}.

Definition complain (r : report) (st : state) : state :=
  {| heap := heap st; g_stats := g_stats st; stderr := stderr st ++ [r];
     released := released st |}.

Definition sys_free (hdr : Z) (st : state) : state :=
  {| heap := heap st; g_stats := g_stats st; stderr := stderr st;
     released := released st ++ [hdr] |}.

Definition get_header (ptr : Z) : Z := ptr - HEADER_SIZE.
Definition get_user_ptr (hdr : Z) : Z := hdr + HEADER_SIZE.

(** [is_valid_block] *)
Definition is_valid_block (hdr : Z) (m : gmap Z block) : bool :=
  negb (hdr =? NULL) &&
  match m !! hdr with
  | Some b => (blk_magic b =? BLOCK_MAGIC)
              && negb (Z.land (blk_flags b) FLAG_ALLOCATED =? 0)
  | None => false
  end.

(** Field updates of a chunk. *)
Definition with_size (size : Z) (b : block) : block :=
  {| blk_magic := blk_magic b; blk_flags := blk_flags b; blk_size := size;
     blk_capacity := blk_capacity b; blk_data := blk_data b |}.

Definition with_data (data : list Z) (b : block) : block :=
  {| blk_magic := blk_magic b; blk_flags := blk_flags b;
     blk_size := blk_size b; blk_capacity := blk_capacity b;
     blk_data := data |}.

Definition with_tag (magic flags : Z) (b : block) : block :=
  {| blk_magic := magic; blk_flags := flags; blk_size := blk_size b;
     blk_capacity := blk_capacity b; blk_data := blk_data b |}.

(** The sum [HEADER_SIZE + size] that [ether_alloc] hands to [malloc] is
    computed in [size_t]; it does not wrap for the sizes up to [2^64 - 25].
    Beyond them [malloc] is asked for fewer bytes than the header and the
    [size] bytes need, and the C code writes past the chunk it obtained: the
    definition below describes [ether_alloc] for the sizes that fit. *)
Definition alloc_fits (size : Z) : Prop := HEADER_SIZE + size < 2 ^ 64.

(** [ether_alloc]; [chunk] is what [malloc(HEADER_SIZE + size)] returns
    ([NULL] on failure). The sum is taken not to wrap ([alloc_fits]). *)
Definition ether_alloc (chunk : Z) (size : Z) (st : state) : Z * state :=
  if size =? 0 then (NULL, st)
  else
    let hdr := chunk in
    if hdr =? NULL then (NULL, st)
    else
      let b := {| blk_magic := BLOCK_MAGIC;
                  blk_flags := FLAG_ALLOCATED;
                  blk_size := size;
                  blk_capacity := size;
                  blk_data := replicate (Z.to_nat size) 0 |} in
      let user_ptr := get_user_ptr hdr in
      let s := g_stats st in
      let cur := wrap64 (current_usage s + size) in
      let s' := {| total_allocated := wrap64 (total_allocated s + size);
                   total_freed := total_freed s;
                   current_usage := cur;
                   peak_usage := if peak_usage s <? cur then cur
                                 else peak_usage s;
                   num_allocs := wrap64 (num_allocs s + 1);
                   num_frees := num_frees s |} in
      (user_ptr, set_stats s' (set_heap (<[hdr := b]> (heap st)) st)).

(** [ether_free] *)
Definition ether_free (ptr : Z) (st : state) : state :=
  if ptr =? NULL then st
  else
    let hdr := get_header ptr in
    if negb (is_valid_block hdr (heap st)) then complain (InvalidFree ptr) st
    else
      match heap st !! hdr with
      | None => st
      | Some b =>
        if blk_magic b =? BLOCK_FREED then complain (DoubleFree ptr) st
        else
          let size := blk_size b in
          let b' := with_tag BLOCK_FREED 0
                      (with_data (memset (blk_data b) 0 size) b) in
          let s := g_stats st in
          let s' := {| total_allocated := total_allocated s;
                       total_freed := wrap64 (total_freed s + size);
                       current_usage := wrap64 (current_usage s - size);
                       peak_usage := peak_usage s;
                       num_allocs := num_allocs s;
                       num_frees := wrap64 (num_frees s + 1) |} in
          sys_free hdr (set_stats s' (set_heap (<[hdr := b']> (heap st)) st))
      end.

(** [ether_realloc]; [chunk] is the outcome of the [malloc] inside the
    [ether_alloc] call, when one is made. *)
Definition ether_realloc (chunk : Z) (ptr : Z) (new_size : Z) (st : state)
  : Z * state :=
  if ptr =? NULL then ether_alloc chunk new_size st
  else if new_size =? 0 then (NULL, ether_free ptr st)
  else
    let old_header := get_header ptr in
    if negb (is_valid_block old_header (heap st)) then
      (NULL, complain (InvalidRealloc ptr) st)
    else
      match heap st !! old_header with
      | None => (NULL, st)
      | Some ob =>
        let old_size := blk_size ob in
        if new_size <=? blk_capacity ob then
          let data' := if old_size <? new_size
                       then memset_at (blk_data ob) old_size 0
                                      (new_size - old_size)
                       else blk_data ob in
          let ob' := with_data data' (with_size new_size ob) in
          (ptr, set_heap (<[old_header := ob']> (heap st)) st)
        else
          let '(new_ptr, st1) := ether_alloc chunk new_size st in
          if new_ptr =? NULL then (NULL, st1)
          else
            let copy_size := if old_size <? new_size then old_size
                             else new_size in
            let new_header := get_header new_ptr in
            let heap2 :=
              match heap st1 !! new_header, heap st1 !! old_header with
              | Some nb, Some src =>
                <[new_header :=
                    with_data (memcpy (blk_data nb) (blk_data src) copy_size)
                              nb]> (heap st1)
              | _, _ => heap st1
              end in
            (new_ptr, ether_free ptr (set_heap heap2 st1))
      end.

(** [ether_write]; [data] is [None] for a null source pointer. *)
Definition ether_write (ptr : Z) (data : option (list Z)) (len : Z)
  (st : state) : Z * state :=
  match data with
  | None => (ETHER_ERR_INVALID, st)
  | Some src =>
    if ptr =? NULL then (ETHER_ERR_INVALID, st)
    else
      let hdr := get_header ptr in
      if negb (is_valid_block hdr (heap st)) then (ETHER_ERR_CORRUPT, st)
      else
        match heap st !! hdr with
        | None => (ETHER_ERR_CORRUPT, st)
        | Some b =>
          if blk_size b <? len then (ETHER_ERR_OVERFLOW, st)
          else
            let b' := with_data (memcpy (blk_data b) src len) b in
            (ETHER_OK, set_heap (<[hdr := b']> (heap st)) st)
        end
  end.

(** [ether_read]; [buffer] is [None] for a null destination; the second
    component is the destination after the call. *)
Definition ether_read (ptr : Z) (buffer : option (list Z)) (len : Z)
  (st : state) : Z * option (list Z) :=
  match buffer with
  | None => (ETHER_ERR_INVALID, buffer)
  | Some dst =>
    if ptr =? NULL then (ETHER_ERR_INVALID, buffer)
    else
      let hdr := get_header ptr in
      if negb (is_valid_block hdr (heap st)) then (ETHER_ERR_CORRUPT, buffer)
      else
        match heap st !! hdr with
        | None => (ETHER_ERR_CORRUPT, buffer)
        | Some b =>
          if blk_size b <? len then (ETHER_ERR_OVERFLOW, buffer)
          else (ETHER_OK, Some (memcpy dst (blk_data b) len))
        end
  end.

(** [ether_size] *)
Definition ether_size (ptr : Z) (st : state) : Z :=
  if ptr =? NULL then 0
  else
    let hdr := get_header ptr in
    if negb (is_valid_block hdr (heap st)) then 0
    else match heap st !! hdr with
         | Some b => blk_size b
         | None => 0
         end.

Definition ether_get_stats (st : state) : ether_stats_t := g_stats st.

(** [ether_reset_stats] *)
Definition ether_reset_stats (st : state) : state :=
  set_stats zero_stats st.

(** ** Sequences of allocator calls *)

(** The calls that touch the statistics, with the outcome of the [malloc]
    they make. *)
Inductive call :=
| Allocate (chunk size : Z)
| Release (ptr : Z)
| Resize (chunk ptr new_size : Z)
| ResetStatistics.

Definition perform (c : call) (st : state) : state :=
  match c with
  | Allocate chunk size => snd (ether_alloc chunk size st)
  | Release ptr => ether_free ptr st
  | Resize chunk ptr new_size => snd (ether_realloc chunk ptr new_size st)
  | ResetStatistics => ether_reset_stats st
  end.

Fixpoint run (cs : list call) (st : state) : state :=
  match cs with
  | [] => st
  | c :: rest => run rest (perform c st)
  end.

(** The invariant of the specification, read over the integers. *)
Definition stats_invariant (s : ether_stats_t) : Prop :=
  total_allocated s - total_freed s = current_usage s /\
  current_usage s <= peak_usage s.

(** The same difference computed in [size_t], as C does. *)
Definition stats_balance_wrapped (s : ether_stats_t) : Prop :=
  wrap64 (total_allocated s - total_freed s) = current_usage s.

(** The chunk at [hdr] passes the validity check. *)
Definition live (m : gmap Z block) (hdr : Z) : Prop :=
  is_valid_block hdr m = true.

(** No chunk is live. *)
Definition idle (st : state) : Prop :=
  forall hdr, is_valid_block hdr (heap st) = false.

(** The size a call asks [malloc] for (beyond the header). *)
Definition requested (c : call) : Z :=
  match c with
  | Allocate _ size => size
  | Resize _ _ new_size => new_size
  | _ => 0
  end.

Fixpoint total_requested (cs : list call) : Z :=
  match cs with
  | [] => 0
  | c :: rest => requested c + total_requested rest
  end.

(** Sizes are values of [size_t]. *)
Definition sizes_in_range (cs : list call) : Prop :=
  Forall (fun c => 0 <= requested c < 2 ^ 64) cs.

(** [ether_reset_stats] is only called while no chunk is live. *)
Fixpoint resets_when_idle (cs : list call) (st : state) : Prop :=
  match cs with
  | [] => True
  | c :: rest =>
    (c = ResetStatistics -> idle st) /\ resets_when_idle rest (perform c st)
  end.

(** A well-formed chunk: the data area has [capacity] bytes, of which
    [size] are in use. *)
Definition block_wf (b : block) : Prop :=
  0 <= blk_size b <= blk_capacity b /\
  Z.of_nat (length (blk_data b)) = blk_capacity b.

(** ** Auxiliary definitions used in the statements *)

(** The tag part of [is_valid_block]. *)
Definition tagged_live (b : block) : bool :=
  (blk_magic b =? BLOCK_MAGIC)
  && negb (Z.land (blk_flags b) FLAG_ALLOCATED =? 0).

(** What [ether_alloc] does to the statistics. *)
Definition allocated_stats (size : Z) (s : ether_stats_t) : ether_stats_t :=
  {| total_allocated := wrap64 (total_allocated s + size);
     total_freed := total_freed s;
     current_usage := wrap64 (current_usage s + size);
     peak_usage := if peak_usage s <? wrap64 (current_usage s + size)
                   then wrap64 (current_usage s + size) else peak_usage s;
     num_allocs := wrap64 (num_allocs s + 1);
     num_frees := num_frees s |}.

(** What [ether_free] does to the statistics. *)
Definition freed_stats (size : Z) (s : ether_stats_t) : ether_stats_t :=
  {| total_allocated := total_allocated s;
     total_freed := wrap64 (total_freed s + size);
     current_usage := wrap64 (current_usage s - size);
     peak_usage := peak_usage s;
     num_allocs := num_allocs s;
     num_frees := wrap64 (num_frees s + 1) |}.

(** The chunk [ether_alloc] writes. *)
Definition fresh_block (size : Z) : block :=
  {| blk_magic := BLOCK_MAGIC; blk_flags := FLAG_ALLOCATED;
     blk_size := size; blk_capacity := size;
     blk_data := replicate (Z.to_nat size) 0 |}.

(** The chunk [b] as [ether_free] leaves it. *)
Definition wiped (b : block) : block :=
  with_tag BLOCK_FREED 0 (with_data (memset (blk_data b) 0 (blk_size b)) b).

(** The chunk [b] after an in-place resize to [new_size]. *)
Definition resized (new_size : Z) (b : block) : block :=
  with_data (if blk_size b <? new_size
             then memset_at (blk_data b) (blk_size b) 0
                            (new_size - blk_size b)
             else blk_data b)
            (with_size new_size b).

(** The chunk that receives the first [old_size] bytes of [data]. *)
Definition moved_block (new_size old_size : Z) (data : list Z) : block :=
  {| blk_magic := BLOCK_MAGIC; blk_flags := FLAG_ALLOCATED;
     blk_size := new_size; blk_capacity := new_size;
     blk_data := take (Z.to_nat old_size) data
                 ++ replicate (Z.to_nat (new_size - old_size)) 0 |}.

(** The bytes a chunk holds against [current_usage]: its capacity while it
    passes the validity check, nothing otherwise. *)
Definition weight (hdr : Z) (b : block) : Z :=
  if negb (hdr =? NULL) && tagged_live b then blk_capacity b else 0.

Definition live_total (m : gmap Z block) : Z :=
  map_fold (fun hdr b acc => weight hdr b + acc) 0 m.

Definition old_weight (m : gmap Z block) (hdr : Z) : Z :=
  match m !! hdr with Some b => weight hdr b | None => 0 end.

(** The bookkeeping invariant behind the statistics: [used] bounds what
    has been requested so far. *)
Record accounted (st : state) (used : Z) : Prop := MkAccounted {
  acc_freed : 0 <= total_freed (g_stats st);
  acc_used : total_allocated (g_stats st) <= used;
  acc_balance : total_allocated (g_stats st) - total_freed (g_stats st)
                = current_usage (g_stats st);
  acc_live : live_total (heap st) <= current_usage (g_stats st);
  acc_peak : current_usage (g_stats st) <= peak_usage (g_stats st);
  acc_blocks : forall hdr b, heap st !! hdr = Some b ->
                 tagged_live b = true -> 0 <= blk_size b <= blk_capacity b
}.

(** ** Sample data *)

(** ["hello\0"] *)
Definition hello : list Z := [104; 101; 108; 108; 111; 0].

(** A region of 8 bytes holding [1..8], allocated at chunk 1000. *)
Definition sample_state : state :=
  snd (ether_write 1024 (Some [1; 2; 3; 4; 5; 6; 7; 8]) 8
         (snd (ether_alloc 1000 8 initial_state))).

Definition sample_block : block :=
  {| blk_magic := BLOCK_MAGIC; blk_flags := FLAG_ALLOCATED; blk_size := 8;
     blk_capacity := 8; blk_data := [1; 2; 3; 4; 5; 6; 7; 8] |}.

Definition sample_calls : list call :=
  [ Allocate 1000 100; Resize 2000 1024 40; Release 1024; ResetStatistics;
    Allocate 3000 16; Resize 4000 3024 64; Release 4024 ].

(** ** Sequences of calls that also write *)

(** A call of the allocator's public interface that changes its world:
    one of the [call]s above, or [ether_write]. *)
Inductive action :=
| Do (c : call)
| WriteTo (ptr : Z) (data : list Z) (len : Z).

Definition act (a : action) (st : state) : state :=
  match a with
  | Do c => perform c st
  | WriteTo ptr data len => snd (ether_write ptr (Some data) len st)
  end.

Fixpoint play (acts : list action) (st : state) : state :=
  match acts with
  | [] => st
  | a :: rest => play rest (act a st)
  end.

(** What C asks of the arguments: sizes are not negative and leave room
    for the header, and a source buffer holds the [len] bytes to copy. *)
Definition admissible (a : action) : Prop :=
  match a with
  | Do c => 0 <= requested c /\ alloc_fits (requested c)
  | WriteTo _ data len => 0 <= len <= Z.of_nat (length data)
  end.

(** Every chunk that carries the allocated tag is well formed. Nothing is
    said of a chunk without it: what a released chunk holds is up to the
    C library. *)
Definition live_wf (m : gmap Z block) : Prop :=
  forall hdr b, m !! hdr = Some b -> tagged_live b = true -> block_wf b.

(** A state in which the header of chunk 1000 holds the FREED tag: an
    8-byte region that was released, its chunk not yet overwritten. *)
Definition freed_state : state :=
  {| heap := {[ 1000 := {| blk_magic := BLOCK_FREED; blk_flags := 0;
                           blk_size := 8; blk_capacity := 8;
                           blk_data := replicate 8 0 |} ]};
     g_stats := {| total_allocated := 8; total_freed := 8;
                   current_usage := 0; peak_usage := 8; num_allocs := 1;
                   num_frees := 1 |};
     stderr := []; released := [1000] |}.


(** A sample sequence: allocate, write, shrink, grow, write to a stale
    pointer, release twice, reset. *)
Definition sample_actions : list action :=
  [ Do (Allocate 1000 8); WriteTo 1024 [1; 2; 3; 4; 5; 6; 7; 8] 8;
    Do (Resize 2000 1024 3); Do (Resize 2000 1024 20);
    WriteTo 2024 [7; 7] 2; Do (Release 2024); Do ResetStatistics;
    Do (Release 1024) ].

End Allocator.

(* ===================================================================== *)
(** * The daemon [etherd]: handle table and request handlers *)
(* ===================================================================== *)

Module Server.
Import Machine Protocol Allocator.

(** [handle_entry_t] *)
Record handle_entry_t := MkEntry {
  he_handle : Z;   (* uint64_t handle *)
  he_ptr : Z;      (* void*    ptr    *)
  he_size : Z;     (* size_t   size   *)
  he_in_use : Z    (* int      in_use *)
}.

Definition MAX_HANDLES : nat := 1024.

(** The daemon's globals: the allocator's world, [g_handles] (an array of
    [MAX_HANDLES] entries) and [g_next_handle]. Lines printed on [stdout]
    are not modelled. *)
Record server_state := MkServer {
  alloc : Allocator.state;
  g_handles : list handle_entry_t;
  g_next_handle : Z
}.

Definition empty_entry : handle_entry_t :=
  {| he_handle := 0; he_ptr := NULL; he_size := 0; he_in_use := 0 |}.

Definition initial_server : server_state :=
  {| alloc := Allocator.initial_state;
     g_handles := replicate MAX_HANDLES empty_entry;
     g_next_handle := 1 |}.

(** The loop [for (i = 0; i < 1024; i++) if (P(g_handles[i])) ...]: the
    first index, counted from [i], whose entry satisfies [P]. *)
Fixpoint find_slot (P : handle_entry_t -> bool) (tbl : list handle_entry_t)
  (i : nat) : option nat :=
  match tbl with
  | [] => None
  | e :: rest => if P e then Some i else find_slot P rest (S i)
  end.

Definition slot_free (e : handle_entry_t) : bool := he_in_use e =? 0.

Definition slot_holds (handle : Z) (e : handle_entry_t) : bool :=
  negb (he_in_use e =? 0) && (he_handle e =? handle).

(** [store_handle] *)
Definition store_handle (ptr size : Z) (st : server_state)
  : Z * server_state :=
  match find_slot slot_free (g_handles st) 0 with
  | Some i =>
    let h := g_next_handle st in
    (h, {| alloc := alloc st;
           g_handles := <[i := {| he_handle := h; he_ptr := ptr;
                                  he_size := size; he_in_use := 1 |}]>
                         (g_handles st);
           g_next_handle := wrap64 (h + 1) |})
  | None => (0, st)
  end.

(** [lookup_handle]: the pointer returned and the value left in [*size];
    [None] when no entry matches (the C function returns [NULL] and does not
    touch [*size]). *)
Definition lookup_handle (handle : Z) (st : server_state) : option (Z * Z) :=
  match find_slot (slot_holds handle) (g_handles st) 0 with
  | Some i =>
    match g_handles st !! i with
    | Some e => Some (he_ptr e, he_size e)
    | None => None
    end
  | None => None
  end.

(** [remove_handle] *)
Definition remove_handle (handle : Z) (st : server_state)
  : Z * server_state :=
  match find_slot (slot_holds handle) (g_handles st) 0 with
  | Some i =>
    match g_handles st !! i with
    | Some e =>
      (1, {| alloc := alloc st;
             g_handles := <[i := {| he_handle := he_handle e;
                                    he_ptr := NULL;
                                    he_size := he_size e;
                                    he_in_use := 0 |}]> (g_handles st);
             g_next_handle := g_next_handle st |})
    | None => (0, st)
    end
  | None => (0, st)
  end.

(** Outcomes of the library calls made while one request is served. *)
Record oracle := MkOracle {
  malloc_chunk : Z;                   (* [malloc] inside [ether_alloc] *)
  malloc_scratch : option (list Z);   (* [malloc(len)] in [handle_read]:
                                         [None] is [NULL], otherwise the
                                         uninitialised bytes obtained *)
  malloc_payload : bool;              (* [malloc(header.size)] in
                                         [handle_client] *)
  calloc_msg : bool                   (* [calloc] in [ether_msg_create] *)
}.

(** [send_response]: the bytes handed to [send], header first. Nothing is
    sent when the message cannot be created. *)
Definition send_response (o : oracle) (cmd : Z) (handle : Z)
  (data : option (list Z)) (data_len : Z) : list Z :=
  match ether_msg_create (calloc_msg o) cmd data_len with
  | None => []
  | Some response =>
    let hdr := {| msg_magic := msg_magic (header response);
                  msg_version := msg_version (header response);
                  msg_command := msg_command (header response);
                  msg_flags := msg_flags (header response);
                  msg_handle := handle;
                  msg_size := msg_size (header response);
                  msg_reserved := msg_reserved (header response) |} in
    let body := match data with
                | Some d => if 0 <? data_len
                            then memcpy (payload response) d data_len
                            else payload response
                | None => payload response
                end in
    ether_msg_serialize_header hdr
    ++ (if 0 <? data_len then take (Z.to_nat data_len) body else [])
  end.

(** [handle_ping] *)
Definition handle_ping (o : oracle) (st : server_state)
  : list Z * server_state :=
  (send_response o ETHER_CMD_PONG 0 None 0, st).

(** [handle_alloc] *)
Definition handle_alloc (o : oracle) (h : ether_msg_header_t)
  (st : server_state) : list Z * server_state :=
  let size := msg_size h in
  let '(ptr, a1) := ether_alloc (malloc_chunk o) size (alloc st) in
  if ptr =? NULL then
    (send_response o ETHER_CMD_ERROR 0 None 0,
     {| alloc := a1; g_handles := g_handles st;
        g_next_handle := g_next_handle st |})
  else
    let '(handle, st1) :=
      store_handle ptr size {| alloc := a1; g_handles := g_handles st;
                               g_next_handle := g_next_handle st |} in
    if handle =? 0 then
      (send_response o ETHER_CMD_ERROR 0 None 0,
       {| alloc := ether_free ptr (alloc st1); g_handles := g_handles st1;
          g_next_handle := g_next_handle st1 |})
    else (send_response o ETHER_CMD_OK handle None 0, st1).

(** [handle_free] *)
Definition handle_free (o : oracle) (h : ether_msg_header_t)
  (st : server_state) : list Z * server_state :=
  let handle := msg_handle h in
  match lookup_handle handle st with
  | None => (send_response o ETHER_CMD_ERROR handle None 0, st)
  | Some (ptr, _) =>
    if ptr =? NULL then (send_response o ETHER_CMD_ERROR handle None 0, st)
    else
      let st1 := {| alloc := ether_free ptr (alloc st);
                    g_handles := g_handles st;
                    g_next_handle := g_next_handle st |} in
      let '(_, st2) := remove_handle handle st1 in
      (send_response o ETHER_CMD_OK handle None 0, st2)
  end.

(** [handle_write]; [payload] is [None] when the pointer passed is
    [NULL]. *)
Definition handle_write (o : oracle) (h : ether_msg_header_t)
  (payload : option (list Z)) (st : server_state)
  : list Z * server_state :=
  let handle := msg_handle h in
  let len := msg_size h in
  match lookup_handle handle st with
  | None => (send_response o ETHER_CMD_ERROR handle None 0, st)
  | Some (ptr, block_size) =>
    if ptr =? NULL then (send_response o ETHER_CMD_ERROR handle None 0, st)
    else if block_size <? len then
      (send_response o ETHER_CMD_ERROR handle None 0, st)
    else
      let '(ret, a1) := ether_write ptr payload len (alloc st) in
      if negb (ret =? ETHER_OK) then
        (send_response o ETHER_CMD_ERROR handle None 0, st)
      else
        (send_response o ETHER_CMD_OK handle None 0,
         {| alloc := a1; g_handles := g_handles st;
            g_next_handle := g_next_handle st |})
  end.

(** [handle_read] *)
Definition handle_read (o : oracle) (h : ether_msg_header_t)
  (st : server_state) : list Z * server_state :=
  let handle := msg_handle h in
  let len := msg_size h in
  match lookup_handle handle st with
  | None => (send_response o ETHER_CMD_ERROR handle None 0, st)
  | Some (ptr, block_size) =>
    if ptr =? NULL then (send_response o ETHER_CMD_ERROR handle None 0, st)
    else
      let len := if block_size <? len then block_size else len in
      match malloc_scratch o with
      | None => (send_response o ETHER_CMD_ERROR handle None 0, st)
      | Some buffer =>
        let '(ret, buffer') := ether_read ptr (Some buffer) len (alloc st) in
        if negb (ret =? ETHER_OK) then
          (send_response o ETHER_CMD_ERROR handle None 0, st)
        else (send_response o ETHER_CMD_OK handle buffer' len, st)
      end
  end.

(** One turn of the loop in [handle_client]. [header_buf] and [incoming]
    are what the two [recv] calls deliver ([None]: [recv] returned [<= 0]).
    The result tells whether the loop goes on, what was sent and the
    globals afterwards. *)
Record turn := MkTurn {
  goes_on : bool;
  sent : list Z;
  after : server_state
}.

Definition handle_client_turn (o : oracle) (header_buf : option (list Z))
  (incoming : option (list Z)) (st : server_state) : turn :=
  match header_buf with
  | None => {| goes_on := false; sent := []; after := st |}
  | Some buf =>
    let h := ether_msg_deserialize_header buf in
    if negb (ether_msg_validate h) then
      {| goes_on := true; sent := []; after := st |}
    else
      (* 4. read payload if any; [payload] is NULL unless [size > 0] *)
      let received :=
        if 0 <? msg_size h then
          if negb (malloc_payload o) then None
          else match incoming with
               | None => None
               | Some bytes => Some (Some bytes)
               end
        else Some None in
      match received with
      | None => {| goes_on := false; sent := []; after := st |}
      | Some payload =>
        let '(out, st') :=
          if msg_command h =? ETHER_CMD_PING then handle_ping o st
          else if msg_command h =? ETHER_CMD_ALLOC then handle_alloc o h st
          else if msg_command h =? ETHER_CMD_FREE then handle_free o h st
          else if msg_command h =? ETHER_CMD_WRITE
               then handle_write o h payload st
          else if msg_command h =? ETHER_CMD_READ then handle_read o h st
          else (send_response o ETHER_CMD_ERROR 0 None 0, st) in
        {| goes_on := true; sent := out; after := st' |}
      end
  end.

(** ** Sequences of handle-table calls *)

Inductive table_call :=
| Store (ptr size : Z)
| Remove (handle : Z).

(** What a run has produced so far: every value [store_handle] returned
    and every handle [remove_handle] took out, most recent first. *)
Record history := MkHistory {
  returned : list Z;
  removed : list Z
}.

Definition table_perform (c : table_call) (sh : server_state * history)
  : server_state * history :=
  let '(st, hist) := sh in
  match c with
  | Store ptr size =>
    let '(h, st') := store_handle ptr size st in
    (st', {| returned := h :: returned hist; removed := removed hist |})
  | Remove handle =>
    let '(ok, st') := remove_handle handle st in
    (st', {| returned := returned hist;
             removed := if ok =? 0 then removed hist
                        else handle :: removed hist |})
  end.

Fixpoint table_run (cs : list table_call) (sh : server_state * history)
  : server_state * history :=
  match cs with
  | [] => sh
  | c :: rest => table_run rest (table_perform c sh)
  end.

Definition no_history : history := {| returned := []; removed := [] |}.

(** Every slot of the table is taken. *)
Definition exhausted (st : server_state) : Prop :=
  Forall (fun e => he_in_use e <> 0) (g_handles st).

(** [handle] names a live region: an entry in use holds it, with a
    non-null pointer to a valid chunk whose header agrees with the cached
    size. *)
Definition live_handle (handle : Z) (st : server_state) (ptr : Z) (b : block)
  : Prop :=
  lookup_handle handle st = Some (ptr, blk_size b) /\
  ptr <> NULL /\
  heap (alloc st) !! get_header ptr = Some b /\
  is_valid_block (get_header ptr) (heap (alloc st)) = true /\
  block_wf b.

(** ** Auxiliary definitions used in the statements *)

(** What holds of the table after [n] calls: the counter has not wrapped,
    and it lies above every handle handed out, taken out or still in the
    table. *)
Record counted (st : server_state) (hist : history) (n : Z) : Prop :=
  MkCounted {
  cnt_next : 1 <= g_next_handle st <= 1 + n;
  cnt_returned : Forall (fun h => 0 <= h < g_next_handle st) (returned hist);
  cnt_removed : Forall (fun h => h < g_next_handle st) (removed hist);
  cnt_table : Forall (fun e => he_in_use e <> 0 ->
                               he_handle e < g_next_handle st) (g_handles st)
}.

(** The bytes of an ERROR response for [handle]. *)
Definition error_response (handle : Z) : list Z :=
  ether_msg_serialize_header
    {| msg_magic := ETHER_MAGIC; msg_version := ETHER_PROTOCOL_VER;
       msg_command := ETHER_CMD_ERROR; msg_flags := 0; msg_handle := handle;
       msg_size := 0; msg_reserved := 0 |}.

(** The bytes of an OK response for [handle] carrying [body]. *)
Definition ok_response (handle : Z) (body : list Z) : list Z :=
  ether_msg_serialize_header
    {| msg_magic := ETHER_MAGIC; msg_version := ETHER_PROTOCOL_VER;
       msg_command := ETHER_CMD_OK; msg_flags := 0; msg_handle := handle;
       msg_size := Z.of_nat (length body); msg_reserved := 0 |}
  ++ body.

(** ** Consistency of table and heap *)

(** An entry in use points to a live, well-formed chunk whose header agrees
    with the cached size. *)
Definition entry_ok (m : gmap Z block) (e : handle_entry_t) : Prop :=
  he_in_use e <> 0 ->
  he_ptr e <> NULL /\
  exists b, m !! get_header (he_ptr e) = Some b /\
            is_valid_block (get_header (he_ptr e)) m = true /\
            blk_size b = he_size e /\ block_wf b.

(** The table and the heap agree. *)
Record consistent (st : server_state) : Prop := MkConsistent {
  cons_next : 1 <= g_next_handle st;
  cons_entries : forall i e, g_handles st !! i = Some e ->
                   entry_ok (heap (alloc st)) e;
  cons_distinct :
    forall i j ei ej,
      g_handles st !! i = Some ei -> g_handles st !! j = Some ej ->
      he_in_use ei <> 0 -> he_in_use ej <> 0 ->
      he_ptr ei = he_ptr ej -> i = j
}.

(** What the environment guarantees during one turn: [malloc] returns
    [NULL] or an address that is not a live chunk, the payload buffer holds
    [header.size] bytes, and the handle counter has not run out. *)
Definition fair (o : oracle) (header_buf incoming : option (list Z))
  (st : server_state) : Prop :=
  (malloc_chunk o = NULL \/
   (0 < malloc_chunk o /\
    is_valid_block (malloc_chunk o) (heap (alloc st)) = false)) /\
  (forall buf bytes, header_buf = Some buf -> incoming = Some bytes ->
     Z.of_nat (length bytes) = msg_size (ether_msg_deserialize_header buf)) /\
  g_next_handle st < 2 ^ 64 - 1.

Inductive reachable : server_state -> Prop :=
| reach_initial : reachable initial_server
| reach_turn o header_buf incoming st :
    reachable st -> fair o header_buf incoming st ->
    reachable (after (handle_client_turn o header_buf incoming st)).

(** ** Sample data: ALLOC(10), then WRITE "hello" *)

Definition sample_table_calls : list table_call :=
  [ Store 1024 10; Store 2048 20; Remove 1; Store 4096 5 ].

Definition sample_oracle : oracle :=
  {| malloc_chunk := 1000; malloc_scratch := Some (replicate 10 0xAA);
     malloc_payload := true; calloc_msg := true |}.

Definition request (cmd handle size : Z) : ether_msg_header_t :=
  {| msg_magic := ETHER_MAGIC; msg_version := ETHER_PROTOCOL_VER;
     msg_command := cmd; msg_flags := 0; msg_handle := handle;
     msg_size := size; msg_reserved := 0 |}.

Definition sample_server : server_state :=
  snd (handle_write sample_oracle (request ETHER_CMD_WRITE 1 6) (Some hello)
         (snd (handle_alloc sample_oracle (request ETHER_CMD_ALLOC 0 10)
                 initial_server))).

Definition served_block : block :=
  {| blk_magic := BLOCK_MAGIC; blk_flags := FLAG_ALLOCATED; blk_size := 10;
     blk_capacity := 10; blk_data := hello ++ [0; 0; 0; 0] |}.

Definition empty_write_bytes : list Z :=
  ether_msg_serialize_header (request ETHER_CMD_WRITE 1 0).

(** ** The handle table on its own *)

(** The handles in the table are in order: those in use lie between 1 and
    the counter and are pairwise different, and the table has its 1024
    slots. *)
Record tidy (st : server_state) : Prop := MkTidy {
  tidy_next : 1 <= g_next_handle st;
  tidy_handles : forall i e, g_handles st !! i = Some e ->
                   he_in_use e <> 0 -> 1 <= he_handle e < g_next_handle st;
  tidy_distinct :
    forall i j ei ej,
      g_handles st !! i = Some ei -> g_handles st !! j = Some ej ->
      he_in_use ei <> 0 -> he_in_use ej <> 0 ->
      he_handle ei = he_handle ej -> i = j;
  tidy_length : length (g_handles st) = MAX_HANDLES
}.

(** A state of the table that store and remove calls lead to from the
    start, before the 64-bit counter runs out. *)
Definition table_state (st : server_state) : Prop :=
  exists cs hist,
    Z.of_nat (length cs) < 2 ^ 64 - 1 /\
    table_run cs (initial_server, no_history) = (st, hist).

Definition sample_table : server_state :=
  fst (table_run sample_table_calls (initial_server, no_history)).

(** ** More sample data *)

Definition second_oracle : oracle :=
  {| malloc_chunk := 2000; malloc_scratch := Some (replicate 10 0xAA);
     malloc_payload := true; calloc_msg := true |}.

(** The session of [sample_server], played through [handle_client]: an
    ALLOC of 10 bytes (with the 10 payload bytes the daemon waits for), then
    a WRITE of ["hello\0"] to handle 1. *)
Definition sample_session : server_state :=
  after (handle_client_turn second_oracle
           (Some (ether_msg_serialize_header (request ETHER_CMD_WRITE 1 6)))
           (Some hello)
           (after (handle_client_turn sample_oracle
                     (Some (ether_msg_serialize_header
                              (request ETHER_CMD_ALLOC 0 10)))
                     (Some (replicate 10 0)) initial_server))).

(** A table whose 1024 slots are all taken. *)
Definition full_server : server_state :=
  fst (table_run (replicate 1024 (Store 4096 1))
         (initial_server, no_history)).

End Server.

(* ===================================================================== *)
(** * The client library ([src/client.c]) *)
(* ===================================================================== *)

(** The handle cache, the two message helpers and the calls that send a
    well-formed message: [ether_ping], [ether_rfree], [ether_rwrite] and
    [ether_rsize]. [ether_rmalloc] and [ether_rread] are left out: they set
    [header.size] on a message created without payload, so that
    [send_message] reads past the message. *)

Module Client.
Import Machine Protocol Allocator.

Definition ETHER_ERR_NETWORK : Z := -5.
Definition ETHER_ERR_NOTFOUND : Z := -7.

(** [struct ether_conn] *)
Record ether_conn := MkConn {
  conn_socket : Z;       (* int  socket    *)
  conn_host : list Z;    (* char host[256] *)
  conn_port : Z;         (* int  port      *)
  conn_connected : Z     (* int  connected *)
}.

(** [handle_cache_entry_t] *)
Record handle_cache_entry_t := MkCacheEntry {
  ce_local_ptr : Z;       (* void*    local_ptr     *)
  ce_remote_handle : Z;   (* uint64_t remote_handle *)
  ce_size : Z;            (* size_t   size          *)
  ce_valid : Z            (* int      valid         *)
}.

(** [MAX_HANDLES] of [client.c] *)
Definition CACHE_HANDLES : nat := 4096.

Definition blank_entry : handle_cache_entry_t :=
  {| ce_local_ptr := NULL; ce_remote_handle := 0; ce_size := 0;
     ce_valid := 0 |}.

(** [g_cache] as the program starts. *)
Definition initial_cache : list handle_cache_entry_t :=
  replicate CACHE_HANDLES blank_entry.

(** The loop [for (i = 0; i < MAX_HANDLES; i++) if (P(g_cache[i])) ...]:
    the first index, counted from [i], whose entry satisfies [P]. *)
Fixpoint find_entry (P : handle_cache_entry_t -> bool)
  (tbl : list handle_cache_entry_t) (i : nat) : option nat :=
  match tbl with
  | [] => None
  | e :: rest => if P e then Some i else find_entry P rest (S i)
  end.

Definition entry_free (e : handle_cache_entry_t) : bool := ce_valid e =? 0.

Definition entry_holds (local : Z) (e : handle_cache_entry_t) : bool :=
  negb (ce_valid e =? 0) && (ce_local_ptr e =? local).

(** [cache_store] *)
Definition cache_store (local remote size : Z)
  (cache : list handle_cache_entry_t) : Z * list handle_cache_entry_t :=
  match find_entry entry_free cache 0 with
  | Some i =>
    (0, <[i := {| ce_local_ptr := local; ce_remote_handle := remote;
                  ce_size := size; ce_valid := 1 |}]> cache)
  | None => (-1, cache)
  end.

(** [cache_lookup]: the handle and the size of the first valid entry for
    [local]; [None] when there is none (the C function then returns 0 and
    leaves [*size] alone). *)
Definition cache_lookup (local : Z) (cache : list handle_cache_entry_t)
  : option (Z * Z) :=
  match find_entry (entry_holds local) cache 0 with
  | Some i =>
    match cache !! i with
    | Some e => Some (ce_remote_handle e, ce_size e)
    | None => None
    end
  | None => None
  end.

(** [cache_remove] *)
Definition cache_remove (local : Z) (cache : list handle_cache_entry_t)
  : Z * list handle_cache_entry_t :=
  match find_entry (entry_holds local) cache 0 with
  | Some i =>
    match cache !! i with
    | Some e =>
      (0, <[i := {| ce_local_ptr := ce_local_ptr e;
                    ce_remote_handle := ce_remote_handle e;
                    ce_size := ce_size e; ce_valid := 0 |}]> cache)
    | None => (-1, cache)
    end
  | None => (-1, cache)
  end.

(** The client's world: [g_cache], the local buffers by address, and the
    pointers handed to [free]. *)
Record client_state := MkClient {
  g_cache : list handle_cache_entry_t;
  local_mem : gmap Z (list Z);
  local_freed : list Z
}.

(** What the socket does during one call. *)
Record wire := MkWire {
  sent_header : bool;               (* [send] of the header returns 24 *)
  sent_payload : bool;              (* [send] of the payload returns
                                       [header.size] *)
  recv_header : option (list Z);    (* the 24 bytes [recv] delivers; [None]
                                       when it returns anything but 24 *)
  recv_payload : option (list Z)    (* the payload bytes [recv] delivers;
                                       [None] when it comes short *)
}.

(** [send_message], for a message whose payload holds [header.size] bytes:
    [None] is the result -1, [Some bytes] the result 0 with the bytes put
    on the socket. *)
Definition send_message (w : wire) (msg : ether_msg_t) : option (list Z) :=
  let header_buf := ether_msg_serialize_header (header msg) in
  if negb (sent_header w) then None
  else if 0 <? msg_size (header msg) then
    if negb (sent_payload w) then None
    else Some (header_buf
               ++ take (Z.to_nat (msg_size (header msg))) (payload msg))
  else Some header_buf.

(** [recv_response]: [None] is the result -1; otherwise the header
    received and [payload_buf] afterwards ([None] for a [NULL] buffer). *)
Definition recv_response (w : wire) (payload_buf : option (list Z))
  (payload_max : Z) : option (ether_msg_header_t * option (list Z)) :=
  match recv_header w with
  | None => None
  | Some header_buf =>
    let h := ether_msg_deserialize_header header_buf in
    if negb (ether_msg_validate h) then None
    else
      match payload_buf with
      | Some buf =>
        if 0 <? msg_size h then
          let to_recv := if msg_size h <? payload_max then msg_size h
                         else payload_max in
          match recv_payload w with
          | None => None
          | Some bytes => Some (h, Some (memcpy buf bytes to_recv))
          end
        else Some (h, payload_buf)
      | None => Some (h, None)
      end
  end.

(** The message [msg] with [header.handle] set to [handle]. *)
Definition with_handle (handle : Z) (msg : ether_msg_t) : ether_msg_t :=
  {| header := {| msg_magic := msg_magic (header msg);
                  msg_version := msg_version (header msg);
                  msg_command := msg_command (header msg);
                  msg_flags := msg_flags (header msg);
                  msg_handle := handle;
                  msg_size := msg_size (header msg);
                  msg_reserved := msg_reserved (header msg) |};
     payload := payload msg |}.

(** The message [msg] with its payload replaced. *)
Definition with_payload (bytes : list Z) (msg : ether_msg_t) : ether_msg_t :=
  {| header := header msg; payload := bytes |}.

(** [ether_ping]: the result and the bytes put on the socket. *)
Definition ether_ping (conn : option ether_conn) (calloc_ok : bool)
  (w : wire) : Z * list Z :=
  match conn with
  | None => (-1, [])
  | Some c =>
    if conn_connected c =? 0 then (-1, [])
    else
      match ether_msg_create calloc_ok ETHER_CMD_PING 0 with
      | None => (-1, [])
      | Some msg =>
        match send_message w msg with
        | None => (-1, [])
        | Some out =>
          match recv_response w None 0 with
          | None => (-1, out)
          | Some (response, _) =>
            (if msg_command response =? ETHER_CMD_PONG then 0 else -1, out)
          end
        end
      end
  end.

(** [ether_rfree]: the bytes put on the socket and the client's world
    afterwards. The results of [send_message] and [recv_response] are
    ignored. *)
Definition ether_rfree (conn : option ether_conn) (ptr : Z)
  (calloc_ok : bool) (w : wire) (cs : client_state)
  : list Z * client_state :=
  match conn with
  | None => ([], cs)
  | Some c =>
    if (conn_connected c =? 0) || (ptr =? NULL) then ([], cs)
    else
      let handle := match cache_lookup ptr (g_cache cs) with
                    | Some (h, _) => h
                    | None => 0
                    end in
      if handle =? 0 then ([], cs)
      else
        match ether_msg_create calloc_ok ETHER_CMD_FREE 0 with
        | None => ([], cs)
        | Some msg =>
          let out := match send_message w (with_handle handle msg) with
                     | Some bytes => bytes
                     | None => []
                     end in
          (out,
           {| g_cache := snd (cache_remove ptr (g_cache cs));
              local_mem := local_mem cs;
              local_freed := local_freed cs ++ [ptr] |})
        end
  end.

(** [memcpy(ptr, data, len)] on the local buffer at [ptr]. *)
Definition copy_local (ptr : Z) (data : list Z) (len : Z)
  (m : gmap Z (list Z)) : gmap Z (list Z) :=
  match m !! ptr with
  | Some buf => <[ptr := memcpy buf data len]> m
  | None => m
  end.

(** [ether_rwrite]: the result, the bytes put on the socket and the
    client's world afterwards. *)
Definition ether_rwrite (conn : option ether_conn) (ptr : Z)
  (data : option (list Z)) (len : Z) (calloc_ok : bool) (w : wire)
  (cs : client_state) : Z * list Z * client_state :=
  match conn, data with
  | Some c, Some d =>
    if (conn_connected c =? 0) || (ptr =? NULL) then
      (ETHER_ERR_INVALID, [], cs)
    else
      match cache_lookup ptr (g_cache cs) with
      | None => (ETHER_ERR_NOTFOUND, [], cs)
      | Some (handle, block_size) =>
        if handle =? 0 then (ETHER_ERR_NOTFOUND, [], cs)
        else if block_size <? len then (ETHER_ERR_OVERFLOW, [], cs)
        else
          match ether_msg_create calloc_ok ETHER_CMD_WRITE len with
          | None => (ETHER_ERR_NOMEM, [], cs)
          | Some msg =>
            let msg := with_payload (memcpy (payload msg) d len)
                         (with_handle handle msg) in
            match send_message w msg with
            | None => (ETHER_ERR_NETWORK, [], cs)
            | Some out =>
              match recv_response w None 0 with
              | None => (ETHER_ERR_NETWORK, out, cs)
              | Some (response, _) =>
                if negb (msg_command response =? ETHER_CMD_OK) then
                  (ETHER_ERR_INVALID, out, cs)
                else
                  (ETHER_OK, out,
                   {| g_cache := g_cache cs;
                      local_mem := copy_local ptr d len (local_mem cs);
                      local_freed := local_freed cs |})
              end
            end
          end
      end
  | _, _ => (ETHER_ERR_INVALID, [], cs)
  end.

(** [ether_rsize] *)
Definition ether_rsize (conn : option ether_conn) (ptr : Z)
  (cs : client_state) : Z :=
  match conn with
  | None => 0
  | Some _ =>
    if ptr =? NULL then 0
    else
      match cache_lookup ptr (g_cache cs) with
      | Some (handle, size) => if handle =? 0 then 0 else size
      | None => 0
      end
  end.

(** Valid entries of the cache have different local pointers, and the
    cache has its [CACHE_HANDLES] slots. *)
Record cache_ok (cache : list handle_cache_entry_t) : Prop := MkCacheOk {
  cache_distinct :
    forall i j ei ej,
      cache !! i = Some ei -> cache !! j = Some ej ->
      ce_valid ei <> 0 -> ce_valid ej <> 0 ->
      ce_local_ptr ei = ce_local_ptr ej -> i = j;
  cache_length : length cache = CACHE_HANDLES
}.

(** Every slot of the cache is valid. *)
Definition cache_full (cache : list handle_cache_entry_t) : Prop :=
  Forall (fun e => ce_valid e <> 0) cache.

(** ** Sample data: a client holding handle 1 of 10 bytes *)

Definition sample_conn : ether_conn :=
  {| conn_socket := 3; conn_host := [108; 111; 99; 97; 108; 104; 111; 115; 116];
     conn_port := 9999; conn_connected := 1 |}.

Definition sample_cache : list handle_cache_entry_t :=
  snd (cache_store 7000 1 10 initial_cache).

Definition sample_client : client_state :=
  {| g_cache := sample_cache; local_mem := {[ 7000 := replicate 10 0 ]};
     local_freed := [] |}.

(** A socket on which every [send] goes through and [recv] delivers
    [reply]. *)
Definition wire_with (reply : list Z) : wire :=
  {| sent_header := true; sent_payload := true; recv_header := Some reply;
     recv_payload := None |}.

End Client.

(* ===================================================================== *)
(** * Facts about bytes and big-endian words *)
(* ===================================================================== *)

Module BitFacts.
Import Machine.

Lemma land_shifted_low hi lo n :
  0 <= n -> 0 <= lo < 2 ^ n -> Z.land (hi * 2 ^ n) lo = 0.
Proof.
  intros Hn Hlo. apply Z.bits_inj'; intros k Hk.
  rewrite Z.land_spec, Z.bits_0.
  destruct (Z.lt_ge_cases k n) as [Hlt|Hge].
  - rewrite Z.mul_pow2_bits_low by lia. reflexivity.
  - destruct (Z.eq_dec lo 0) as [->|Hne].
    + rewrite Z.bits_0. apply andb_false_r.
    + rewrite (Z.bits_above_log2 lo k), andb_false_r; [reflexivity|lia|].
      apply Z.lt_le_trans with n; [|exact Hge].
      apply Z.log2_lt_pow2; lia.
Qed.

(** Or-ing a value below [2^n] into a multiple of [2^n] adds it. *)
Lemma lor_disjoint_add a lo n :
  0 <= n -> a mod 2 ^ n = 0 -> 0 <= lo < 2 ^ n -> Z.lor a lo = a + lo.
Proof.
  intros Hn Ha Hlo.
  assert (Hp : 0 < 2 ^ n) by (apply Z.pow_pos_nonneg; lia).
  assert (Ea : a = a / 2 ^ n * 2 ^ n).
  { pose proof (Z.div_mod a (2 ^ n)). lia. }
  rewrite Ea.
  rewrite Z.add_nocarry_lxor, Z.lxor_lor;
    [reflexivity | |]; apply land_shifted_low; assumption.
Qed.

Lemma byte_mask x k :
  0 <= k -> Z.land (Z.shiftr x k) 0xFF = (x / 2 ^ k) mod 256.
Proof.
  intros Hk. change 0xFF with (Z.ones 8).
  rewrite Z.land_ones, Z.shiftr_div_pow2 by lia. reflexivity.
Qed.

Lemma low_byte x : Z.land x 0xFF = x mod 256.
Proof.
  change 0xFF with (Z.ones 8). rewrite Z.land_ones by lia. reflexivity.
Qed.

Ltac numerals :=
  change (2 ^ 8) with 256 in *; change (2 ^ 16) with 65536 in *;
  change (2 ^ 24) with 16777216 in *; change (2 ^ 32) with 4294967296 in *;
  change (2 ^ 40) with 1099511627776 in *;
  change (2 ^ 48) with 281474976710656 in *;
  change (2 ^ 56) with 72057594037927936 in *;
  change (2 ^ 64) with 18446744073709551616 in *.

Ltac divmod := numerals; Z.div_mod_to_equations; lia.

(** Four bytes put together the way [load_be32] does. *)
Lemma load_be32_sum b0 b1 b2 b3 :
  0 <= b0 < 256 -> 0 <= b1 < 256 -> 0 <= b2 < 256 -> 0 <= b3 < 256 ->
  load_be32 b0 b1 b2 b3 = b0 * 2 ^ 24 + b1 * 2 ^ 16 + b2 * 2 ^ 8 + b3.
Proof.
  intros H0 H1 H2 H3. unfold load_be32, wrap32.
  rewrite !Z.shiftl_mul_pow2 by lia.
  rewrite (lor_disjoint_add (b0 * 2 ^ 24) (b1 * 2 ^ 16) 24) by divmod.
  rewrite (lor_disjoint_add _ (b2 * 2 ^ 8) 16) by divmod.
  rewrite (lor_disjoint_add _ b3 8) by divmod.
  apply Z.mod_small. numerals. lia.
Qed.

Lemma be32_digits x :
  0 <= x < 2 ^ 32 ->
  (x / 2 ^ 24) mod 256 * 2 ^ 24 + (x / 2 ^ 16) mod 256 * 2 ^ 16
  + (x / 2 ^ 8) mod 256 * 2 ^ 8 + x mod 256 = x.
Proof. intros H. divmod. Qed.

Lemma byte_range x : 0 <= x mod 256 < 256.
Proof. apply Z.mod_pos_bound. lia. Qed.

(** [ntohl(htonl(x)) = x] through memory. *)
Lemma load_store_be32 x :
  0 <= x < 2 ^ 32 ->
  load_be32 (Z.land (Z.shiftr x 24) 0xFF) (Z.land (Z.shiftr x 16) 0xFF)
            (Z.land (Z.shiftr x 8) 0xFF) (Z.land x 0xFF) = x.
Proof.
  intros H. rewrite !byte_mask, low_byte by lia.
  rewrite load_be32_sum by apply byte_range.
  apply be32_digits, H.
Qed.

Lemma flags_roundtrip x :
  0 <= x < 2 ^ 16 ->
  wrap16 (Z.lor (Z.shiftl (Z.land (Z.shiftr x 8) 0xFF) 8) (Z.land x 0xFF)) = x.
Proof.
  intros H. rewrite byte_mask, low_byte by lia. unfold wrap16.
  rewrite Z.shiftl_mul_pow2 by lia.
  rewrite (lor_disjoint_add _ _ 8) by divmod.
  divmod.
Qed.

Lemma shifted_byte_fits b k :
  0 <= b < 256 -> 0 <= k <= 56 -> wrap64 (Z.shiftl b k) = b * 2 ^ k.
Proof.
  intros Hb Hk. unfold wrap64. rewrite Z.shiftl_mul_pow2 by lia.
  apply Z.mod_small. split.
  { apply Z.mul_nonneg_nonneg; [lia|apply Z.pow_nonneg; lia]. }
  apply Z.lt_le_trans with (256 * 2 ^ k).
  - apply Z.mul_lt_mono_pos_r; [apply Z.pow_pos_nonneg; lia|lia].
  - change 256 with (2 ^ 8). rewrite <- Z.pow_add_r by lia.
    apply Z.pow_le_mono_r; lia.
Qed.

Lemma handle_roundtrip x :
  0 <= x < 2 ^ 64 ->
  Z.lor (Z.lor (Z.lor (Z.lor (Z.lor (Z.lor (Z.lor
    (wrap64 (Z.shiftl (Z.land (Z.shiftr x 56) 0xFF) 56))
    (wrap64 (Z.shiftl (Z.land (Z.shiftr x 48) 0xFF) 48)))
    (wrap64 (Z.shiftl (Z.land (Z.shiftr x 40) 0xFF) 40)))
    (wrap64 (Z.shiftl (Z.land (Z.shiftr x 32) 0xFF) 32)))
    (wrap64 (Z.shiftl (Z.land (Z.shiftr x 24) 0xFF) 24)))
    (wrap64 (Z.shiftl (Z.land (Z.shiftr x 16) 0xFF) 16)))
    (wrap64 (Z.shiftl (Z.land (Z.shiftr x 8) 0xFF) 8)))
    (Z.land x 0xFF) = x.
Proof.
  intros H. rewrite !byte_mask, low_byte by lia.
  rewrite !shifted_byte_fits by (try apply byte_range; lia).
  pose proof (byte_range (x / 2 ^ 56)). pose proof (byte_range (x / 2 ^ 48)).
  pose proof (byte_range (x / 2 ^ 40)). pose proof (byte_range (x / 2 ^ 32)).
  pose proof (byte_range (x / 2 ^ 24)). pose proof (byte_range (x / 2 ^ 16)).
  pose proof (byte_range (x / 2 ^ 8)). pose proof (byte_range x).
  set (b7 := (x / 2 ^ 56) mod 256) in *. set (b6 := (x / 2 ^ 48) mod 256) in *.
  set (b5 := (x / 2 ^ 40) mod 256) in *. set (b4 := (x / 2 ^ 32) mod 256) in *.
  set (b3 := (x / 2 ^ 24) mod 256) in *. set (b2 := (x / 2 ^ 16) mod 256) in *.
  set (b1 := (x / 2 ^ 8) mod 256) in *. set (b0 := x mod 256) in *.
  rewrite (lor_disjoint_add (b7 * 2 ^ 56) (b6 * 2 ^ 48) 56) by divmod.
  rewrite (lor_disjoint_add _ (b5 * 2 ^ 40) 48) by divmod.
  rewrite (lor_disjoint_add _ (b4 * 2 ^ 32) 40) by divmod.
  rewrite (lor_disjoint_add _ (b3 * 2 ^ 24) 32) by divmod.
  rewrite (lor_disjoint_add _ (b2 * 2 ^ 16) 24) by divmod.
  rewrite (lor_disjoint_add _ (b1 * 2 ^ 8) 16) by divmod.
  rewrite (lor_disjoint_add _ b0 8) by divmod.
  subst b0 b1 b2 b3 b4 b5 b6 b7. clear -H. divmod.
Qed.

End BitFacts.

(* ===================================================================== *)
(** * The codec *)
(* ===================================================================== *)

Module ProtocolFacts.
Import Machine Protocol BitFacts.

Lemma serialize_length h : length (ether_msg_serialize_header h) = 24%nat.
Proof. reflexivity. Qed.

(** C2. Header round trip: for every header whose seven fields hold values
    of their C types, deserializing the 24 bytes produced by
    [ether_msg_serialize_header] gives back the header, field by field. *)
Theorem header_roundtrip (h : ether_msg_header_t) :
  header_in_range h ->
  length (ether_msg_serialize_header h) = 24%nat /\
  ether_msg_deserialize_header (ether_msg_serialize_header h) = h.
Proof.
  intros (Hm & Hv & Hc & Hf & Hh & Hs & Hr).
  split; [reflexivity|].
  destruct h as [m v c f hd sz r]; simpl in *.
  unfold ether_msg_deserialize_header, ether_msg_serialize_header, store_be32.
  cbn [app byte_at nth msg_magic msg_version msg_command msg_flags
       msg_handle msg_size msg_reserved].
  rewrite !load_store_be32 by assumption.
  rewrite flags_roundtrip by assumption.
  rewrite handle_roundtrip by assumption.
  reflexivity.
Qed.

Lemma header_roundtrip_witness :
  header_in_range sample_header /\
  length (ether_msg_serialize_header sample_header) = 24%nat /\
  ether_msg_deserialize_header (ether_msg_serialize_header sample_header)
  = sample_header.
Proof.
  assert (H : header_in_range sample_header).
  { repeat split; vm_compute; congruence. }
  split; [exact H | exact (header_roundtrip sample_header H)].
Defined.

End ProtocolFacts.

(* ===================================================================== *)
(** * The allocator *)
(* ===================================================================== *)

Module AllocatorFacts.
Import Machine Allocator.

(** ** The validity check *)

Lemma is_valid_block_lookup hdr m :
  is_valid_block hdr m = true <->
  hdr <> NULL /\ exists b, m !! hdr = Some b /\ tagged_live b = true.
Proof.
  unfold is_valid_block, tagged_live. split.
  - intros H. apply andb_true_iff in H as [Hn Hb].
    apply negb_true_iff, Z.eqb_neq in Hn. split; [exact Hn|].
    destruct (m !! hdr) as [b|]; [eauto|discriminate].
  - intros (Hn & b & -> & Hb). apply andb_true_iff. split; [|exact Hb].
    apply negb_true_iff, Z.eqb_neq, Hn.
Qed.

Lemma is_valid_block_insert_same hdr b m :
  hdr <> NULL -> is_valid_block hdr (<[hdr := b]> m) = tagged_live b.
Proof.
  intros Hn. unfold is_valid_block, tagged_live.
  rewrite lookup_insert_eq.
  apply Z.eqb_neq in Hn. rewrite Hn. reflexivity.
Qed.

Lemma is_valid_block_insert_other hdr hdr' b m :
  hdr <> hdr' -> is_valid_block hdr' (<[hdr := b]> m) = is_valid_block hdr' m.
Proof.
  intros Hn. unfold is_valid_block. rewrite lookup_insert_ne by exact Hn.
  reflexivity.
Qed.

Lemma tagged_live_with_data d b : tagged_live (with_data d b) = tagged_live b.
Proof. reflexivity. Qed.

Lemma tagged_live_with_size n b : tagged_live (with_size n b) = tagged_live b.
Proof. reflexivity. Qed.

Lemma tagged_live_freed b : tagged_live (with_tag BLOCK_FREED 0 b) = false.
Proof. reflexivity. Qed.

(** ** Raw memory *)

Lemma take_memcpy dst src n :
  (Z.to_nat n <= length src)%nat ->
  take (Z.to_nat n) (memcpy dst src n) = take (Z.to_nat n) src.
Proof.
  intros H. unfold memcpy.
  rewrite take_app_le by (rewrite length_take; lia).
  rewrite take_take. f_equal. lia.
Qed.

Lemma length_memcpy dst src n :
  (Z.to_nat n <= length src)%nat -> (Z.to_nat n <= length dst)%nat ->
  length (memcpy dst src n) = length dst.
Proof.
  intros Hs Hd. unfold memcpy.
  rewrite length_app, length_take, length_drop. lia.
Qed.

(** ** What each call does on a live chunk *)

Section LiveChunk.

Variables (ptr : Z) (st : state) (b : block).
Hypothesis Hptr : ptr <> NULL.
Hypothesis Hlive : live (heap st) (get_header ptr).
Hypothesis Hblock : heap st !! get_header ptr = Some b.

Lemma live_ptr_test : (ptr =? NULL) = false.
Proof. apply Z.eqb_neq, Hptr. Qed.

Lemma ether_write_live src len :
  len <= blk_size b ->
  ether_write ptr (Some src) len st =
  (ETHER_OK,
   set_heap (<[get_header ptr := with_data (memcpy (blk_data b) src len) b]>
               (heap st)) st).
Proof.
  intros Hlen. unfold ether_write. unfold live in Hlive.
  rewrite live_ptr_test, Hlive, Hblock. simpl.
  destruct (blk_size b <? len) eqn:E; [apply Z.ltb_lt in E; lia|reflexivity].
Qed.

Lemma ether_read_live dst len :
  len <= blk_size b ->
  ether_read ptr (Some dst) len st =
  (ETHER_OK, Some (memcpy dst (blk_data b) len)).
Proof.
  intros Hlen. unfold ether_read. unfold live in Hlive.
  rewrite live_ptr_test, Hlive, Hblock. simpl.
  destruct (blk_size b <? len) eqn:E; [apply Z.ltb_lt in E; lia|reflexivity].
Qed.

Lemma ether_size_live : ether_size ptr st = blk_size b.
Proof.
  unfold ether_size. unfold live in Hlive.
  rewrite live_ptr_test, Hlive, Hblock. reflexivity.
Qed.

End LiveChunk.

Lemma live_is_Some m hdr : live m hdr -> exists b, m !! hdr = Some b.
Proof.
  intros H. apply is_valid_block_lookup in H as (_ & b & Hb & _). eauto.
Qed.

Lemma live_nonnull m hdr : live m hdr -> hdr <> NULL.
Proof. intros H. apply is_valid_block_lookup in H. tauto. Qed.

Lemma live_tagged m hdr b :
  live m hdr -> m !! hdr = Some b -> tagged_live b = true.
Proof.
  intros H Hb. apply is_valid_block_lookup in H as (_ & b' & Hb' & Ht).
  congruence.
Qed.

(** C5. Write then read: on a live region, for every [len] up to
    [ether_size], writing [len] bytes of [D] and reading [len] bytes back
    into a buffer succeeds twice and the buffer then starts with the [len]
    bytes written; when [D] and the buffer are exactly [len] bytes long the
    buffer equals [D]. *)
Theorem write_read_roundtrip (ptr : Z) (D buf : list Z) (len : Z)
  (st : state) :
  ptr <> NULL ->
  live (heap st) (get_header ptr) ->
  0 <= len <= ether_size ptr st ->
  len <= Z.of_nat (length D) ->
  len <= Z.of_nat (length buf) ->
  exists st' out,
    ether_write ptr (Some D) len st = (ETHER_OK, st') /\
    ether_read ptr (Some buf) len st' = (ETHER_OK, Some out) /\
    take (Z.to_nat len) out = take (Z.to_nat len) D /\
    length out = length buf /\
    (Z.of_nat (length D) = len -> Z.of_nat (length buf) = len -> out = D).
Proof.
  intros Hp Hl Hlen HD Hbuf.
  destruct (live_is_Some _ _ Hl) as [b Hb].
  rewrite (ether_size_live _ _ _ Hp Hl Hb) in Hlen.
  pose proof (live_tagged _ _ _ Hl Hb) as Ht.
  pose proof (live_nonnull _ _ Hl) as Hh.
  eexists _, _. split; [apply (ether_write_live ptr st b); auto; lia|].
  split.
  { apply ether_read_live; simpl.
    - exact Hp.
    - unfold live. rewrite is_valid_block_insert_same by exact Hh. exact Ht.
    - apply lookup_insert_eq.
    - simpl. lia. }
  simpl.
  assert (Hin : take (Z.to_nat len) (memcpy buf (memcpy (blk_data b) D len) len)
                = take (Z.to_nat len) D).
  { rewrite take_memcpy.
    - apply take_memcpy. lia.
    - unfold memcpy. rewrite length_app, length_take. lia. }
  assert (Hlen' : length (memcpy buf (memcpy (blk_data b) D len) len)
                  = length buf).
  { unfold memcpy at 1. rewrite length_app, length_take, length_drop.
    unfold memcpy. rewrite length_app, length_take. lia. }
  split; [exact Hin|]. split; [exact Hlen'|].
  intros ED EB.
  rewrite <- (take_ge D (Z.to_nat len)) at 2 by lia.
  rewrite <- Hin. symmetry. apply take_ge. lia.
Qed.

Lemma write_read_roundtrip_witness :
  let st := snd (ether_alloc 1000 8 initial_state) in
  exists st' out,
    ether_write 1024 (Some hello) 6 st = (ETHER_OK, st') /\
    ether_read 1024 (Some (replicate 6 0)) 6 st' = (ETHER_OK, Some out) /\
    take (Z.to_nat 6) out = take (Z.to_nat 6) hello /\
    length out = length (replicate 6 0) /\
    (Z.of_nat (length hello) = 6 ->
     Z.of_nat (length (replicate 6 0)) = 6 -> out = hello).
Proof.
  intros st.
  apply (write_read_roundtrip 1024 hello (replicate 6 0) 6 st).
  - discriminate.
  - reflexivity.
  - split; vm_compute; congruence.
  - vm_compute; congruence.
  - vm_compute; congruence.
Defined.

(** ** Release *)

Lemma tagged_live_not_freed b :
  tagged_live b = true -> (blk_magic b =? BLOCK_FREED) = false.
Proof.
  unfold tagged_live. intros H. apply andb_true_iff in H as [H _].
  apply Z.eqb_eq in H. rewrite H. reflexivity.
Qed.

Lemma ether_free_live ptr st b :
  ptr <> NULL -> live (heap st) (get_header ptr) ->
  heap st !! get_header ptr = Some b ->
  ether_free ptr st =
  sys_free (get_header ptr)
    (set_stats (freed_stats (blk_size b) (g_stats st))
       (set_heap (<[get_header ptr := wiped b]> (heap st)) st)).
Proof.
  intros Hp Hl Hb. pose proof (live_tagged _ _ _ Hl Hb) as Ht.
  unfold ether_free, live in *.
  apply Z.eqb_neq in Hp. rewrite Hp, Hl, Hb. simpl.
  rewrite (tagged_live_not_freed _ Ht). reflexivity.
Qed.

Lemma ether_free_not_live ptr st :
  ptr <> NULL -> is_valid_block (get_header ptr) (heap st) = false ->
  ether_free ptr st = complain (InvalidFree ptr) st.
Proof.
  intros Hp Hl. unfold ether_free.
  apply Z.eqb_neq in Hp. rewrite Hp, Hl. reflexivity.
Qed.




(** ** Allocate and resize *)

Lemma ether_alloc_ok chunk size st :
  size <> 0 -> chunk <> NULL ->
  ether_alloc chunk size st =
  (get_user_ptr chunk,
   set_stats (allocated_stats size (g_stats st))
     (set_heap (<[chunk := fresh_block size]> (heap st)) st)).
Proof.
  intros Hs Hc. unfold ether_alloc.
  apply Z.eqb_neq in Hs, Hc. rewrite Hs, Hc. reflexivity.
Qed.

Lemma ether_alloc_null size st : ether_alloc NULL size st = (NULL, st).
Proof. unfold ether_alloc. destruct (size =? 0); reflexivity. Qed.

Lemma get_header_user_ptr chunk : get_header (get_user_ptr chunk) = chunk.
Proof. unfold get_header, get_user_ptr. lia. Qed.

Lemma ether_realloc_in_place chunk ptr new_size st b :
  ptr <> NULL -> live (heap st) (get_header ptr) ->
  heap st !! get_header ptr = Some b ->
  new_size <> 0 -> new_size <= blk_capacity b ->
  ether_realloc chunk ptr new_size st =
  (ptr, set_heap (<[get_header ptr := resized new_size b]> (heap st)) st).
Proof.
  intros Hp Hl Hb Hn Hc. unfold ether_realloc, live in *.
  apply Z.eqb_neq in Hp, Hn. rewrite Hp, Hn, Hl, Hb. simpl.
  destruct (new_size <=? blk_capacity b) eqn:E;
    [reflexivity|apply Z.leb_gt in E; lia].
Qed.

Lemma resized_data new_size b :
  block_wf b -> 0 < new_size <= blk_capacity b ->
  length (blk_data (resized new_size b)) = length (blk_data b) /\
  take (Z.to_nat (Z.min (blk_size b) new_size)) (blk_data (resized new_size b))
  = take (Z.to_nat (Z.min (blk_size b) new_size)) (blk_data b) /\
  (forall i : nat, blk_size b <= Z.of_nat i < new_size ->
     blk_data (resized new_size b) !! i = Some 0).
Proof.
  intros [Hsz Hlen] Hn. unfold resized. simpl.
  destruct (blk_size b <? new_size) eqn:E.
  - apply Z.ltb_lt in E. unfold memset_at.
    rewrite Z.min_l by lia.
    split; [|split].
    + rewrite !length_app, length_take, length_replicate, length_drop. lia.
    + rewrite take_app_le by (rewrite length_take; lia).
      rewrite take_take. f_equal. lia.
    + intros i Hi.
      rewrite lookup_app_r by (rewrite length_take; lia).
      rewrite length_take.
      rewrite lookup_app_l by (rewrite length_replicate; lia).
      apply lookup_replicate_2. lia.
  - apply Z.ltb_ge in E. split; [reflexivity|]. split; [reflexivity|].
    intros i Hi. lia.
Qed.

Lemma ether_realloc_moves chunk ptr new_size st b :
  ptr <> NULL -> live (heap st) (get_header ptr) ->
  heap st !! get_header ptr = Some b -> block_wf b ->
  blk_capacity b < new_size ->
  0 < chunk -> chunk <> get_header ptr ->
  ether_realloc chunk ptr new_size st =
  (get_user_ptr chunk,
   sys_free (get_header ptr)
     (set_stats (freed_stats (blk_size b)
                   (allocated_stats new_size (g_stats st)))
        (set_heap (<[get_header ptr := wiped b]>
                     (<[chunk := moved_block new_size (blk_size b)
                                   (blk_data b)]> (heap st))) st))).
Proof.
  intros Hp Hl Hb [Hsz Hlen] Hc Hch Hne.
  pose proof (live_tagged _ _ _ Hl Hb) as Ht.
  unfold ether_realloc.
  assert (Hn : new_size <> 0) by lia.
  assert (Hp' := Hp). assert (Hn' := Hn).
  apply Z.eqb_neq in Hp', Hn'. unfold live in Hl. rewrite Hp', Hn', Hl, Hb.
  simpl negb. cbv iota.
  destruct (new_size <=? blk_capacity b) eqn:E; [apply Z.leb_le in E; lia|].
  rewrite ether_alloc_ok by (unfold NULL; lia).
  assert (Hu : (get_user_ptr chunk =? NULL) = false).
  { apply Z.eqb_neq. unfold get_user_ptr, HEADER_SIZE, NULL. lia. }
  rewrite Hu, get_header_user_ptr. simpl heap.
  rewrite lookup_insert_eq, lookup_insert_ne, Hb by exact Hne.
  assert (Hlt : (blk_size b <? new_size) = true) by (apply Z.ltb_lt; lia).
  rewrite Hlt. f_equal.
  rewrite insert_insert_eq.
  assert (Hd : with_data (memcpy (blk_data (fresh_block new_size))
                                 (blk_data b) (blk_size b))
                         (fresh_block new_size)
               = moved_block new_size (blk_size b) (blk_data b)).
  { unfold with_data, moved_block, memcpy, fresh_block. simpl. f_equal.
    f_equal. rewrite drop_replicate. f_equal. lia. }
  rewrite Hd.
  erewrite ether_free_live; [reflexivity|exact Hp| |].
  - unfold live. simpl. rewrite is_valid_block_insert_other by exact Hne.
    exact Hl.
  - simpl. rewrite lookup_insert_ne by exact Hne. exact Hb.
Qed.

Lemma ether_realloc_fails ptr new_size st b :
  ptr <> NULL -> live (heap st) (get_header ptr) ->
  heap st !! get_header ptr = Some b ->
  0 <= blk_capacity b < new_size ->
  ether_realloc NULL ptr new_size st = (NULL, st).
Proof.
  intros Hp Hl Hb Hc. unfold ether_realloc, live in *.
  assert (Hn : new_size <> 0) by lia.
  apply Z.eqb_neq in Hp, Hn. rewrite Hp, Hn, Hl, Hb. simpl negb. cbv iota.
  destruct (new_size <=? blk_capacity b) eqn:E; [apply Z.leb_le in E; lia|].
  rewrite ether_alloc_null. reflexivity.
Qed.

(** C7. Resize. With no region it is [ether_alloc]; to size 0 it is
    [ether_free] and yields no region; and for a live region: within the
    capacity the same region is kept, its size updated and the newly
    exposed bytes zeroed; beyond the capacity (for a size that leaves room
    for the header) a new region is allocated, [min(old_size, new_size)]
    bytes are copied into it and the old region is released; and when that
    allocation fails nothing changes. *)
Theorem resize_behaviour (chunk ptr new_size : Z) (st : state) :
  (* resize(none, n) *)
  ether_realloc chunk NULL new_size st = ether_alloc chunk new_size st /\
  (* resize(region, 0) *)
  (ptr <> NULL -> ether_realloc chunk ptr 0 st = (NULL, ether_free ptr st)) /\
  (* resize of a live region *)
  (forall b,
     ptr <> NULL ->
     live (heap st) (get_header ptr) ->
     heap st !! get_header ptr = Some b ->
     block_wf b ->
     (* in place *)
     (0 < new_size <= blk_capacity b ->
      exists b',
        ether_realloc chunk ptr new_size st =
          (ptr, set_heap (<[get_header ptr := b']> (heap st)) st) /\
        blk_size b' = new_size /\
        blk_capacity b' = blk_capacity b /\
        blk_magic b' = blk_magic b /\ blk_flags b' = blk_flags b /\
        length (blk_data b') = length (blk_data b) /\
        take (Z.to_nat (Z.min (blk_size b) new_size)) (blk_data b')
        = take (Z.to_nat (Z.min (blk_size b) new_size)) (blk_data b) /\
        (forall i : nat, blk_size b <= Z.of_nat i < new_size ->
           blk_data b' !! i = Some 0)) /\
     (* moved *)
     (blk_capacity b < new_size -> alloc_fits new_size ->
      0 < chunk -> chunk <> get_header ptr ->
      exists st',
        ether_realloc chunk ptr new_size st = (get_user_ptr chunk, st') /\
        heap st' !! chunk =
          Some {| blk_magic := BLOCK_MAGIC; blk_flags := FLAG_ALLOCATED;
                  blk_size := new_size; blk_capacity := new_size;
                  blk_data :=
                    take (Z.to_nat (Z.min (blk_size b) new_size)) (blk_data b)
                    ++ replicate
                         (Z.to_nat (new_size - Z.min (blk_size b) new_size)) 0
               |} /\
        (forall hdr, hdr <> chunk -> hdr <> get_header ptr ->
           heap st' !! hdr = heap st !! hdr) /\
        released st' = released st ++ [get_header ptr] /\
        g_stats st' = freed_stats (blk_size b)
                        (allocated_stats new_size (g_stats st))) /\
     (* allocation failure *)
     (blk_capacity b < new_size -> chunk = NULL ->
      ether_realloc chunk ptr new_size st = (NULL, st))).
Proof.
  split; [reflexivity|].
  split.
  { intros Hp. unfold ether_realloc. apply Z.eqb_neq in Hp. rewrite Hp.
    reflexivity. }
  intros b Hp Hl Hb Hwf.
  split.
  { intros Hn. exists (resized new_size b).
    split; [apply ether_realloc_in_place; auto; lia|].
    destruct (resized_data new_size b Hwf Hn) as (H1 & H2 & H3).
    repeat split; assumption. }
  split.
  { intros Hc _ Hch Hne. eexists. split.
    { apply ether_realloc_moves; eassumption. }
    destruct Hwf as [Hsz Hlen]. simpl.
    split.
    { rewrite lookup_insert_ne, lookup_insert_eq by congruence.
      unfold moved_block. rewrite Z.min_l by lia. reflexivity. }
    split; [|split; reflexivity].
    intros hdr H1 H2. rewrite !lookup_insert_ne by congruence. reflexivity. }
  intros Hc ->. destruct Hwf as [Hsz Hlen].
  eapply ether_realloc_fails; eauto. lia.
Qed.

Lemma sample_block_wf : block_wf sample_block.
Proof. split; [split|]; vm_compute; congruence. Qed.

Lemma resize_behaviour_witness :
  (* with no region, in the initial state: an allocation *)
  ether_realloc 1000 NULL 8 initial_state = ether_alloc 1000 8 initial_state /\
  (* to size 0: a release *)
  ether_realloc 2000 1024 0 sample_state
  = (NULL, ether_free 1024 sample_state) /\
  (* shrinking in place to 3 bytes *)
  (exists b',
     ether_realloc 2000 1024 3 sample_state =
       (1024, set_heap (<[get_header 1024 := b']> (heap sample_state))
                sample_state) /\
     blk_size b' = 3 /\ blk_capacity b' = 8) /\
  (* growing to 12 bytes moves the region to chunk 2000 *)
  (exists st',
     ether_realloc 2000 1024 12 sample_state = (2024, st') /\
     heap st' !! 2000 =
       Some {| blk_magic := BLOCK_MAGIC; blk_flags := FLAG_ALLOCATED;
               blk_size := 12; blk_capacity := 12;
               blk_data := [1; 2; 3; 4; 5; 6; 7; 8; 0; 0; 0; 0] |} /\
     released st' = [1000]) /\
  (* growing fails when malloc does *)
  ether_realloc NULL 1024 12 sample_state = (NULL, sample_state).
Proof.
  assert (Hp : 1024 <> NULL) by discriminate.
  assert (Hl : live (heap sample_state) (get_header 1024)) by reflexivity.
  assert (Hb : heap sample_state !! get_header 1024 = Some sample_block)
    by reflexivity.
  split; [|split; [|split; [|split]]].
  - apply (resize_behaviour 1000 1024 8 initial_state).
  - destruct (resize_behaviour 2000 1024 0 sample_state) as (_ & H0 & _).
    apply H0, Hp.
  - destruct (resize_behaviour 2000 1024 3 sample_state) as (_ & _ & H).
    destruct (H sample_block Hp Hl Hb sample_block_wf) as (Hin & _).
    destruct Hin as (b' & E & Hs & Hc & _);
      [split; vm_compute; congruence|].
    exists b'. auto.
  - destruct (resize_behaviour 2000 1024 12 sample_state) as (_ & _ & H).
    destruct (H sample_block Hp Hl Hb sample_block_wf) as (_ & Hmv & _).
    destruct Hmv as (st' & E & Hnew & _ & Hrel & _);
      [vm_compute; congruence..|].
    exists st'. auto.
  - destruct (resize_behaviour NULL 1024 12 sample_state) as (_ & _ & H).
    destruct (H sample_block Hp Hl Hb sample_block_wf) as (_ & _ & Hf).
    apply Hf; [vm_compute; congruence|reflexivity].
Defined.

(** ** Statistics *)

Lemma wrap64_small x : 0 <= x < 2 ^ 64 -> wrap64 x = x.
Proof. apply Z.mod_small. Qed.

Lemma wrap64_range x : 0 <= wrap64 x < 2 ^ 64.
Proof. apply Z.mod_pos_bound. reflexivity. Qed.

Lemma wrap64_add_sub a n m :
  wrap64 (wrap64 (a + n) - m) = wrap64 (a + (n - m)).
Proof.
  unfold wrap64. rewrite Zminus_mod_idemp_l. f_equal. lia.
Qed.

(** C9. An in-place resize touches no statistics counter; so allocating
    [n] bytes (a size that leaves room for the header), shrinking in place
    to [m < n] and releasing leaves [current_usage] exactly [n - m] above
    where it started (in [size_t] arithmetic, and over the integers when
    nothing wraps): the release subtracts the current size [m], not the [n]
    that was added. *)
Theorem in_place_resize_skips_stats
  (chunk0 ptr0 k : Z) (st0 : state) (b0 : block)
  (chunk chunk' n m : Z) (st : state) :
  (* any in-place resize *)
  ptr0 <> NULL ->
  live (heap st0) (get_header ptr0) ->
  heap st0 !! get_header ptr0 = Some b0 ->
  0 < k <= blk_capacity b0 ->
  (* the sequence allocate(n), resize to m, release *)
  0 < chunk ->
  0 < m < n ->
  alloc_fits n ->
  (fst (ether_realloc chunk0 ptr0 k st0) = ptr0 /\
   g_stats (snd (ether_realloc chunk0 ptr0 k st0)) = g_stats st0) /\
  (let '(p, st1) := ether_alloc chunk n st in
   let '(q, st2) := ether_realloc chunk' p m st1 in
   let st3 := ether_free q st2 in
   p <> NULL /\ q = p /\
   g_stats st2 = g_stats st1 /\
   current_usage (g_stats st3)
   = wrap64 (current_usage (g_stats st) + (n - m)) /\
   (0 <= current_usage (g_stats st) ->
    current_usage (g_stats st) + (n - m) < 2 ^ 64 ->
    current_usage (g_stats st3) = current_usage (g_stats st) + (n - m))).
Proof.
  intros Hp0 Hl0 Hb0 Hk Hc Hm _.
  split.
  { rewrite (ether_realloc_in_place chunk0 ptr0 k st0 b0) by (auto; lia).
    split; reflexivity. }
  rewrite ether_alloc_ok by (unfold NULL; lia).
  set (st1 := set_stats _ _).
  assert (Hp : get_user_ptr chunk <> NULL)
    by (unfold get_user_ptr, HEADER_SIZE, NULL; lia).
  assert (Hb : heap st1 !! get_header (get_user_ptr chunk)
               = Some (fresh_block n)).
  { rewrite get_header_user_ptr. apply lookup_insert_eq. }
  assert (Hl : live (heap st1) (get_header (get_user_ptr chunk))).
  { unfold live. rewrite get_header_user_ptr. simpl.
    rewrite is_valid_block_insert_same by (unfold NULL; lia). reflexivity. }
  rewrite (ether_realloc_in_place chunk' _ m st1 (fresh_block n) Hp Hl Hb)
    by (simpl; lia).
  set (st2 := set_heap _ st1).
  assert (Hb2 : heap st2 !! get_header (get_user_ptr chunk)
                = Some (resized m (fresh_block n))) by apply lookup_insert_eq.
  assert (Hl2 : live (heap st2) (get_header (get_user_ptr chunk))).
  { unfold live. simpl.
    rewrite is_valid_block_insert_same; [reflexivity|].
    rewrite get_header_user_ptr. unfold NULL; lia. }
  cbv zeta.
  rewrite (ether_free_live _ st2 _ Hp Hl2 Hb2).
  split; [exact Hp|]. split; [reflexivity|]. split; [reflexivity|].
  simpl. rewrite wrap64_add_sub. split; [reflexivity|].
  intros H0 H1. apply wrap64_small. lia.
Qed.

Lemma in_place_resize_skips_stats_witness :
  (fst (ether_realloc 2000 1024 3 sample_state) = 1024 /\
   g_stats (snd (ether_realloc 2000 1024 3 sample_state))
   = g_stats sample_state) /\
  (let '(p, st1) := ether_alloc 1000 100 initial_state in
   let '(q, st2) := ether_realloc 2000 p 40 st1 in
   let st3 := ether_free q st2 in
   p <> NULL /\ q = p /\
   g_stats st2 = g_stats st1 /\
   current_usage (g_stats st3)
   = wrap64 (current_usage (g_stats initial_state) + (100 - 40)) /\
   (0 <= current_usage (g_stats initial_state) ->
    current_usage (g_stats initial_state) + (100 - 40) < 2 ^ 64 ->
    current_usage (g_stats st3)
    = current_usage (g_stats initial_state) + (100 - 40))).
Proof.
  apply (in_place_resize_skips_stats 2000 1024 3 sample_state sample_block
           1000 2000 100 40 initial_state);
    try split; vm_compute; congruence.
Defined.

(** ** Live bytes *)

Lemma live_total_insert_fresh m hdr b :
  m !! hdr = None -> live_total (<[hdr := b]> m) = weight hdr b + live_total m.
Proof.
  intros H. unfold live_total.
  rewrite map_fold_insert_L; [reflexivity| |exact H].
  intros. lia.
Qed.

Lemma live_total_delete m hdr b :
  m !! hdr = Some b -> live_total m = weight hdr b + live_total (delete hdr m).
Proof.
  intros H. unfold live_total.
  rewrite (map_fold_delete_L _ _ hdr b m); [reflexivity| |exact H].
  intros. lia.
Qed.

Lemma live_total_insert m hdr b :
  live_total (<[hdr := b]> m) = live_total m - old_weight m hdr + weight hdr b.
Proof.
  unfold old_weight. destruct (m !! hdr) as [b0|] eqn:E.
  - rewrite (live_total_delete m hdr b0 E).
    rewrite <- (insert_delete_eq m).
    rewrite live_total_insert_fresh by apply lookup_delete_eq. lia.
  - rewrite live_total_insert_fresh by exact E. lia.
Qed.

Lemma live_total_nonneg m :
  (forall hdr b, m !! hdr = Some b -> 0 <= weight hdr b) ->
  0 <= live_total m.
Proof.
  induction m as [|k b m Hk IH] using map_ind; intros H.
  - unfold live_total. rewrite map_fold_empty. lia.
  - rewrite live_total_insert_fresh by exact Hk.
    assert (0 <= weight k b) by (apply H, lookup_insert_eq).
    assert (0 <= live_total m).
    { apply IH. intros h b' Hb'. apply H.
      rewrite lookup_insert_ne; [exact Hb'|congruence]. }
    lia.
Qed.

Lemma live_total_zero m :
  (forall hdr b, m !! hdr = Some b -> weight hdr b = 0) ->
  live_total m = 0.
Proof.
  induction m as [|k b m Hk IH] using map_ind; intros H.
  - unfold live_total. apply map_fold_empty.
  - rewrite live_total_insert_fresh by exact Hk.
    rewrite (H k b) by apply lookup_insert_eq.
    rewrite IH; [reflexivity|].
    intros h b' Hb'. apply H.
    rewrite lookup_insert_ne; [exact Hb'|congruence].
Qed.

Lemma weight_nonneg st used hdr b :
  accounted st used -> heap st !! hdr = Some b -> 0 <= weight hdr b.
Proof.
  intros A Hb. unfold weight.
  destruct (negb (hdr =? NULL) && tagged_live b) eqn:E; [|lia].
  apply andb_true_iff in E as [_ E].
  pose proof (acc_blocks _ _ A hdr b Hb E). lia.
Qed.

Lemma live_total_nonneg_acc st used :
  accounted st used -> 0 <= live_total (heap st).
Proof.
  intros A. apply live_total_nonneg. intros. eapply weight_nonneg; eauto.
Qed.

Lemma old_weight_nonneg st used hdr :
  accounted st used -> 0 <= old_weight (heap st) hdr.
Proof.
  intros A. unfold old_weight. destruct (heap st !! hdr) eqn:E; [|lia].
  eapply weight_nonneg; eauto.
Qed.

(** A live chunk's capacity is part of the total. *)
Lemma weight_le_total st used hdr b :
  accounted st used -> heap st !! hdr = Some b ->
  weight hdr b <= live_total (heap st).
Proof.
  intros A Hb. rewrite (live_total_delete _ hdr b Hb).
  assert (0 <= live_total (delete hdr (heap st))); [|lia].
  apply live_total_nonneg. intros h b' Hb'.
  apply lookup_delete_Some in Hb' as [_ Hb'].
  eapply weight_nonneg; eauto.
Qed.

Lemma weight_live m hdr b :
  live m hdr -> m !! hdr = Some b -> weight hdr b = blk_capacity b.
Proof.
  intros Hl Hb. unfold weight.
  rewrite (live_tagged _ _ _ Hl Hb).
  pose proof (live_nonnull _ _ Hl) as Hn. apply Z.eqb_neq in Hn.
  rewrite Hn. reflexivity.
Qed.

(** ** Each call keeps the books *)

Lemma accounted_weaken st used used' :
  accounted st used -> used <= used' -> accounted st used'.
Proof. intros [] H. constructor; auto. lia. Qed.

Lemma accounted_complain st used r :
  accounted st used -> accounted (complain r st) used.
Proof. intros []. constructor; auto. Qed.

Lemma accounted_nonneg st used :
  accounted st used ->
  0 <= current_usage (g_stats st) <= total_allocated (g_stats st).
Proof.
  intros A. pose proof (live_total_nonneg_acc _ _ A). destruct A. lia.
Qed.

(** Rewriting a chunk without changing its tag or capacity. *)
Lemma accounted_touch st used hdr b b' :
  accounted st used -> heap st !! hdr = Some b ->
  tagged_live b' = tagged_live b -> blk_capacity b' = blk_capacity b ->
  (tagged_live b = true -> 0 <= blk_size b' <= blk_capacity b) ->
  accounted (set_heap (<[hdr := b']> (heap st)) st) used.
Proof.
  intros A Hb Ht Hc Hs. destruct A. constructor; simpl; auto.
  - rewrite live_total_insert. unfold old_weight. rewrite Hb.
    unfold weight. rewrite Ht, Hc. lia.
  - intros h x Hx Htx. destruct (decide (hdr = h)) as [<-|Hne].
    + rewrite lookup_insert_eq in Hx. injection Hx as <-.
      rewrite Hc. apply Hs. congruence.
    + rewrite lookup_insert_ne in Hx by exact Hne. eauto.
Qed.

Lemma accounted_alloc st used chunk size :
  accounted st used -> 0 <= size -> used + size < 2 ^ 64 ->
  accounted (snd (ether_alloc chunk size st)) (used + size).
Proof.
  intros A Hs Hfit.
  destruct (Z.eq_dec size 0) as [->|Hn].
  { unfold ether_alloc. simpl. eapply accounted_weaken; eauto. lia. }
  destruct (Z.eq_dec chunk NULL) as [->|Hc].
  { rewrite ether_alloc_null. eapply accounted_weaken; eauto. simpl. lia. }
  rewrite ether_alloc_ok by assumption. simpl.
  pose proof (accounted_nonneg _ _ A) as Hnn.
  pose proof (old_weight_nonneg _ _ chunk A) as How.
  destruct A. 
  assert (E1 : wrap64 (total_allocated (g_stats st) + size)
               = total_allocated (g_stats st) + size)
    by (apply wrap64_small; lia).
  assert (E2 : wrap64 (current_usage (g_stats st) + size)
               = current_usage (g_stats st) + size)
    by (apply wrap64_small; lia).
  constructor; simpl; rewrite ?E1, ?E2; try lia.
  - rewrite live_total_insert.
    assert (weight chunk (fresh_block size) <= size).
    { unfold weight. destruct (_ && _); simpl; lia. }
    lia.
  - destruct (peak_usage (g_stats st) <? current_usage (g_stats st) + size)
      eqn:E; [lia|apply Z.ltb_ge in E; lia].
  - intros h x Hx Htx. destruct (decide (chunk = h)) as [<-|Hne].
    + rewrite lookup_insert_eq in Hx. injection Hx as <-. simpl. lia.
    + rewrite lookup_insert_ne in Hx by exact Hne. eauto.
Qed.

Lemma accounted_free st used ptr :
  accounted st used -> used < 2 ^ 64 -> accounted (ether_free ptr st) used.
Proof.
  intros A Hfit.
  destruct (Z.eq_dec ptr NULL) as [->|Hp]; [exact A|].
  destruct (is_valid_block (get_header ptr) (heap st)) eqn:Hl.
  2:{ rewrite ether_free_not_live by assumption.
      apply accounted_complain, A. }
  destruct (live_is_Some _ _ Hl) as [b Hb].
  rewrite (ether_free_live ptr st b Hp Hl Hb).
  pose proof (accounted_nonneg _ _ A) as Hnn.
  pose proof (weight_le_total _ _ _ _ A Hb) as Hw.
  rewrite (weight_live _ _ _ Hl Hb) in Hw.
  pose proof (acc_blocks _ _ A _ _ Hb (live_tagged _ _ _ Hl Hb)) as Hsz.
  destruct A.
  assert (E1 : wrap64 (total_freed (g_stats st) + blk_size b)
               = total_freed (g_stats st) + blk_size b)
    by (apply wrap64_small; lia).
  assert (E2 : wrap64 (current_usage (g_stats st) - blk_size b)
               = current_usage (g_stats st) - blk_size b)
    by (apply wrap64_small; lia).
  constructor; simpl; rewrite ?E1, ?E2; try lia.
  - rewrite live_total_insert. unfold old_weight. rewrite Hb.
    rewrite (weight_live _ _ _ Hl Hb).
    assert (weight (get_header ptr) (wiped b) = 0).
    { unfold weight, wiped. rewrite tagged_live_freed, andb_false_r.
      reflexivity. }
    lia.
  - intros h x Hx Htx. destruct (decide (get_header ptr = h)) as [<-|Hne].
    + rewrite lookup_insert_eq in Hx. injection Hx as <-. discriminate.
    + rewrite lookup_insert_ne in Hx by exact Hne. eauto.
Qed.

Lemma idle_total st : idle st -> live_total (heap st) = 0.
Proof.
  intros Hi. apply live_total_zero. intros hdr b Hb.
  specialize (Hi hdr). unfold is_valid_block in Hi. rewrite Hb in Hi.
  unfold weight, tagged_live. rewrite Hi. reflexivity.
Qed.

Lemma accounted_reset st used :
  accounted st used -> 0 <= used -> idle st ->
  accounted (ether_reset_stats st) used.
Proof.
  intros A Hu Hi. pose proof (idle_total _ Hi) as Hz.
  destruct A. constructor; simpl; auto; lia.
Qed.

Lemma set_heap_same st : set_heap (heap st) st = st.
Proof. destruct st; reflexivity. Qed.

Lemma accounted_realloc st used chunk ptr new_size :
  accounted st used -> 0 <= new_size -> used + new_size < 2 ^ 64 ->
  accounted (snd (ether_realloc chunk ptr new_size st)) (used + new_size).
Proof.
  intros A Hs Hfit.
  assert (Hu : used <= used + new_size) by lia.
  unfold ether_realloc.
  destruct (ptr =? NULL) eqn:Hp; [apply accounted_alloc; assumption|].
  destruct (new_size =? 0) eqn:Hn.
  { simpl. eapply accounted_weaken; [apply accounted_free; [eauto|lia]|lia]. }
  destruct (is_valid_block (get_header ptr) (heap st)) eqn:Hl; simpl negb;
    cbv iota.
  2:{ simpl. eapply accounted_weaken; [apply accounted_complain|]; eauto. }
  destruct (heap st !! get_header ptr) as [ob|] eqn:Hb.
  2:{ simpl. eapply accounted_weaken; eauto. }
  destruct (new_size <=? blk_capacity ob) eqn:Hc.
  { simpl. apply Z.leb_le in Hc. apply Z.eqb_neq in Hn.
    eapply accounted_weaken; [|exact Hu].
    eapply accounted_touch; eauto; simpl; intros; lia. }
  pose proof (accounted_alloc st used chunk new_size A Hs Hfit) as A1.
  destruct (ether_alloc chunk new_size st) as [new_ptr st1]. simpl in A1.
  destruct (new_ptr =? NULL); [exact A1|]. simpl.
  apply accounted_free; [|exact Hfit].
  destruct (heap st1 !! get_header new_ptr) as [nb|] eqn:Hnb.
  2:{ rewrite set_heap_same. exact A1. }
  destruct (heap st1 !! get_header ptr) as [src|] eqn:Hsrc.
  2:{ rewrite set_heap_same. exact A1. }
  eapply accounted_touch; eauto.
  intros Ht. apply (acc_blocks _ _ A1 _ _ Hnb Ht).
Qed.

Lemma accounted_initial : accounted initial_state 0.
Proof.
  constructor; simpl; try lia.
  - unfold live_total. rewrite map_fold_empty. lia.
  - intros hdr b H. rewrite lookup_empty in H. discriminate.
Qed.

Lemma accounted_run cs :
  forall st used,
    accounted st used -> 0 <= used ->
    sizes_in_range cs -> used + total_requested cs < 2 ^ 64 ->
    resets_when_idle cs st ->
    accounted (run cs st) (used + total_requested cs).
Proof.
  induction cs as [|c cs IH]; intros st used A Hu Hr Hfit Hi; simpl.
  - replace (used + 0) with used by lia. exact A.
  - apply Forall_cons in Hr as [Hc Hr]. simpl in Hfit, Hi.
    destruct Hi as [Hi1 Hi2].
    assert (Hq : 0 <= total_requested cs).
    { clear -Hr. induction Hr; simpl; lia. }
    replace (used + (requested c + total_requested cs))
      with ((used + requested c) + total_requested cs) by lia.
    apply IH; try assumption; try lia.
    destruct c as [chunk size|ptr|chunk ptr new_size|]; simpl in *.
    + apply accounted_alloc; [assumption|lia|lia].
    + replace (used + 0) with used by lia.
      apply accounted_free; [assumption|lia].
    + apply accounted_realloc; [assumption|lia|lia].
    + replace (used + 0) with used by lia.
      apply accounted_reset; auto.
Qed.

(** The balance computed in [size_t] survives every call, resets
    included. *)
Lemma balance_allocated size s :
  stats_balance_wrapped s -> stats_balance_wrapped (allocated_stats size s).
Proof.
  unfold stats_balance_wrapped, allocated_stats, wrap64.
  cbn [total_allocated total_freed current_usage]. intros <-.
  rewrite Zminus_mod_idemp_l, Zplus_mod_idemp_l. f_equal. lia.
Qed.

Lemma balance_freed size s :
  stats_balance_wrapped s -> stats_balance_wrapped (freed_stats size s).
Proof.
  unfold stats_balance_wrapped, freed_stats, wrap64.
  cbn [total_allocated total_freed current_usage]. intros <-.
  rewrite Zminus_mod_idemp_r, Zminus_mod_idemp_l. f_equal. lia.
Qed.

Lemma balance_alloc chunk size st :
  stats_balance_wrapped (g_stats st) ->
  stats_balance_wrapped (g_stats (snd (ether_alloc chunk size st))).
Proof.
  intros H. unfold ether_alloc.
  destruct (size =? 0); [exact H|]. destruct (chunk =? NULL); [exact H|].
  apply (balance_allocated size), H.
Qed.

Lemma balance_free ptr st :
  stats_balance_wrapped (g_stats st) ->
  stats_balance_wrapped (g_stats (ether_free ptr st)).
Proof.
  intros H. unfold ether_free.
  destruct (ptr =? NULL); [exact H|].
  destruct (is_valid_block _ _); [|exact H]. simpl.
  destruct (heap st !! get_header ptr) as [b|]; [|exact H].
  destruct (blk_magic b =? BLOCK_FREED); [exact H|].
  apply (balance_freed (blk_size b)), H.
Qed.

Lemma balance_perform c st :
  stats_balance_wrapped (g_stats st) ->
  stats_balance_wrapped (g_stats (perform c st)).
Proof.
  intros H. destruct c as [chunk size|ptr|chunk ptr new_size|]; simpl.
  - apply balance_alloc, H.
  - apply balance_free, H.
  - unfold ether_realloc.
    destruct (ptr =? NULL); [apply balance_alloc, H|].
    destruct (new_size =? 0); [apply balance_free, H|].
    destruct (is_valid_block _ _); [|exact H]. simpl.
    destruct (heap st !! get_header ptr) as [ob|]; [|exact H].
    destruct (new_size <=? blk_capacity ob); [exact H|].
    pose proof (balance_alloc chunk new_size st H) as H1.
    destruct (ether_alloc chunk new_size st) as [np st1]. simpl in H1.
    destruct (np =? NULL); [exact H1|]. simpl.
    apply balance_free. exact H1.
  - reflexivity.
Qed.

Lemma balance_run cs st :
  stats_balance_wrapped (g_stats st) ->
  stats_balance_wrapped (g_stats (run cs st)).
Proof.
  revert st. induction cs as [|c cs IH]; intros st H; simpl; [exact H|].
  apply IH, balance_perform, H.
Qed.

(** A heap can be checked for live chunks entry by entry. *)
Lemma idle_check st :
  map_Forall (fun _ b => tagged_live b = false) (heap st) -> idle st.
Proof.
  intros H hdr. unfold is_valid_block.
  destruct (heap st !! hdr) as [b|] eqn:E; [|apply andb_false_r].
  apply H in E. unfold tagged_live in E. rewrite E. apply andb_false_r.
Qed.

(** C1 (as amended). Starting from zeroed statistics, after any sequence
    of allocate, release, resize and reset calls in which statistics are
    reset only while no region is live and the sizes requested stay below
    [2^64] in total, [total_allocated - total_freed = current_usage] and
    [current_usage <= peak_usage]. *)
Theorem stats_invariant_holds (cs : list call) :
  sizes_in_range cs ->
  total_requested cs < 2 ^ 64 ->
  resets_when_idle cs initial_state ->
  stats_invariant (g_stats (run cs initial_state)).
Proof.
  intros Hr Hfit Hi.
  destruct (accounted_run cs initial_state 0 accounted_initial) as [];
    try assumption; try lia.
  split; assumption.
Qed.

Lemma stats_invariant_holds_witness :
  stats_invariant (g_stats (run sample_calls initial_state)).
Proof.
  apply (stats_invariant_holds sample_calls).
  - repeat constructor; vm_compute; congruence.
  - vm_compute; congruence.
  - simpl. repeat split; try discriminate.
    intros _. apply idle_check.
    apply (bool_decide_unpack _). vm_compute. reflexivity.
Defined.

(** C1 (as stated) fails: resetting the statistics while a region is live
    and then releasing that region drives [current_usage] below zero, that
    is to [2^64 - 100], above a [peak_usage] of 0. *)
Lemma stats_invariant_broken_by_reset :
  let s := g_stats (run [Allocate 1000 100; ResetStatistics; Release 1024]
                        initial_state) in
  total_allocated s = 0 /\ total_freed s = 100 /\
  current_usage s = 2 ^ 64 - 100 /\ peak_usage s = 0 /\
  ~ stats_invariant s.
Proof.
  repeat split; try (vm_compute; reflexivity).
  intros [_ H]. vm_compute in H. apply H. reflexivity.
Qed.

End AllocatorFacts.

(* ===================================================================== *)
(** * The handle table *)
(* ===================================================================== *)

Module TableFacts.
Import Machine Protocol Allocator Server.

(** ** The scan *)

Lemma find_slot_Some P tbl i j :
  find_slot P tbl i = Some j ->
  (i <= j)%nat /\ exists e, tbl !! (j - i)%nat = Some e /\ P e = true.
Proof.
  revert i. induction tbl as [|e tbl IH]; intros i H; simpl in H.
  - discriminate.
  - destruct (P e) eqn:E.
    + injection H as <-. split; [lia|]. exists e.
      rewrite Nat.sub_diag. auto.
    + apply IH in H as (Hle & e' & He' & HP). split; [lia|].
      exists e'. split; [|exact HP].
      replace (j - i)%nat with (S (j - S i)) by lia. exact He'.
Qed.

Lemma find_slot_None P tbl i :
  find_slot P tbl i = None <-> Forall (fun e => P e = false) tbl.
Proof.
  revert i. induction tbl as [|e tbl IH]; intros i; simpl.
  - split; [constructor|reflexivity].
  - destruct (P e) eqn:E.
    + split; [discriminate|]. intros H. apply Forall_cons in H as [H _].
      congruence.
    + rewrite IH. split; [intros H; constructor; assumption|].
      intros H. apply Forall_cons in H as [_ H]. exact H.
Qed.

Lemma exhausted_scan st :
  exhausted st <-> find_slot slot_free (g_handles st) 0 = None.
Proof.
  rewrite find_slot_None. unfold exhausted, slot_free.
  split; intros H; eapply Forall_impl; try exact H; simpl; intros e He.
  - apply Z.eqb_neq, He.
  - apply Z.eqb_neq, He.
Qed.

(** ** The counter *)

Lemma counted_initial : counted initial_server no_history 0.
Proof.
  constructor;
    unfold initial_server, no_history;
    cbn [g_next_handle returned removed g_handles].
  - lia.
  - constructor.
  - constructor.
  - apply Forall_replicate. cbn. congruence.
Qed.

Lemma wrap64_succ h : 0 <= h -> h + 1 < 2 ^ 64 -> wrap64 (h + 1) = h + 1.
Proof. intros. apply Z.mod_small. lia. Qed.

Lemma counted_perform c st hist n :
  counted st hist n -> 0 <= n < 2 ^ 64 - 2 ->
  counted (fst (table_perform c (st, hist)))
          (snd (table_perform c (st, hist))) (n + 1).
Proof.
  intros [Hn Hr Hm Ht] Hfit.
  destruct c as [ptr size|handle]; simpl.
  - unfold store_handle.
    destruct (find_slot slot_free (g_handles st) 0) as [i|] eqn:E; simpl.
    + rewrite wrap64_succ by lia.
      constructor; simpl; try lia.
      * constructor; [lia|]. eapply Forall_impl; [exact Hr|].
        simpl. intros; lia.
      * eapply Forall_impl; [exact Hm|]. simpl. intros; lia.
      * apply Forall_insert; [|simpl; lia].
        eapply Forall_impl; [exact Ht|]. simpl. intros e He Hu.
        specialize (He Hu). lia.
    + constructor; simpl; try lia; try assumption.
      constructor; [lia|assumption].
  - unfold remove_handle.
    destruct (find_slot (slot_holds handle) (g_handles st) 0) as [i|] eqn:E;
      simpl.
    + apply find_slot_Some in E as (_ & e & He & HP).
      rewrite Nat.sub_0_r in He. rewrite He. simpl.
      unfold slot_holds in HP. apply andb_true_iff in HP as [Hu Hh].
      apply negb_true_iff, Z.eqb_neq in Hu. apply Z.eqb_eq in Hh.
      assert (Hlt : handle < g_next_handle st).
      { rewrite Forall_forall in Ht. rewrite <- Hh. apply Ht; [|exact Hu].
        eapply list_elem_of_lookup_2, He. }
      constructor; simpl; try lia; try assumption.
      * constructor; assumption.
      * apply Forall_insert; [assumption|]. simpl. congruence.
    + constructor; simpl; try lia; assumption.
Qed.

Lemma counted_run cs :
  forall st hist n,
    counted st hist n -> 0 <= n ->
    n + Z.of_nat (length cs) < 2 ^ 64 - 1 ->
    counted (fst (table_run cs (st, hist))) (snd (table_run cs (st, hist)))
            (n + Z.of_nat (length cs)).
Proof.
  induction cs as [|c cs IH]; intros st hist n C Hn Hfit.
  - cbn [table_run fst snd length].
    replace (n + Z.of_nat 0) with n by lia. exact C.
  - cbn [table_run length] in *.
    pose proof (counted_perform c st hist n C) as C1.
    destruct (table_perform c (st, hist)) as [st1 hist1]. simpl in C1.
    replace (n + Z.of_nat (S (length cs)))
      with ((n + 1) + Z.of_nat (length cs)) by lia.
    apply IH; [apply C1; lia|lia|lia].
Qed.

(** C8. Handles only go up. After any run of store and remove calls on the
    initial table (fewer than [2^64 - 1] of them, so that the 64-bit counter
    has not wrapped), the next [store_handle] either finds the table
    exhausted and returns 0, leaving everything as it was, or returns a
    non-zero handle strictly greater than every value returned before and
    different from every handle that was removed. *)
Theorem store_handle_monotonic (cs : list table_call) (ptr size : Z) :
  Z.of_nat (length cs) < 2 ^ 64 - 1 ->
  let '(st, hist) := table_run cs (initial_server, no_history) in
  let '(h, st') := store_handle ptr size st in
  (exhausted st -> h = 0 /\ st' = st) /\
  (~ exhausted st ->
   h <> 0 /\
   h = g_next_handle st /\
   Forall (fun h' => h' < h) (returned hist) /\
   Forall (fun r => r <> h) (removed hist)).
Proof.
  intros Hfit.
  pose proof (counted_run cs initial_server no_history 0
                counted_initial) as C.
  destruct (table_run cs (initial_server, no_history)) as [st hist].
  simpl in C. specialize (C ltac:(lia) ltac:(lia)).
  destruct C as [Hn Hr Hm Ht].
  unfold store_handle.
  destruct (find_slot slot_free (g_handles st) 0) as [i|] eqn:E.
  - split.
    + intros Hx. apply exhausted_scan in Hx. congruence.
    + intros _. cbv iota beta; cbn [g_next_handle].
      split; [lia|]. split; [reflexivity|].
      split.
      * eapply Forall_impl; [exact Hr|]. simpl. intros; lia.
      * eapply Forall_impl; [exact Hm|]. simpl. intros; lia.
  - split; [auto|]. intros Hx. exfalso. apply Hx, exhausted_scan, E.
Qed.

Lemma store_handle_monotonic_witness :
  let '(st, hist) :=
    table_run sample_table_calls (initial_server, no_history) in
  let '(h, st') := store_handle 8192 7 st in
  (exhausted st -> h = 0 /\ st' = st) /\
  (~ exhausted st ->
   h <> 0 /\
   h = g_next_handle st /\
   Forall (fun h' => h' < h) (returned hist) /\
   Forall (fun r => r <> h) (removed hist)).
Proof.
  apply (store_handle_monotonic sample_table_calls 8192 7).
  vm_compute. reflexivity.
Defined.

(** Filling the 1024 slots: the next store finds no room and returns 0. *)
Example table_fills_up :
  let full := fst (table_run (replicate 1024 (Store 4096 1))
                     (initial_server, no_history)) in
  lookup_handle 1024 full = Some (4096, 1) /\
  store_handle 8192 7 full = (0, full).
Proof. vm_compute. split; reflexivity. Qed.

Example sample_table_handle :
  fst (store_handle 8192 7
         (fst (table_run sample_table_calls
                 (initial_server, no_history)))) = 4.
Proof. vm_compute. reflexivity. Qed.

End TableFacts.

(* ===================================================================== *)
(** * The request handlers *)
(* ===================================================================== *)

Module DispatcherFacts.
Import Machine Protocol Allocator Server AllocatorFacts TableFacts.

Lemma send_error o handle :
  calloc_msg o = true ->
  send_response o ETHER_CMD_ERROR handle None 0 = error_response handle.
Proof.
  intros H. unfold send_response, ether_msg_create. rewrite H.
  change (ETHER_MAX_PAYLOAD <? 0) with false.
  cbn [negb header payload msg_magic msg_version msg_command msg_flags
       msg_size msg_reserved].
  change (0 <? 0) with false. rewrite app_nil_r. reflexivity.
Qed.

Lemma send_ok_data o handle data len :
  calloc_msg o = true ->
  0 <= len <= ETHER_MAX_PAYLOAD ->
  (Z.to_nat len <= length data)%nat ->
  send_response o ETHER_CMD_OK handle (Some data) len
  = ok_response handle (take (Z.to_nat len) data).
Proof.
  intros H Hlen Hd. unfold send_response, ether_msg_create. rewrite H.
  destruct (ETHER_MAX_PAYLOAD <? len) eqn:E; [apply Z.ltb_lt in E; lia|].
  cbn [negb header payload msg_magic msg_version msg_command msg_flags
       msg_size msg_reserved].
  unfold ok_response. rewrite length_take, Nat.min_l by exact Hd.
  rewrite Z2Nat.id by lia.
  assert (Hw : wrap32 len = len).
  { apply Z.mod_small. unfold ETHER_MAX_PAYLOAD in Hlen. lia. }
  rewrite Hw. change (wrap8 ETHER_CMD_OK) with ETHER_CMD_OK. f_equal.
  destruct (0 <? len) eqn:E0.
  - apply take_memcpy. exact Hd.
  - apply Z.ltb_ge in E0. replace len with 0 by lia. reflexivity.
Qed.

Lemma validate_size h :
  ether_msg_validate h = true -> msg_size h <= ETHER_MAX_PAYLOAD.
Proof.
  unfold ether_msg_validate. intros H.
  destruct (negb (msg_magic h =? ETHER_MAGIC)); [discriminate|].
  destruct (negb (msg_version h =? ETHER_PROTOCOL_VER)); [discriminate|].
  destruct (ETHER_MAX_PAYLOAD <? msg_size h) eqn:E; [discriminate|].
  apply Z.ltb_ge, E.
Qed.

(** ** Table and heap stay consistent *)

Lemma find_slot_lookup P tbl i :
  find_slot P tbl 0 = Some i ->
  exists e, tbl !! i = Some e /\ P e = true.
Proof.
  intros H. apply find_slot_Some in H as (_ & e & He & HP).
  rewrite Nat.sub_0_r in He. eauto.
Qed.

Lemma lookup_handle_entry handle st ptr sz :
  lookup_handle handle st = Some (ptr, sz) ->
  exists i e, find_slot (slot_holds handle) (g_handles st) 0 = Some i /\
              g_handles st !! i = Some e /\ he_in_use e <> 0 /\
              he_handle e = handle /\ he_ptr e = ptr /\ he_size e = sz.
Proof.
  unfold lookup_handle. intros H.
  destruct (find_slot _ _ _) as [i|] eqn:E; [|discriminate].
  destruct (find_slot_lookup _ _ _ E) as (e & He & HP).
  rewrite He in H. injection H as <- <-.
  unfold slot_holds in HP. apply andb_true_iff in HP as [Hu Hh].
  apply negb_true_iff, Z.eqb_neq in Hu. apply Z.eqb_eq in Hh.
  exists i, e. repeat split; auto.
Qed.

(** In a consistent state, a handle that is found is live. *)
Lemma consistent_lookup_live st handle ptr sz :
  consistent st -> lookup_handle handle st = Some (ptr, sz) ->
  exists b, live_handle handle st ptr b /\ blk_size b = sz.
Proof.
  intros C H.
  destruct (lookup_handle_entry _ _ _ _ H) as (i & e & _ & He & Hu & _ & <- & <-).
  destruct (cons_entries _ C i e He Hu) as (Hp & b & Hb & Hl & Hs & Hwf).
  exists b. split; [|exact Hs].
  unfold live_handle. rewrite Hs. auto.
Qed.

(** ** Entries and heap updates *)

Lemma entry_ok_insert_other m hdr b' e :
  entry_ok m e ->
  (he_in_use e <> 0 -> get_header (he_ptr e) <> hdr) ->
  entry_ok (<[hdr := b']> m) e.
Proof.
  intros H Hne Hu. destruct (H Hu) as (Hp & b & Hb & Hl & Hs & Hwf).
  specialize (Hne Hu). split; [exact Hp|]. exists b.
  rewrite lookup_insert_ne by congruence.
  rewrite is_valid_block_insert_other by congruence. auto.
Qed.

Lemma entry_ok_touch m hdr b b' e :
  entry_ok m e -> m !! hdr = Some b ->
  tagged_live b' = tagged_live b -> blk_size b' = blk_size b ->
  (block_wf b -> block_wf b') ->
  entry_ok (<[hdr := b']> m) e.
Proof.
  intros H Hb Ht Hs Hwf Hu. destruct (H Hu) as (Hp & b0 & Hb0 & Hl & Hs0 & Hwf0).
  split; [exact Hp|].
  destruct (decide (hdr = get_header (he_ptr e))) as [->|Hne].
  - exists b'. rewrite lookup_insert_eq.
    assert (b0 = b) by congruence. subst b0.
    rewrite is_valid_block_insert_same by (eapply live_nonnull, Hl).
    rewrite Ht. pose proof (live_tagged _ _ _ Hl Hb).
    repeat split; auto; try congruence; apply Hwf, Hwf0.
  - exists b0. rewrite lookup_insert_ne by exact Hne.
    rewrite is_valid_block_insert_other by exact Hne. auto.
Qed.

Lemma entry_ok_unused m e : he_in_use e = 0 -> entry_ok m e.
Proof. intros H Hu. contradiction. Qed.

(** An entry in use never points at a chunk that is not live. *)
Lemma entry_header_live m e hdr :
  entry_ok m e -> he_in_use e <> 0 -> is_valid_block hdr m = false ->
  get_header (he_ptr e) <> hdr.
Proof.
  intros H Hu Hn E. destruct (H Hu) as (_ & b & _ & Hl & _).
  rewrite E in Hl. congruence.
Qed.

(** ** The handlers keep table and heap consistent *)

Lemma consistent_same st st' :
  alloc st' = alloc st -> g_handles st' = g_handles st ->
  g_next_handle st' = g_next_handle st -> consistent st -> consistent st'.
Proof.
  intros Ha Hh Hn [C1 C2 C3]. constructor; rewrite ?Ha, ?Hh, ?Hn; assumption.
Qed.

Lemma fresh_block_wf size : 0 <= size -> block_wf (fresh_block size).
Proof.
  intros H. unfold block_wf, fresh_block. simpl.
  rewrite length_replicate. lia.
Qed.

Lemma consistent_handle_alloc o h st :
  consistent st ->
  (malloc_chunk o = NULL \/
   (0 < malloc_chunk o /\
    is_valid_block (malloc_chunk o) (heap (alloc st)) = false)) ->
  0 <= msg_size h -> g_next_handle st < 2 ^ 64 - 1 ->
  consistent (snd (handle_alloc o h st)).
Proof.
  intros C Hm Hs Hn. unfold handle_alloc.
  destruct (Z.eq_dec (msg_size h) 0) as [Hz|Hz].
  { unfold ether_alloc. rewrite Hz. simpl.
    apply (consistent_same st); [reflexivity..|exact C]. }
  destruct Hm as [Hm|[Hpos Hfree]].
  { rewrite Hm, ether_alloc_null. simpl.
    apply (consistent_same st); [reflexivity..|exact C]. }
  rewrite ether_alloc_ok by (unfold NULL; lia).
  set (chunk := malloc_chunk o) in *.
  assert (Hp : (get_user_ptr chunk =? NULL) = false).
  { apply Z.eqb_neq. unfold get_user_ptr, HEADER_SIZE, NULL. lia. }
  rewrite Hp.
  destruct C as [C1 C2 C3].
  unfold store_handle. cbn [g_handles g_next_handle alloc].
  destruct (find_slot slot_free (g_handles st) 0) as [i|] eqn:E.
  - assert (Hh : (g_next_handle st =? 0) = false) by (apply Z.eqb_neq; lia).
    rewrite Hh. cbn [snd].
    destruct (find_slot_lookup _ _ _ E) as (e0 & He0 & Hfree0).
    unfold slot_free in Hfree0. apply Z.eqb_eq in Hfree0.
    constructor; cbn [g_handles g_next_handle alloc heap set_stats set_heap].
    + rewrite wrap64_succ by lia. lia.
    + intros k e Hk. apply list_lookup_insert_Some in Hk
        as [(-> & <- & _)|(Hne & Hk)].
      * intros _. cbn [he_ptr he_size]. split.
        { unfold get_user_ptr, HEADER_SIZE, NULL. lia. }
        exists (fresh_block (msg_size h)).
        rewrite get_header_user_ptr, lookup_insert_eq.
        rewrite is_valid_block_insert_same by (unfold NULL; lia).
        split; [reflexivity|]. split; [reflexivity|].
        split; [reflexivity|]. apply fresh_block_wf, Hs.
      * apply entry_ok_insert_other; [eapply C2, Hk|].
        intros Hu. eapply entry_header_live; eauto.
    + intros k j ek ej Hk Hj Huk Huj Hpp.
      apply list_lookup_insert_Some in Hk as [(<- & <- & _)|(Hnk & Hk)];
      apply list_lookup_insert_Some in Hj as [(<- & <- & _)|(Hnj & Hj)];
        cbn [he_ptr] in Hpp; try congruence.
      * exfalso. eapply (entry_header_live _ ej chunk); eauto.
        rewrite <- Hpp. apply get_header_user_ptr.
      * exfalso. eapply (entry_header_live _ ek chunk); eauto.
        rewrite Hpp. apply get_header_user_ptr.
      * eapply C3; eauto.
  - change (0 =? 0) with true. cbn [snd alloc g_handles g_next_handle].
    erewrite ether_free_live.
    2:{ unfold get_user_ptr, HEADER_SIZE, NULL. lia. }
    2:{ unfold live. cbn [heap set_stats set_heap].
        rewrite get_header_user_ptr.
        rewrite is_valid_block_insert_same by (unfold NULL; lia).
        reflexivity. }
    2:{ cbn [heap set_stats set_heap]. rewrite get_header_user_ptr.
        apply lookup_insert_eq. }
    constructor; cbn [g_handles g_next_handle alloc heap set_stats set_heap
                      sys_free]; auto.
    intros k e Hk. rewrite get_header_user_ptr.
    apply entry_ok_insert_other; [apply entry_ok_insert_other|].
    + eapply C2, Hk.
    + intros Hu. eapply entry_header_live; eauto.
    + intros Hu. eapply entry_header_live; eauto.
Qed.

Lemma consistent_handle_free o h st :
  consistent st -> consistent (snd (handle_free o h st)).
Proof.
  intros C. unfold handle_free.
  destruct (lookup_handle (msg_handle h) st) as [[ptr sz]|] eqn:Hlk;
    [|exact C].
  destruct (ptr =? NULL) eqn:Hp; [exact C|]. apply Z.eqb_neq in Hp.
  destruct (lookup_handle_entry _ _ _ _ Hlk)
    as (i & e & Hfind & He & Hu & _ & Hptr & _).
  destruct (cons_entries _ C i e He Hu) as (_ & b & Hb & Hl & _ & _).
  rewrite Hptr in Hb, Hl.
  unfold remove_handle. cbn [g_handles]. rewrite Hfind, He. cbn [snd].
  rewrite (ether_free_live ptr (alloc st) b Hp Hl Hb).
  destruct C as [C1 C2 C3].
  constructor; cbn [g_handles g_next_handle alloc heap set_stats set_heap
                    sys_free]; [exact C1| |].
  - intros k ek Hk. apply list_lookup_insert_Some in Hk
      as [(<- & <- & _)|(Hne & Hk)].
    + apply entry_ok_unused. reflexivity.
    + apply entry_ok_insert_other; [eapply C2, Hk|].
      intros Huk Heq. apply Hne. apply (C3 i k e ek); auto.
      unfold get_header in Heq. lia.
  - intros k j ek ej Hk Hj Huk Huj Hpp.
    apply list_lookup_insert_Some in Hk as [(<- & <- & _)|(Hnk & Hk)];
      [cbn in Huk; congruence|].
    apply list_lookup_insert_Some in Hj as [(<- & <- & _)|(Hnj & Hj)];
      [cbn in Huj; congruence|].
    eapply C3; eauto.
Qed.

Lemma length_memcpy_fits dst src n :
  0 <= n <= Z.of_nat (length dst) -> n <= Z.of_nat (length src) ->
  length (memcpy dst src n) = length dst.
Proof.
  intros Hd Hs. unfold memcpy.
  rewrite length_app, length_take, length_drop. lia.
Qed.

Lemma consistent_handle_write o h payload st :
  consistent st ->
  0 <= msg_size h ->
  (forall bytes, payload = Some bytes ->
     Z.of_nat (length bytes) = msg_size h) ->
  consistent (snd (handle_write o h payload st)).
Proof.
  intros C Hs Hpay. unfold handle_write.
  destruct (lookup_handle (msg_handle h) st) as [[ptr sz]|] eqn:Hlk;
    [|exact C].
  destruct (ptr =? NULL) eqn:Hp; [exact C|]. apply Z.eqb_neq in Hp.
  destruct (sz <? msg_size h) eqn:Hov; [exact C|]. apply Z.ltb_ge in Hov.
  destruct payload as [bytes|]; [|exact C].
  destruct (consistent_lookup_live _ _ _ _ C Hlk)
    as (b & (_ & _ & Hb & Hl & Hwf) & Hsz).
  rewrite (ether_write_live ptr (alloc st) b Hp Hl Hb bytes (msg_size h))
    by lia.
  change (negb (ETHER_OK =? ETHER_OK)) with false. cbn [snd].
  destruct C as [C1 C2 C3].
  constructor; cbn [g_handles g_next_handle alloc heap set_heap];
    [exact C1| |exact C3].
  intros k ek Hk. eapply entry_ok_touch; [eapply C2, Hk|exact Hb| | |].
  - reflexivity.
  - reflexivity.
  - intros [Hrange Hlen]. split; [exact Hrange|]. cbn [blk_data with_data
      blk_capacity].
    rewrite length_memcpy_fits; [exact Hlen| |].
    + lia.
    + rewrite (Hpay bytes eq_refl). lia.
Qed.

Lemma consistent_handle_read o h st :
  consistent st -> consistent (snd (handle_read o h st)).
Proof.
  intros C. unfold handle_read.
  destruct (lookup_handle (msg_handle h) st) as [[ptr sz]|]; [|exact C].
  destruct (ptr =? NULL); [exact C|].
  destruct (malloc_scratch o); [|exact C].
  destruct (ether_read _ _ _ _) as [ret buffer'].
  destruct (negb (ret =? ETHER_OK)); exact C.
Qed.

Lemma deserialized_size_range buf :
  0 <= msg_size (ether_msg_deserialize_header buf).
Proof.
  unfold ether_msg_deserialize_header, load_be32, wrap32. cbn [msg_size].
  apply Z.mod_pos_bound. reflexivity.
Qed.

Lemma consistent_turn o header_buf incoming st :
  consistent st -> fair o header_buf incoming st ->
  consistent (after (handle_client_turn o header_buf incoming st)).
Proof.
  intros C (Hm & Hpay & Hn). unfold handle_client_turn.
  destruct header_buf as [buf|]; [|exact C].
  set (h := ether_msg_deserialize_header buf).
  pose proof (deserialized_size_range buf) as Hs. fold h in Hs.
  destruct (negb (ether_msg_validate h)); [exact C|].
  destruct (0 <? msg_size h) eqn:Hz.
  - destruct (negb (malloc_payload o)); [exact C|].
    destruct incoming as [bytes|]; [|exact C].
    specialize (Hpay buf bytes eq_refl eq_refl). fold h in Hpay.
    destruct (msg_command h =? ETHER_CMD_PING); [exact C|].
    destruct (msg_command h =? ETHER_CMD_ALLOC).
    { pose proof (consistent_handle_alloc o h st C Hm Hs Hn) as H.
      destruct (handle_alloc o h st). exact H. }
    destruct (msg_command h =? ETHER_CMD_FREE).
    { pose proof (consistent_handle_free o h st C) as H.
      destruct (handle_free o h st). exact H. }
    destruct (msg_command h =? ETHER_CMD_WRITE).
    { pose proof (consistent_handle_write o h (Some bytes) st C Hs) as H.
      destruct (handle_write o h (Some bytes) st). apply H.
      intros ? [= <-]. exact Hpay. }
    destruct (msg_command h =? ETHER_CMD_READ); [|exact C].
    pose proof (consistent_handle_read o h st C) as H.
    destruct (handle_read o h st). exact H.
  - destruct (msg_command h =? ETHER_CMD_PING); [exact C|].
    destruct (msg_command h =? ETHER_CMD_ALLOC).
    { pose proof (consistent_handle_alloc o h st C Hm Hs Hn) as H.
      destruct (handle_alloc o h st). exact H. }
    destruct (msg_command h =? ETHER_CMD_FREE).
    { pose proof (consistent_handle_free o h st C) as H.
      destruct (handle_free o h st). exact H. }
    destruct (msg_command h =? ETHER_CMD_WRITE).
    { pose proof (consistent_handle_write o h None st C Hs) as H.
      destruct (handle_write o h None st). apply H. discriminate. }
    destruct (msg_command h =? ETHER_CMD_READ); [|exact C].
    pose proof (consistent_handle_read o h st C) as H.
    destruct (handle_read o h st). exact H.
Qed.

Lemma consistent_initial : consistent initial_server.
Proof.
  constructor; unfold initial_server;
    cbn [g_next_handle g_handles alloc].
  - lia.
  - intros i e He. apply lookup_replicate in He as [-> _].
    apply entry_ok_unused. reflexivity.
  - intros i j ei ej Hi _ Hu. apply lookup_replicate in Hi as [-> _].
    cbn in Hu. congruence.
Qed.

(** Whatever the clients send, the table and the heap stay consistent. *)
Lemma reachable_consistent st : reachable st -> consistent st.
Proof.
  induction 1 as [|o header_buf incoming st _ IH Hf].
  - exact consistent_initial.
  - apply consistent_turn; assumption.
Qed.

(** In a reachable state of the daemon, every handle that is looked up
    successfully is a live handle. *)
Lemma reachable_lookup_live st handle ptr sz :
  reachable st -> lookup_handle handle st = Some (ptr, sz) ->
  exists b, live_handle handle st ptr b /\ blk_size b = sz.
Proof.
  intros R. apply consistent_lookup_live, reachable_consistent, R.
Qed.

(** ** READ and WRITE *)

(** C3. READ caps. A READ on a live handle asking for more bytes than the
    block size cached in the handle table is answered with OK and exactly
    the block's bytes, as many as the cached size says (given that the
    scratch buffer and the response message can be allocated); nothing
    changes in the server. By [reachable_lookup_live], every handle the
    table finds in a reachable state is live in the sense used here. *)
Theorem read_caps_to_block_size (o : oracle) (h : ether_msg_header_t)
  (st : server_state) (ptr : Z) (b : block) (scratch : list Z) :
  live_handle (msg_handle h) st ptr b ->
  blk_size b < msg_size h ->
  ether_msg_validate h = true ->
  malloc_scratch o = Some scratch ->
  calloc_msg o = true ->
  handle_read o h st =
    (ok_response (msg_handle h) (take (Z.to_nat (blk_size b)) (blk_data b)),
     st) /\
  Z.of_nat (length (take (Z.to_nat (blk_size b)) (blk_data b))) = blk_size b.
Proof.
  intros (Hlk & Hp & Hb & Hl & [Hsz Hlen]) Hbig Hv Hs Hc.
  pose proof (validate_size h Hv) as Hmax.
  assert (Hfit : (Z.to_nat (blk_size b) <= length (blk_data b))%nat) by lia.
  split.
  2:{ rewrite length_take, Nat.min_l by exact Hfit. lia. }
  unfold handle_read. rewrite Hlk.
  assert (Hp' := Hp). apply Z.eqb_neq in Hp'. rewrite Hp'.
  assert (Hcap : (blk_size b <? msg_size h) = true) by (apply Z.ltb_lt, Hbig).
  rewrite Hcap, Hs.
  rewrite (ether_read_live ptr (alloc st) b Hp Hl Hb scratch (blk_size b))
    by lia.
  change (negb (ETHER_OK =? ETHER_OK)) with false. cbv iota.
  rewrite send_ok_data; [|exact Hc|lia|].
  - rewrite take_memcpy by exact Hfit. reflexivity.
  - unfold memcpy. rewrite length_app, length_take. lia.
Qed.

(** C4. WRITE overflow. A WRITE whose size exceeds the block size cached
    for its handle leaves the whole server state as it was: no byte of the
    block is written and its size is what it was; the answer is ERROR. The
    allocator's own check does the same for a length beyond the block's
    size. *)
Theorem write_overflow_rejected (o : oracle) (h : ether_msg_header_t)
  (payload : option (list Z)) (st : server_state) (ptr block_size : Z) :
  lookup_handle (msg_handle h) st = Some (ptr, block_size) ->
  block_size < msg_size h ->
  snd (handle_write o h payload st) = st /\
  heap (alloc (snd (handle_write o h payload st))) = heap (alloc st) /\
  ether_size ptr (alloc (snd (handle_write o h payload st)))
  = ether_size ptr (alloc st) /\
  (calloc_msg o = true ->
   fst (handle_write o h payload st) = error_response (msg_handle h)) /\
  (forall p data len a,
     p <> NULL -> live (heap a) (get_header p) -> ether_size p a < len ->
     ether_write p (Some data) len a = (ETHER_ERR_OVERFLOW, a)).
Proof.
  intros Hlk Hbig.
  assert (E : handle_write o h payload st
              = (send_response o ETHER_CMD_ERROR (msg_handle h) None 0, st)).
  { unfold handle_write. rewrite Hlk.
    destruct (ptr =? NULL); [reflexivity|].
    apply Z.ltb_lt in Hbig. rewrite Hbig. reflexivity. }
  rewrite E. cbn [fst snd].
  split; [reflexivity|]. split; [reflexivity|]. split; [reflexivity|].
  split; [apply send_error|].
  intros p data len a Hp Hl Hlen.
  destruct (live_is_Some _ _ Hl) as [b Hb].
  rewrite (ether_size_live _ _ _ Hp Hl Hb) in Hlen.
  unfold ether_write, live in *. apply Z.eqb_neq in Hp.
  rewrite Hp, Hl, Hb. simpl.
  apply Z.ltb_lt in Hlen. rewrite Hlen. reflexivity.
Qed.

(** C10. Empty WRITE. A valid WRITE header with size 0 on a live handle is
    answered with ERROR: no payload is received, [handle_write] gets a null
    payload pointer, the size check passes (0 is within the block) and
    [ether_write] rejects the null pointer as invalid. The response
    message is assumed to be allocated. *)
Theorem empty_write_rejected (o : oracle) (buf : list Z)
  (incoming : option (list Z)) (st : server_state) (ptr : Z) (b : block) :
  let h := ether_msg_deserialize_header buf in
  ether_msg_validate h = true ->
  msg_command h = ETHER_CMD_WRITE ->
  msg_size h = 0 ->
  live_handle (msg_handle h) st ptr b ->
  calloc_msg o = true ->
  handle_client_turn o (Some buf) incoming st =
    {| goes_on := true; sent := error_response (msg_handle h);
       after := st |} /\
  handle_write o h None st = (error_response (msg_handle h), st) /\
  msg_size h <= blk_size b /\
  ether_write ptr None (msg_size h) (alloc st)
  = (ETHER_ERR_INVALID, alloc st).
Proof.
  intros h Hv Hcmd Hz (Hlk & Hp & Hb & Hl & [Hsz Hlen]) Hc.
  assert (Hw : handle_write o h None st = (error_response (msg_handle h), st)).
  { unfold handle_write. rewrite Hlk.
    assert (Hp' := Hp). apply Z.eqb_neq in Hp'. rewrite Hp'.
    destruct (blk_size b <? msg_size h) eqn:E;
      [apply Z.ltb_lt in E; lia|].
    cbn [ether_write].
    change (negb (ETHER_ERR_INVALID =? ETHER_OK)) with true. cbv iota.
    rewrite send_error by exact Hc. reflexivity. }
  split; [|split; [exact Hw|split; [lia|reflexivity]]].
  unfold handle_client_turn. fold h. rewrite Hv. cbn [negb].
  rewrite Hz. change (0 <? 0) with false. cbv iota.
  rewrite Hcmd.
  change (ETHER_CMD_WRITE =? ETHER_CMD_PING) with false.
  change (ETHER_CMD_WRITE =? ETHER_CMD_ALLOC) with false.
  change (ETHER_CMD_WRITE =? ETHER_CMD_FREE) with false.
  change (ETHER_CMD_WRITE =? ETHER_CMD_WRITE) with true. cbv iota.
  rewrite Hw. reflexivity.
Qed.

(** ** A session *)

Lemma sample_live_handle : live_handle 1 sample_server 1024 served_block.
Proof.
  split; [vm_compute; reflexivity|].
  split; [discriminate|].
  split; [vm_compute; reflexivity|].
  split; [vm_compute; reflexivity|].
  split; [split|]; vm_compute; congruence.
Qed.

Lemma read_caps_to_block_size_witness :
  handle_read sample_oracle (request ETHER_CMD_READ 1 100) sample_server =
    (ok_response 1 (take (Z.to_nat 10) (hello ++ [0; 0; 0; 0])),
     sample_server) /\
  Z.of_nat (length (take (Z.to_nat 10) (hello ++ [0; 0; 0; 0]))) = 10.
Proof.
  apply (read_caps_to_block_size sample_oracle (request ETHER_CMD_READ 1 100)
           sample_server 1024 served_block (replicate 10 0xAA)).
  - exact sample_live_handle.
  - vm_compute; reflexivity.
  - vm_compute; reflexivity.
  - reflexivity.
  - reflexivity.
Defined.

Lemma write_overflow_rejected_witness :
  let o := sample_oracle in
  let h := request ETHER_CMD_WRITE 1 100 in
  let payload := Some (replicate 100 88) in
  snd (handle_write o h payload sample_server) = sample_server /\
  heap (alloc (snd (handle_write o h payload sample_server)))
  = heap (alloc sample_server) /\
  ether_size 1024 (alloc (snd (handle_write o h payload sample_server)))
  = ether_size 1024 (alloc sample_server) /\
  (calloc_msg o = true ->
   fst (handle_write o h payload sample_server) = error_response 1) /\
  (forall p data len a,
     p <> NULL -> live (heap a) (get_header p) -> ether_size p a < len ->
     ether_write p (Some data) len a = (ETHER_ERR_OVERFLOW, a)).
Proof.
  intros o h payload.
  apply (write_overflow_rejected o h payload sample_server 1024 10).
  - vm_compute; reflexivity.
  - vm_compute; reflexivity.
Defined.

Lemma empty_write_rejected_witness :
  let h := ether_msg_deserialize_header empty_write_bytes in
  handle_client_turn sample_oracle (Some empty_write_bytes) None
    sample_server =
    {| goes_on := true; sent := error_response (msg_handle h);
       after := sample_server |} /\
  handle_write sample_oracle h None sample_server
  = (error_response (msg_handle h), sample_server) /\
  msg_size h <= blk_size served_block /\
  ether_write 1024 None (msg_size h) (alloc sample_server)
  = (ETHER_ERR_INVALID, alloc sample_server).
Proof.
  apply (empty_write_rejected sample_oracle empty_write_bytes None
           sample_server 1024 served_block).
  - vm_compute; reflexivity.
  - vm_compute; reflexivity.
  - vm_compute; reflexivity.
  - exact sample_live_handle.
  - reflexivity.
Defined.

(** Scenario A of the specification, as the server plays it. *)
Example scenario_read_back :
  fst (handle_read sample_oracle (request ETHER_CMD_READ 1 6) sample_server)
  = ok_response 1 hello.
Proof. vm_compute. reflexivity. Qed.

End DispatcherFacts.

(* ===================================================================== *)
(** * The allocator: safety of the region interface *)
(* ===================================================================== *)

Module AllocatorProps.
Import Machine Allocator AllocatorFacts.

(** ** Allocation *)

Lemma memcpy_from_zeros buf n k :
  0 <= n <= k -> 
  memcpy buf (replicate (Z.to_nat k) 0) n
  = replicate (Z.to_nat n) 0 ++ drop (Z.to_nat n) buf.
Proof.
  intros H. unfold memcpy. rewrite take_replicate. f_equal. f_equal. lia.
Qed.

(** X1. A successful [ether_alloc], for a size that leaves room for the
    header in [size_t], returns the pointer just behind the header of the
    chunk obtained, to a live region of exactly the size asked for whose
    bytes all read as zero, and touches no other chunk; asking for 0 bytes,
    or a failing [malloc], yields [NULL] and changes nothing. *)
Theorem alloc_gives_zeroed_region (chunk size : Z) (st : state) :
  0 < size -> alloc_fits size -> 0 < chunk ->
  let '(p, st') := ether_alloc chunk size st in
  p = get_user_ptr chunk /\ p <> NULL /\
  live (heap st') (get_header p) /\
  ether_size p st' = size /\
  (forall len buf,
     0 <= len <= size ->
     ether_read p (Some buf) len st'
     = (ETHER_OK, Some (replicate (Z.to_nat len) 0 ++ drop (Z.to_nat len) buf)))
  /\
  (forall hdr, hdr <> chunk -> heap st' !! hdr = heap st !! hdr) /\
  stderr st' = stderr st /\ released st' = released st /\
  ether_alloc chunk 0 st = (NULL, st) /\
  ether_alloc NULL size st = (NULL, st).
Proof.
  intros Hs _ Hc. rewrite ether_alloc_ok by (unfold NULL; lia).
  set (st' := set_stats _ _).
  assert (Hp : get_user_ptr chunk <> NULL)
    by (unfold get_user_ptr, HEADER_SIZE, NULL; lia).
  assert (Hb : heap st' !! get_header (get_user_ptr chunk)
               = Some (fresh_block size)).
  { rewrite get_header_user_ptr. apply lookup_insert_eq. }
  assert (Hl : live (heap st') (get_header (get_user_ptr chunk))).
  { unfold live. rewrite get_header_user_ptr. simpl.
    rewrite is_valid_block_insert_same by (unfold NULL; lia). reflexivity. }
  split; [reflexivity|]. split; [exact Hp|]. split; [exact Hl|].
  split; [apply (ether_size_live _ _ _ Hp Hl Hb)|].
  split.
  { intros len buf Hlen.
    rewrite (ether_read_live _ _ _ Hp Hl Hb) by (simpl; lia).
    simpl. rewrite memcpy_from_zeros by lia. reflexivity. }
  split.
  { intros hdr Hne. simpl. apply lookup_insert_ne. congruence. }
  split; [reflexivity|]. split; [reflexivity|].
  split; [reflexivity|apply ether_alloc_null].
Qed.

Lemma alloc_gives_zeroed_region_witness :
  let '(p, st') := ether_alloc 1000 8 initial_state in
  p = get_user_ptr 1000 /\ p <> NULL /\
  live (heap st') (get_header p) /\
  ether_size p st' = 8 /\
  (forall len buf,
     0 <= len <= 8 ->
     ether_read p (Some buf) len st'
     = (ETHER_OK, Some (replicate (Z.to_nat len) 0 ++ drop (Z.to_nat len) buf)))
  /\
  (forall hdr, hdr <> 1000 -> heap st' !! hdr = heap initial_state !! hdr) /\
  stderr st' = stderr initial_state /\ released st' = released initial_state /\
  ether_alloc 1000 0 initial_state = (NULL, initial_state) /\
  ether_alloc NULL 8 initial_state = (NULL, initial_state).
Proof.
  apply (alloc_gives_zeroed_region 1000 8 initial_state); reflexivity.
Defined.

(** X2. Allocating a region (of a size that leaves room for the header)
    and at once releasing it puts [current_usage] (a value of [size_t]) back
    where it was; both byte totals and both call counters have moved on by
    the same amounts, the high-water mark has not gone down, and the chunk
    has been handed to [free]. *)
Theorem alloc_then_free_restores_usage (chunk size : Z) (st : state) :
  0 < size -> alloc_fits size -> 0 < chunk ->
  0 <= current_usage (g_stats st) < 2 ^ 64 ->
  let '(p, st1) := ether_alloc chunk size st in
  let st2 := ether_free p st1 in
  current_usage (g_stats st2) = current_usage (g_stats st) /\
  total_allocated (g_stats st2)
  = wrap64 (total_allocated (g_stats st) + size) /\
  total_freed (g_stats st2) = wrap64 (total_freed (g_stats st) + size) /\
  num_allocs (g_stats st2) = wrap64 (num_allocs (g_stats st) + 1) /\
  num_frees (g_stats st2) = wrap64 (num_frees (g_stats st) + 1) /\
  peak_usage (g_stats st) <= peak_usage (g_stats st2) /\
  stderr st2 = stderr st /\
  released st2 = released st ++ [chunk].
Proof.
  intros Hs _ Hc Hcur. rewrite ether_alloc_ok by (unfold NULL; lia).
  set (st1 := set_stats _ _).
  assert (Hp : get_user_ptr chunk <> NULL)
    by (unfold get_user_ptr, HEADER_SIZE, NULL; lia).
  assert (Hb : heap st1 !! get_header (get_user_ptr chunk)
               = Some (fresh_block size)).
  { rewrite get_header_user_ptr. apply lookup_insert_eq. }
  assert (Hl : live (heap st1) (get_header (get_user_ptr chunk))).
  { unfold live. rewrite get_header_user_ptr. simpl.
    rewrite is_valid_block_insert_same by (unfold NULL; lia). reflexivity. }
  cbv zeta. rewrite (ether_free_live _ st1 _ Hp Hl Hb).
  cbn [g_stats sys_free set_stats set_heap freed_stats allocated_stats
       current_usage total_allocated total_freed num_allocs num_frees
       peak_usage released stderr heap st1 blk_size fresh_block].
  split.
  { unfold wrap64. rewrite Zminus_mod_idemp_l.
    replace (current_usage (g_stats st) + size - size)
      with (current_usage (g_stats st)) by lia.
    apply Z.mod_small, Hcur. }
  repeat split; try reflexivity.
  - destruct (peak_usage (g_stats st)
              <? wrap64 (current_usage (g_stats st) + size))
      eqn:E; [apply Z.ltb_lt in E; lia|lia].
  - rewrite get_header_user_ptr. reflexivity.
Qed.

Lemma alloc_then_free_restores_usage_witness :
  let '(p, st1) := ether_alloc 2000 32 sample_state in
  let st2 := ether_free p st1 in
  current_usage (g_stats st2) = current_usage (g_stats sample_state) /\
  total_allocated (g_stats st2)
  = wrap64 (total_allocated (g_stats sample_state) + 32) /\
  total_freed (g_stats st2)
  = wrap64 (total_freed (g_stats sample_state) + 32) /\
  num_allocs (g_stats st2) = wrap64 (num_allocs (g_stats sample_state) + 1) /\
  num_frees (g_stats st2) = wrap64 (num_frees (g_stats sample_state) + 1) /\
  peak_usage (g_stats sample_state) <= peak_usage (g_stats st2) /\
  stderr st2 = stderr sample_state /\
  released st2 = released sample_state ++ [2000].
Proof.
  apply (alloc_then_free_restores_usage 2000 32 sample_state);
    try split; vm_compute; congruence.
Defined.

(** ** A pointer without the allocated tag *)

Lemma wiped_not_live m hdr b :
  hdr <> NULL -> is_valid_block hdr (<[hdr := wiped b]> m) = false.
Proof.
  intros H. rewrite is_valid_block_insert_same by exact H. reflexivity.
Qed.

(** X3. A pointer without the allocated tag is refused. When the header
    in front of [ptr] is readable and does not carry [BLOCK_MAGIC] together
    with the allocated flag (the FREED tag of a release, for as long as it
    is still there, or anything else), [ether_size] answers 0, [ether_write]
    and [ether_read] answer [ETHER_ERR_CORRUPT] and touch neither the world
    nor the buffer, and [ether_realloc] to a non-zero size answers [NULL],
    reports an error and changes nothing else. *)
Theorem untagged_pointer_refused (ptr : Z) (st : state) (b : block) :
  ptr <> NULL ->
  heap st !! get_header ptr = Some b ->
  blk_magic b <> BLOCK_MAGIC \/ Z.land (blk_flags b) FLAG_ALLOCATED = 0 ->
  ether_size ptr st = 0 /\
  (forall data len,
     ether_write ptr (Some data) len st = (ETHER_ERR_CORRUPT, st)) /\
  (forall buf len,
     ether_read ptr (Some buf) len st = (ETHER_ERR_CORRUPT, Some buf)) /\
  (forall chunk n, n <> 0 ->
     ether_realloc chunk ptr n st
     = (NULL, complain (InvalidRealloc ptr) st)).
Proof.
  intros Hp Hb Htag.
  assert (Hdead : is_valid_block (get_header ptr) (heap st) = false).
  { unfold is_valid_block. rewrite Hb. apply andb_false_iff. right.
    apply andb_false_iff. destruct Htag as [Hm|Hf].
    - left. apply Z.eqb_neq, Hm.
    - right. rewrite Hf. reflexivity. }
  assert (Hp' := Hp). apply Z.eqb_neq in Hp'.
  split.
  { unfold ether_size. rewrite Hp', Hdead. reflexivity. }
  split.
  { intros data len. unfold ether_write. rewrite Hp', Hdead. reflexivity. }
  split.
  { intros buf len. unfold ether_read. rewrite Hp', Hdead. reflexivity. }
  intros chunk n Hn. unfold ether_realloc. apply Z.eqb_neq in Hn.
  rewrite Hp', Hn, Hdead. reflexivity.
Qed.

Lemma untagged_pointer_refused_witness :
  ether_size 1024 freed_state = 0 /\
  (forall data len,
     ether_write 1024 (Some data) len freed_state
     = (ETHER_ERR_CORRUPT, freed_state)) /\
  (forall buf len,
     ether_read 1024 (Some buf) len freed_state
     = (ETHER_ERR_CORRUPT, Some buf)) /\
  (forall chunk n, n <> 0 ->
     ether_realloc chunk 1024 n freed_state
     = (NULL, complain (InvalidRealloc 1024) freed_state)).
Proof.
  apply (untagged_pointer_refused 1024 freed_state
           {| blk_magic := BLOCK_FREED; blk_flags := 0; blk_size := 8;
              blk_capacity := 8; blk_data := replicate 8 0 |}).
  - discriminate.
  - reflexivity.
  - left. discriminate.
Defined.

(** ** The checks of write and read *)

(** X4. [ether_write] and [ether_read] succeed exactly when the region
    pointer and the buffer are not null, the region is live and [len] is
    within its size; in every other case they return [ETHER_ERR_INVALID],
    [ETHER_ERR_CORRUPT] or [ETHER_ERR_OVERFLOW] and leave the world, or the
    destination buffer, exactly as it was. *)
Theorem write_read_checks (ptr : Z) (data : option (list Z)) (len : Z)
  (st : state) :
  let ok := ptr <> NULL /\ data <> None /\
            live (heap st) (get_header ptr) /\ len <= ether_size ptr st in
  (fst (ether_write ptr data len st) = ETHER_OK <-> ok) /\
  (fst (ether_read ptr data len st) = ETHER_OK <-> ok) /\
  (fst (ether_write ptr data len st) <> ETHER_OK ->
   snd (ether_write ptr data len st) = st /\
   (fst (ether_write ptr data len st) = ETHER_ERR_INVALID \/
    fst (ether_write ptr data len st) = ETHER_ERR_CORRUPT \/
    fst (ether_write ptr data len st) = ETHER_ERR_OVERFLOW)) /\
  (fst (ether_read ptr data len st) <> ETHER_OK ->
   snd (ether_read ptr data len st) = data /\
   (fst (ether_read ptr data len st) = ETHER_ERR_INVALID \/
    fst (ether_read ptr data len st) = ETHER_ERR_CORRUPT \/
    fst (ether_read ptr data len st) = ETHER_ERR_OVERFLOW)).
Proof.
  intros ok. subst ok.
  unfold ether_write, ether_read, ether_size, live.
  destruct data as [src|].
  2:{ simpl. repeat split; try discriminate; try tauto; intros; try tauto.
      all: try (destruct H as (_ & H & _); congruence). }
  destruct (ptr =? NULL) eqn:Hp.
  { apply Z.eqb_eq in Hp. simpl.
    repeat split; try discriminate; intros; try tauto.
    all: try (destruct H as (H & _); congruence). }
  apply Z.eqb_neq in Hp.
  destruct (is_valid_block (get_header ptr) (heap st)) eqn:Hl; simpl.
  2:{ repeat split; try discriminate; intros; try tauto.
      all: try (destruct H as (_ & _ & H & _); congruence). }
  destruct (heap st !! get_header ptr) as [b|] eqn:Hb.
  2:{ apply is_valid_block_lookup in Hl as (_ & b & Hb' & _). congruence. }
  destruct (blk_size b <? len) eqn:Hlen; simpl.
  - apply Z.ltb_lt in Hlen.
    repeat split; try discriminate; intros; try tauto.
    all: try (destruct H as (_ & _ & _ & H); lia).
  - apply Z.ltb_ge in Hlen.
    repeat split; try discriminate; intros; try tauto; try lia;
      try congruence.
Qed.

Lemma ether_write_ok_inv ptr data len st st' :
  ether_write ptr (Some data) len st = (ETHER_OK, st') ->
  ptr <> NULL /\ live (heap st) (get_header ptr) /\
  exists b, heap st !! get_header ptr = Some b /\ len <= blk_size b /\
            st' = set_heap (<[get_header ptr :=
                                with_data (memcpy (blk_data b) data len) b]>
                              (heap st)) st.
Proof.
  unfold ether_write, live.
  destruct (ptr =? NULL) eqn:Hp; [discriminate|]. apply Z.eqb_neq in Hp.
  destruct (is_valid_block (get_header ptr) (heap st)) eqn:Hl;
    [|discriminate]. simpl.
  destruct (heap st !! get_header ptr) as [b|] eqn:Hb; [|discriminate].
  destruct (blk_size b <? len) eqn:Hlen; [discriminate|].
  apply Z.ltb_ge in Hlen. intros [= <-].
  split; [exact Hp|]. split; [reflexivity|]. exists b. auto.
Qed.

(** X5. A successful [ether_write] changes the first [len] bytes of the
    region and nothing else: the rest of the region, its size, capacity and
    tag, every other chunk, the statistics, the error stream and the list of
    released chunks stay as they were. *)
Theorem write_touches_only_prefix (ptr : Z) (data : list Z) (len : Z)
  (st st' : state) :
  ether_write ptr (Some data) len st = (ETHER_OK, st') ->
  0 <= len <= Z.of_nat (length data) ->
  g_stats st' = g_stats st /\ stderr st' = stderr st /\
  released st' = released st /\
  (forall hdr, hdr <> get_header ptr -> heap st' !! hdr = heap st !! hdr) /\
  ether_size ptr st' = ether_size ptr st /\
  exists b b',
    heap st !! get_header ptr = Some b /\
    heap st' !! get_header ptr = Some b' /\
    blk_magic b' = blk_magic b /\ blk_flags b' = blk_flags b /\
    blk_size b' = blk_size b /\ blk_capacity b' = blk_capacity b /\
    take (Z.to_nat len) (blk_data b') = take (Z.to_nat len) data /\
    drop (Z.to_nat len) (blk_data b') = drop (Z.to_nat len) (blk_data b).
Proof.
  intros Hw Hlen.
  destruct (ether_write_ok_inv _ _ _ _ _ Hw) as (Hp & Hl & b & Hb & Hsz & ->).
  pose proof (live_nonnull _ _ Hl) as Hh.
  pose proof (live_tagged _ _ _ Hl Hb) as Ht.
  cbn [g_stats stderr released heap set_heap].
  split; [reflexivity|]. split; [reflexivity|]. split; [reflexivity|].
  split; [intros hdr Hne; apply lookup_insert_ne; congruence|].
  split.
  { rewrite (ether_size_live ptr st b Hp Hl Hb).
    apply (ether_size_live ptr _ (with_data (memcpy (blk_data b) data len) b));
      [exact Hp| |apply lookup_insert_eq].
    unfold live. cbn [heap set_heap].
    rewrite is_valid_block_insert_same by exact Hh. exact Ht. }
  exists b, (with_data (memcpy (blk_data b) data len) b).
  split; [exact Hb|]. split; [apply lookup_insert_eq|].
  split; [reflexivity|]. split; [reflexivity|].
  split; [reflexivity|]. split; [reflexivity|].
  cbn [blk_data with_data]. split; [apply take_memcpy; lia|].
  unfold memcpy. rewrite drop_app_length'; [reflexivity|].
  rewrite length_take. lia.
Qed.

Lemma write_touches_only_prefix_witness :
  exists st',
    ether_write 1024 (Some [9; 9; 9]) 2 sample_state = (ETHER_OK, st') /\
    g_stats st' = g_stats sample_state /\
    heap st' !! get_header 1024
    = Some {| blk_magic := BLOCK_MAGIC; blk_flags := FLAG_ALLOCATED;
              blk_size := 8; blk_capacity := 8;
              blk_data := [9; 9; 3; 4; 5; 6; 7; 8] |}.
Proof.
  eexists. split; [reflexivity|].
  destruct (write_touches_only_prefix 1024 [9; 9; 9] 2 sample_state _
              eq_refl) as (Hs & _); [vm_compute; split; congruence|].
  split; [exact Hs|reflexivity].
Defined.

(** ** Resizing within the capacity *)

Lemma resized_live m hdr b n :
  hdr <> NULL -> tagged_live b = true ->
  live (<[hdr := resized n b]> m) hdr.
Proof.
  intros Hh Ht. unfold live.
  rewrite is_valid_block_insert_same by exact Hh. exact Ht.
Qed.

Lemma resized_wf n b :
  block_wf b -> 0 < n <= blk_capacity b -> block_wf (resized n b).
Proof.
  intros Hwf Hn. destruct (resized_data n b Hwf Hn) as (Hlen & _ & _).
  destruct Hwf as [Hs Hl]. split; [simpl; lia|].
  rewrite Hlen. exact Hl.
Qed.

(** X6. Bytes given up by a shrink do not come back. Shrinking a live region
    in place to [m] bytes and growing it again to [n] bytes within its
    capacity keeps the pointer, makes [n] the size, keeps the bytes below
    [min(size, m)] and leaves every byte from [m] up to [n] zero. *)
Theorem regrown_bytes_are_zero (chunk chunk' ptr m n : Z) (st : state)
  (b : block) :
  ptr <> NULL ->
  live (heap st) (get_header ptr) ->
  heap st !! get_header ptr = Some b ->
  block_wf b ->
  0 < m -> m <= n <= blk_capacity b ->
  let '(p1, st1) := ether_realloc chunk ptr m st in
  let '(p2, st2) := ether_realloc chunk' p1 n st1 in
  p1 = ptr /\ p2 = ptr /\
  ether_size ptr st2 = n /\
  g_stats st2 = g_stats st /\
  exists b2,
    heap st2 !! get_header ptr = Some b2 /\
    blk_capacity b2 = blk_capacity b /\
    take (Z.to_nat (Z.min (blk_size b) m)) (blk_data b2)
    = take (Z.to_nat (Z.min (blk_size b) m)) (blk_data b) /\
    (forall i : nat, m <= Z.of_nat i < n -> blk_data b2 !! i = Some 0).
Proof.
  intros Hp Hl Hb Hwf Hm Hn.
  pose proof (live_nonnull _ _ Hl) as Hh.
  pose proof (live_tagged _ _ _ Hl Hb) as Ht.
  rewrite (ether_realloc_in_place chunk ptr m st b Hp Hl Hb) by lia.
  set (st1 := set_heap _ st).
  assert (Hb1 : heap st1 !! get_header ptr = Some (resized m b))
    by apply lookup_insert_eq.
  assert (Hl1 : live (heap st1) (get_header ptr))
    by (apply resized_live; assumption).
  assert (Hwf1 : block_wf (resized m b))
    by (apply resized_wf; [assumption|lia]).
  rewrite (ether_realloc_in_place chunk' ptr n st1 (resized m b) Hp Hl1 Hb1)
    by (simpl; lia).
  set (st2 := set_heap _ st1).
  assert (Hb2 : heap st2 !! get_header ptr = Some (resized n (resized m b)))
    by apply lookup_insert_eq.
  assert (Hl2 : live (heap st2) (get_header ptr))
    by (apply resized_live; assumption).
  split; [reflexivity|]. split; [reflexivity|].
  split; [apply (ether_size_live ptr st2 _ Hp Hl2 Hb2)|].
  split; [reflexivity|].
  exists (resized n (resized m b)). split; [exact Hb2|].
  split; [reflexivity|].
  destruct (resized_data m b Hwf) as (Hlen1 & Hkeep1 & Hzero1); [lia|].
  destruct (resized_data n (resized m b) Hwf1) as (Hlen2 & Hkeep2 & Hzero2);
    [simpl; lia|].
  cbn [blk_size resized with_data with_size] in Hkeep2, Hzero2.
  rewrite Z.min_l in Hkeep2 by lia.
  split.
  - rewrite <- Hkeep1.
    set (k := Z.to_nat (Z.min (blk_size b) m)).
    assert (Hk : k = (k `min` Z.to_nat m)%nat) by (subst k; lia).
    rewrite Hk, <- !take_take, Hkeep2. reflexivity.
  - intros i Hi. apply Hzero2. exact Hi.
Qed.

Lemma regrown_bytes_are_zero_witness :
  let '(p1, st1) := ether_realloc 2000 1024 3 sample_state in
  let '(p2, st2) := ether_realloc 3000 p1 8 st1 in
  p1 = 1024 /\ p2 = 1024 /\
  ether_size 1024 st2 = 8 /\
  g_stats st2 = g_stats sample_state /\
  exists b2,
    heap st2 !! get_header 1024 = Some b2 /\
    blk_capacity b2 = blk_capacity sample_block /\
    take (Z.to_nat (Z.min (blk_size sample_block) 3)) (blk_data b2)
    = take (Z.to_nat (Z.min (blk_size sample_block) 3))
           (blk_data sample_block) /\
    (forall i : nat, 3 <= Z.of_nat i < 8 -> blk_data b2 !! i = Some 0).
Proof.
  apply (regrown_bytes_are_zero 2000 3000 1024 3 8 sample_state sample_block).
  - discriminate.
  - reflexivity.
  - reflexivity.
  - exact sample_block_wf.
  - reflexivity.
  - split; vm_compute; congruence.
Defined.

Example regrown_sample :
  blk_data <$> (heap (snd (ether_realloc 3000 1024 8
                             (snd (ether_realloc 2000 1024 3 sample_state))))
                !! 1000)
  = Some [1; 2; 3; 0; 0; 0; 0; 0].
Proof. vm_compute. reflexivity. Qed.

(** ** Live chunks stay well formed *)

Lemma live_wf_insert m hdr b :
  live_wf m -> (tagged_live b = true -> block_wf b) ->
  live_wf (<[hdr := b]> m).
Proof.
  intros H Hb h x Hx Ht. destruct (decide (hdr = h)) as [<-|Hne].
  - rewrite lookup_insert_eq in Hx. injection Hx as <-. auto.
  - rewrite lookup_insert_ne in Hx by exact Hne. eauto.
Qed.

Lemma fresh_block_wf_size size : 0 <= size -> block_wf (fresh_block size).
Proof.
  intros H. split; [simpl; lia|]. simpl. rewrite length_replicate. lia.
Qed.

Lemma live_wf_alloc chunk size st :
  live_wf (heap st) -> 0 <= size ->
  live_wf (heap (snd (ether_alloc chunk size st))).
Proof.
  intros H Hs. unfold ether_alloc.
  destruct (size =? 0); [exact H|]. destruct (chunk =? NULL); [exact H|].
  simpl. apply live_wf_insert; [exact H|]. intros _.
  apply fresh_block_wf_size, Hs.
Qed.

Lemma live_wf_free ptr st :
  live_wf (heap st) -> live_wf (heap (ether_free ptr st)).
Proof.
  intros H. unfold ether_free.
  destruct (ptr =? NULL); [exact H|].
  destruct (is_valid_block _ _); [|exact H]. simpl.
  destruct (heap st !! get_header ptr) as [b|] eqn:Hb; [|exact H].
  destruct (blk_magic b =? BLOCK_FREED); [exact H|]. simpl.
  apply live_wf_insert; [exact H|]. discriminate.
Qed.

Lemma live_wf_write ptr data len st :
  live_wf (heap st) -> 0 <= len <= Z.of_nat (length data) ->
  live_wf (heap (snd (ether_write ptr (Some data) len st))).
Proof.
  intros H Hlen. unfold ether_write.
  destruct (ptr =? NULL); [exact H|].
  destruct (is_valid_block _ _) eqn:Hl; [|exact H]. simpl.
  destruct (heap st !! get_header ptr) as [b|] eqn:Hb; [|exact H].
  destruct (blk_size b <? len) eqn:E; [exact H|]. apply Z.ltb_ge in E.
  destruct (H _ _ Hb (live_tagged _ _ _ Hl Hb)) as [Hs Hlb]. simpl.
  apply live_wf_insert; [exact H|]. intros _.
  split; [exact Hs|]. simpl. unfold memcpy.
  rewrite length_app, length_take, length_drop. lia.
Qed.

Lemma live_wf_realloc chunk ptr new_size st :
  live_wf (heap st) -> 0 <= new_size ->
  live_wf (heap (snd (ether_realloc chunk ptr new_size st))).
Proof.
  intros H Hs. unfold ether_realloc.
  destruct (ptr =? NULL); [apply live_wf_alloc; assumption|].
  destruct (new_size =? 0) eqn:Hn; [apply live_wf_free, H|].
  apply Z.eqb_neq in Hn.
  destruct (is_valid_block _ _) eqn:Hl; [|exact H]. simpl negb. cbv iota.
  destruct (heap st !! get_header ptr) as [ob|] eqn:Hb; [|exact H].
  pose proof (H _ _ Hb (live_tagged _ _ _ Hl Hb)) as Hwf.
  destruct (new_size <=? blk_capacity ob) eqn:Hc.
  { apply Z.leb_le in Hc. simpl.
    apply live_wf_insert; [exact H|]. intros _.
    apply (resized_wf new_size ob Hwf). lia. }
  apply Z.leb_gt in Hc.
  unfold ether_alloc. apply Z.eqb_neq in Hn. rewrite Hn.
  destruct (chunk =? NULL) eqn:Hch; [exact H|].
  destruct (get_user_ptr chunk =? NULL).
  { simpl. apply live_wf_insert; [exact H|]. intros _.
    apply fresh_block_wf_size, Hs. }
  apply live_wf_free. cbn [heap set_heap set_stats].
  fold (fresh_block new_size).
  rewrite get_header_user_ptr, lookup_insert_eq.
  assert (Hfresh : live_wf (<[chunk := fresh_block new_size]> (heap st))).
  { apply live_wf_insert; [exact H|]. intros _.
    apply fresh_block_wf_size, Hs. }
  destruct (<[chunk := fresh_block new_size]> (heap st) !! get_header ptr)
    as [src|] eqn:Hsrc; [|exact Hfresh].
  apply live_wf_insert; [exact Hfresh|]. intros _.
  destruct Hwf as [Hsz Hlen].
  assert (Hcopy : (if blk_size ob <? new_size then blk_size ob else new_size)
                  = blk_size ob).
  { destruct (blk_size ob <? new_size) eqn:E; [reflexivity|].
    apply Z.ltb_ge in E. lia. }
  rewrite Hcopy.
  assert (Hsrclen : blk_size ob <= Z.of_nat (length (blk_data src))).
  { destruct (decide (chunk = get_header ptr)) as [->|Hne].
    - rewrite lookup_insert_eq in Hsrc. injection Hsrc as <-. simpl.
      rewrite length_replicate. lia.
    - rewrite lookup_insert_ne in Hsrc by exact Hne.
      assert (src = ob) by congruence. subst src. lia. }
  split; [simpl; lia|]. simpl. unfold memcpy.
  rewrite length_app, length_take, length_drop, length_replicate. lia.
Qed.

Lemma live_wf_act a st :
  live_wf (heap st) -> admissible a -> live_wf (heap (act a st)).
Proof.
  intros H Ha. destruct a as [[chunk size|ptr|chunk ptr n|]|ptr data len];
    simpl in *.
  - apply live_wf_alloc; [exact H|apply Ha].
  - apply live_wf_free, H.
  - apply live_wf_realloc; [exact H|apply Ha].
  - exact H.
  - apply live_wf_write; assumption.
Qed.

(** X7. Whatever sequence of allocate, release, resize, reset and write
    calls is made from the start (with sizes that are not negative and leave
    room for the header, and source buffers that hold the bytes to copy),
    every chunk that carries the allocated tag keeps [0 <= size <= capacity]
    and a data area of exactly [capacity] bytes. *)
Theorem live_chunks_stay_well_formed (acts : list action) :
  Forall admissible acts ->
  live_wf (heap (play acts initial_state)).
Proof.
  assert (G : forall st, live_wf (heap st) -> Forall admissible acts ->
                         live_wf (heap (play acts st))).
  { induction acts as [|a acts IH]; intros st H Ha; simpl; [exact H|].
    apply Forall_cons in Ha as [Ha Hrest].
    apply IH; [apply live_wf_act; assumption|exact Hrest]. }
  apply G. intros hdr b Hb. simpl in Hb. rewrite lookup_empty in Hb.
  discriminate.
Qed.

Lemma live_chunks_stay_well_formed_witness :
  live_wf (heap (play sample_actions initial_state)).
Proof.
  apply (live_chunks_stay_well_formed sample_actions).
  repeat constructor; vm_compute; congruence.
Defined.

(** ** Statistics over whole runs *)

Lemma write_keeps_stats ptr data len st :
  g_stats (snd (ether_write ptr data len st)) = g_stats st.
Proof.
  unfold ether_write. destruct data as [src|]; [|reflexivity].
  destruct (ptr =? NULL); [reflexivity|].
  destruct (is_valid_block _ _); [|reflexivity]. simpl.
  destruct (heap st !! get_header ptr) as [b|]; [|reflexivity].
  destruct (blk_size b <? len); reflexivity.
Qed.

Lemma balance_act a st :
  stats_balance_wrapped (g_stats st) ->
  stats_balance_wrapped (g_stats (act a st)).
Proof.
  intros H. destruct a as [c|ptr data len]; cbn [act].
  - apply balance_perform, H.
  - rewrite write_keeps_stats. exact H.
Qed.

(** X8. In [size_t] arithmetic the books always balance: after any sequence
    whatsoever of allocate, release, resize, reset and write calls from the
    start, [total_allocated - total_freed], computed modulo [2^64], equals
    [current_usage]. *)
Theorem wrapped_balance_always (acts : list action) :
  stats_balance_wrapped (g_stats (play acts initial_state)).
Proof.
  assert (G : forall st, stats_balance_wrapped (g_stats st) ->
                         stats_balance_wrapped (g_stats (play acts st))).
  { induction acts as [|a acts IH]; intros st H; simpl; [exact H|].
    apply IH, balance_act, H. }
  apply G. reflexivity.
Qed.

Lemma peak_alloc chunk size st :
  peak_usage (g_stats st)
  <= peak_usage (g_stats (snd (ether_alloc chunk size st))).
Proof.
  unfold ether_alloc. destruct (size =? 0); [simpl; lia|].
  destruct (chunk =? NULL); [simpl; lia|]. simpl.
  destruct (peak_usage (g_stats st)
            <? wrap64 (current_usage (g_stats st) + size))
    eqn:E; [apply Z.ltb_lt in E; lia|lia].
Qed.

Lemma peak_free ptr st :
  peak_usage (g_stats (ether_free ptr st)) = peak_usage (g_stats st).
Proof.
  unfold ether_free. destruct (ptr =? NULL); [reflexivity|].
  destruct (is_valid_block _ _); [|reflexivity]. simpl.
  destruct (heap st !! get_header ptr) as [b|]; [|reflexivity].
  destruct (blk_magic b =? BLOCK_FREED); reflexivity.
Qed.

Lemma peak_realloc chunk ptr n st :
  peak_usage (g_stats st)
  <= peak_usage (g_stats (snd (ether_realloc chunk ptr n st))).
Proof.
  unfold ether_realloc.
  destruct (ptr =? NULL); [apply peak_alloc|].
  destruct (n =? 0); [simpl; rewrite peak_free; lia|].
  destruct (is_valid_block _ _); [|simpl; lia]. simpl negb. cbv iota.
  destruct (heap st !! get_header ptr) as [ob|]; [|simpl; lia].
  destruct (n <=? blk_capacity ob); [simpl; lia|].
  pose proof (peak_alloc chunk n st) as H.
  destruct (ether_alloc chunk n st) as [np st1]. simpl in H.
  destruct (np =? NULL); [exact H|]. simpl. rewrite peak_free. exact H.
Qed.

(** X9. The high-water mark only goes up: over any sequence of allocate,
    release, resize and write calls that contains no reset, [peak_usage]
    never decreases. *)
Theorem peak_never_decreases (acts : list action) (st : state) :
  Forall (fun a => a <> Do ResetStatistics) acts ->
  peak_usage (g_stats st) <= peak_usage (g_stats (play acts st)).
Proof.
  revert st. induction acts as [|a acts IH]; intros st H; simpl; [lia|].
  apply Forall_cons in H as [Ha H].
  apply Z.le_trans with (peak_usage (g_stats (act a st))); [|apply IH, H].
  destruct a as [[chunk size|ptr|chunk ptr n|]|ptr data len];
    cbn [act perform].
  - apply peak_alloc.
  - rewrite peak_free. lia.
  - apply peak_realloc.
  - congruence.
  - rewrite write_keeps_stats. lia.
Qed.

Lemma peak_never_decreases_witness :
  peak_usage (g_stats sample_state)
  <= peak_usage (g_stats (play [ Do (Allocate 3000 100); Do (Release 3024);
                                 Do (Release 1024) ] sample_state)).
Proof.
  apply (peak_never_decreases _ sample_state).
  repeat constructor; discriminate.
Defined.

End AllocatorProps.

(* ===================================================================== *)
(** * The codec: bytes, validation, message creation *)
(* ===================================================================== *)

Module ProtocolProps.
Import Machine Protocol BitFacts.

(** ** From bytes to a header and back *)

Lemma load_be32_range b0 b1 b2 b3 :
  is_byte b0 -> is_byte b1 -> is_byte b2 -> is_byte b3 ->
  0 <= load_be32 b0 b1 b2 b3 < 2 ^ 32.
Proof.
  intros. unfold load_be32, wrap32. apply Z.mod_pos_bound. reflexivity.
Qed.

Lemma store_load_be32 b0 b1 b2 b3 :
  is_byte b0 -> is_byte b1 -> is_byte b2 -> is_byte b3 ->
  store_be32 (load_be32 b0 b1 b2 b3) = [b0; b1; b2; b3].
Proof.
  unfold is_byte. intros H0 H1 H2 H3. unfold store_be32.
  rewrite !byte_mask, low_byte by lia.
  rewrite load_be32_sum by assumption.
  repeat f_equal; divmod.
Qed.

Lemma flags_bytes b6 b7 :
  is_byte b6 -> is_byte b7 ->
  let f := wrap16 (Z.lor (Z.shiftl b6 8) b7) in
  0 <= f < 2 ^ 16 /\
  Z.land (Z.shiftr f 8) 0xFF = b6 /\ Z.land f 0xFF = b7.
Proof.
  intros H6 H7. unfold is_byte in *. cbv zeta. unfold wrap16.
  rewrite Z.shiftl_mul_pow2 by lia.
  rewrite (lor_disjoint_add _ _ 8) by divmod.
  rewrite byte_mask, low_byte by lia.
  repeat split; divmod.
Qed.

Lemma handle_sum b0 b1 b2 b3 b4 b5 b6 b7 :
  is_byte b0 -> is_byte b1 -> is_byte b2 -> is_byte b3 ->
  is_byte b4 -> is_byte b5 -> is_byte b6 -> is_byte b7 ->
  Z.lor (Z.lor (Z.lor (Z.lor (Z.lor (Z.lor (Z.lor
    (wrap64 (Z.shiftl b0 56)) (wrap64 (Z.shiftl b1 48)))
    (wrap64 (Z.shiftl b2 40))) (wrap64 (Z.shiftl b3 32)))
    (wrap64 (Z.shiftl b4 24))) (wrap64 (Z.shiftl b5 16)))
    (wrap64 (Z.shiftl b6 8))) b7
  = b0 * 2 ^ 56 + b1 * 2 ^ 48 + b2 * 2 ^ 40 + b3 * 2 ^ 32
    + b4 * 2 ^ 24 + b5 * 2 ^ 16 + b6 * 2 ^ 8 + b7.
Proof.
  unfold is_byte. intros.
  rewrite !shifted_byte_fits by lia.
  rewrite (lor_disjoint_add (b0 * 2 ^ 56) (b1 * 2 ^ 48) 56) by divmod.
  rewrite (lor_disjoint_add _ (b2 * 2 ^ 40) 48) by divmod.
  rewrite (lor_disjoint_add _ (b3 * 2 ^ 32) 40) by divmod.
  rewrite (lor_disjoint_add _ (b4 * 2 ^ 24) 32) by divmod.
  rewrite (lor_disjoint_add _ (b5 * 2 ^ 16) 24) by divmod.
  rewrite (lor_disjoint_add _ (b6 * 2 ^ 8) 16) by divmod.
  rewrite (lor_disjoint_add _ b7 8) by divmod.
  reflexivity.
Qed.

Lemma handle_bytes b0 b1 b2 b3 b4 b5 b6 b7 :
  is_byte b0 -> is_byte b1 -> is_byte b2 -> is_byte b3 ->
  is_byte b4 -> is_byte b5 -> is_byte b6 -> is_byte b7 ->
  let h := b0 * 2 ^ 56 + b1 * 2 ^ 48 + b2 * 2 ^ 40 + b3 * 2 ^ 32
           + b4 * 2 ^ 24 + b5 * 2 ^ 16 + b6 * 2 ^ 8 + b7 in
  0 <= h < 2 ^ 64 /\
  [ Z.land (Z.shiftr h 56) 0xFF; Z.land (Z.shiftr h 48) 0xFF;
    Z.land (Z.shiftr h 40) 0xFF; Z.land (Z.shiftr h 32) 0xFF;
    Z.land (Z.shiftr h 24) 0xFF; Z.land (Z.shiftr h 16) 0xFF;
    Z.land (Z.shiftr h 8) 0xFF; Z.land h 0xFF ]
  = [b0; b1; b2; b3; b4; b5; b6; b7].
Proof.
  intros H0 H1 H2 H3 H4 H5 H6 H7. unfold is_byte in *. cbv zeta.
  rewrite !byte_mask, low_byte by lia.
  split; [divmod|].
  repeat f_equal; divmod.
Qed.

(** X10. The codec is onto the wire format: every buffer of 24 bytes
    deserializes to a header whose fields fit their C types, and serializing
    that header gives the same 24 bytes back. *)
Theorem bytes_roundtrip (buf : list Z) :
  length buf = 24%nat ->
  Forall is_byte buf ->
  header_in_range (ether_msg_deserialize_header buf) /\
  ether_msg_serialize_header (ether_msg_deserialize_header buf) = buf.
Proof.
  intros Hlen Hb.
  do 24 (destruct buf as [|? buf]; [discriminate|]).
  destruct buf; [|discriminate]. clear Hlen.
  repeat match goal with
         | H : Forall _ (_ :: _) |- _ => apply Forall_cons in H as [? H]
         end.
  clear Hb.
  unfold ether_msg_deserialize_header, ether_msg_serialize_header,
    header_in_range.
  cbn [byte_at nth msg_magic msg_version msg_command msg_flags msg_handle
       msg_size msg_reserved].
  rewrite handle_sum by assumption.
  match goal with
  | |- context [wrap16 (Z.lor (Z.shiftl ?a 8) ?b)] =>
    destruct (flags_bytes a b) as (Hf & Hf1 & Hf2); [assumption..|]
  end.
  match goal with
  | |- context [?a * 2 ^ 56 + ?b * 2 ^ 48 + ?c * 2 ^ 40 + ?d * 2 ^ 32
                + ?e * 2 ^ 24 + ?f * 2 ^ 16 + ?g * 2 ^ 8 + ?h] =>
    destruct (handle_bytes a b c d e f g h) as (Hh & Hh1); [assumption..|]
  end.
  cbv zeta in Hf, Hf1, Hf2, Hh, Hh1.
  split.
  { repeat split; try (apply load_be32_range; assumption);
      try apply Hf; try apply Hh;
      match goal with H : is_byte ?x |- _ <= ?x => apply H
                    | H : is_byte ?x |- ?x < _ => apply H end. }
  rewrite !store_load_be32 by assumption.
  rewrite Hf1, Hf2, Hh1. reflexivity.
Qed.

Lemma bytes_roundtrip_witness :
  header_in_range
    (ether_msg_deserialize_header (ether_msg_serialize_header sample_header))
  /\
  ether_msg_serialize_header
    (ether_msg_deserialize_header (ether_msg_serialize_header sample_header))
  = ether_msg_serialize_header sample_header.
Proof.
  apply (bytes_roundtrip (ether_msg_serialize_header sample_header)).
  - reflexivity.
  - repeat constructor; vm_compute; congruence.
Defined.

(** ** Creating a message *)

(** X12. [ether_msg_create] fails exactly when the payload is larger than
    [ETHER_MAX_PAYLOAD] or [calloc] fails; a message it returns has the
    protocol's magic and version, the command asked for, zero flags, handle
    and reserved word, the payload size in its header, a zeroed payload of
    that many bytes, passes [ether_msg_validate], and has total size
    [24 + payload_size]. *)
Theorem msg_create_valid (calloc_ok : bool) (cmd payload_size : Z) :
  0 <= payload_size -> 0 <= cmd < 256 ->
  (ether_msg_create calloc_ok cmd payload_size = None <->
   ETHER_MAX_PAYLOAD < payload_size \/ calloc_ok = false) /\
  (forall m, ether_msg_create calloc_ok cmd payload_size = Some m ->
     header m = {| msg_magic := ETHER_MAGIC;
                   msg_version := ETHER_PROTOCOL_VER;
                   msg_command := cmd; msg_flags := 0; msg_handle := 0;
                   msg_size := payload_size; msg_reserved := 0 |} /\
     payload m = replicate (Z.to_nat payload_size) 0 /\
     header_in_range (header m) /\
     ether_msg_validate (header m) = true /\
     ether_msg_total_size m = ETHER_HEADER_SIZE + payload_size).
Proof.
  intros Hp Hc. unfold ether_msg_create.
  destruct (ETHER_MAX_PAYLOAD <? payload_size) eqn:E.
  { apply Z.ltb_lt in E. split; [tauto|discriminate]. }
  apply Z.ltb_ge in E.
  destruct calloc_ok; simpl negb; cbv iota.
  2:{ split; [tauto|discriminate]. }
  split.
  { split; [discriminate|]. intros [H|H]; [lia|discriminate]. }
  intros m [= <-]. cbn [header payload].
  assert (Hw8 : wrap8 cmd = cmd) by (apply Z.mod_small; lia).
  assert (Hw32 : wrap32 payload_size = payload_size).
  { apply Z.mod_small. unfold ETHER_MAX_PAYLOAD in E. lia. }
  rewrite Hw8, Hw32. split; [reflexivity|]. split; [reflexivity|].
  split.
  { unfold header_in_range.
    cbn [msg_magic msg_version msg_command msg_flags msg_handle msg_size
         msg_reserved].
    unfold ETHER_MAGIC, ETHER_PROTOCOL_VER, ETHER_MAX_PAYLOAD in *. lia. }
  split.
  { unfold ether_msg_validate. simpl.
    destruct (ETHER_MAX_PAYLOAD <? payload_size) eqn:E';
      [apply Z.ltb_lt in E'; lia|reflexivity]. }
  unfold ether_msg_total_size. simpl. apply Z.mod_small.
  unfold ETHER_HEADER_SIZE, ETHER_MAX_PAYLOAD in *. lia.
Qed.

Lemma msg_create_valid_witness :
  (ether_msg_create true ETHER_CMD_WRITE 100 = None <->
   ETHER_MAX_PAYLOAD < 100 \/ true = false) /\
  (forall m, ether_msg_create true ETHER_CMD_WRITE 100 = Some m ->
     header m = {| msg_magic := ETHER_MAGIC;
                   msg_version := ETHER_PROTOCOL_VER;
                   msg_command := ETHER_CMD_WRITE; msg_flags := 0;
                   msg_handle := 0; msg_size := 100; msg_reserved := 0 |} /\
     payload m = replicate (Z.to_nat 100) 0 /\
     header_in_range (header m) /\
     ether_msg_validate (header m) = true /\
     ether_msg_total_size m = ETHER_HEADER_SIZE + 100).
Proof.
  apply (msg_create_valid true ETHER_CMD_WRITE 100);
    try split; vm_compute; congruence.
Defined.

(** ** What [ether_msg_validate] looks at *)

Lemma deserialize_serialize h :
  header_in_range h ->
  ether_msg_deserialize_header (ether_msg_serialize_header h) = h.
Proof.
  intros (Hm & Hv & Hc & Hf & Hh & Hs & Hr).
  destruct h as [m v c f hd sz r]; simpl in *.
  unfold ether_msg_deserialize_header, ether_msg_serialize_header, store_be32.
  cbn [app byte_at nth msg_magic msg_version msg_command msg_flags
       msg_handle msg_size msg_reserved].
  rewrite !load_store_be32 by assumption.
  rewrite flags_roundtrip by assumption.
  rewrite handle_roundtrip by assumption.
  reflexivity.
Qed.

Lemma magic_bytes b0 b1 b2 b3 :
  is_byte b0 -> is_byte b1 -> is_byte b2 -> is_byte b3 ->
  load_be32 b0 b1 b2 b3 = ETHER_MAGIC <->
  b0 = 0xE7 /\ b1 = 0xE7 /\ b2 = 0xE7 /\ b3 = 0xE7.
Proof.
  unfold is_byte. intros H0 H1 H2 H3.
  rewrite load_be32_sum by assumption. unfold ETHER_MAGIC. numerals.
  split; [intros H; repeat split; lia|].
  intros (-> & -> & -> & ->). reflexivity.
Qed.

(** X11. A received header is accepted by [ether_msg_validate] exactly when
    its first five bytes are [E7 E7 E7 E7 01] and the big-endian size in
    bytes 16..19 is at most 16 MiB; the command, flags, handle and reserved
    bytes play no part. *)
Theorem validate_reads_magic_version_size (buf : list Z) :
  length buf = 24%nat ->
  Forall is_byte buf ->
  ether_msg_validate (ether_msg_deserialize_header buf) = true <->
  take 5 buf = [0xE7; 0xE7; 0xE7; 0xE7; 1] /\
  byte_at buf 16 * 2 ^ 24 + byte_at buf 17 * 2 ^ 16
  + byte_at buf 18 * 2 ^ 8 + byte_at buf 19 <= ETHER_MAX_PAYLOAD.
Proof.
  intros Hlen Hb.
  destruct buf as [|b0 [|b1 [|b2 [|b3 [|v buf]]]]]; try discriminate.
  do 11 (destruct buf as [|? buf]; [discriminate|]).
  destruct buf as [|s0 [|s1 [|s2 [|s3 buf]]]]; try discriminate.
  repeat match goal with
         | H : Forall _ (_ :: _) |- _ => apply Forall_cons in H as [? H]
         end.
  clear Hb Hlen.
  unfold ether_msg_validate, ether_msg_deserialize_header.
  cbn [byte_at nth msg_magic msg_version msg_size take].
  rewrite (load_be32_sum s0 s1 s2 s3) by assumption.
  pose proof (magic_bytes b0 b1 b2 b3) as Hm.
  destruct (load_be32 b0 b1 b2 b3 =? ETHER_MAGIC) eqn:E1; cbn [negb].
  2:{ apply Z.eqb_neq in E1. split; [discriminate|].
      intros [Heq _]. exfalso. apply E1, Hm; try assumption.
      injection Heq. auto. }
  apply Z.eqb_eq in E1. apply Hm in E1 as (-> & -> & -> & ->); try assumption.
  unfold ETHER_PROTOCOL_VER.
  destruct (v =? 1) eqn:E2; cbn [negb].
  2:{ apply Z.eqb_neq in E2. split; [discriminate|].
      intros [Heq _]. exfalso. apply E2. injection Heq. auto. }
  apply Z.eqb_eq in E2. subst v.
  match goal with
  | |- context [ETHER_MAX_PAYLOAD <? ?x] =>
    destruct (ETHER_MAX_PAYLOAD <? x) eqn:E3
  end.
  - apply Z.ltb_lt in E3. split; [discriminate|]. intros [_ H']. lia.
  - apply Z.ltb_ge in E3. split; [|reflexivity]. intros _.
    split; [reflexivity|exact E3].
Qed.

Lemma validate_reads_magic_version_size_witness :
  let buf := ether_msg_serialize_header sample_header in
  ether_msg_validate (ether_msg_deserialize_header buf) = true <->
  take 5 buf = [0xE7; 0xE7; 0xE7; 0xE7; 1] /\
  byte_at buf 16 * 2 ^ 24 + byte_at buf 17 * 2 ^ 16
  + byte_at buf 18 * 2 ^ 8 + byte_at buf 19 <= ETHER_MAX_PAYLOAD.
Proof.
  apply (validate_reads_magic_version_size
           (ether_msg_serialize_header sample_header)).
  - reflexivity.
  - repeat constructor; vm_compute; congruence.
Defined.

End ProtocolProps.

(* ===================================================================== *)
(** * The handle table: store, lookup, remove *)
(* ===================================================================== *)

Module TableProps.
Import Machine Protocol Allocator Server TableFacts.

(** ** The scan, by positions *)

Lemma find_slot_shift P tbl k :
  find_slot P tbl (S k) = S <$> find_slot P tbl k.
Proof.
  revert k. induction tbl as [|e tbl IH]; intros k; simpl; [reflexivity|].
  destruct (P e); [reflexivity|]. apply IH.
Qed.

Lemma find_slot_first P tbl i x :
  tbl !! i = Some x -> P x = true ->
  (forall j e, (j < i)%nat -> tbl !! j = Some e -> P e = false) ->
  find_slot P tbl 0 = Some i.
Proof.
  revert i. induction tbl as [|e tbl IH]; intros i Hi Hx Hbefore.
  - discriminate.
  - destruct i as [|i]; simpl in *.
    + injection Hi as ->. rewrite Hx. reflexivity.
    + rewrite (Hbefore 0%nat e) by (try lia; reflexivity).
      rewrite find_slot_shift, (IH i); [reflexivity|assumption..|].
      intros j e' Hj He'. apply (Hbefore (S j) e'); [lia|exact He'].
Qed.

Lemma find_slot_none P tbl :
  (forall j e, tbl !! j = Some e -> P e = false) ->
  find_slot P tbl 0 = None.
Proof.
  intros H. apply find_slot_None, Forall_lookup. exact H.
Qed.

Lemma find_slot_before P tbl i :
  find_slot P tbl 0 = Some i ->
  forall j e, (j < i)%nat -> tbl !! j = Some e -> P e = false.
Proof.
  revert i. induction tbl as [|e tbl IH]; intros i H j e' Hj He'.
  - discriminate.
  - simpl in H. destruct (P e) eqn:E.
    + injection H as <-. lia.
    + rewrite find_slot_shift in H.
      destruct (find_slot P tbl 0) as [i'|] eqn:E'; [|discriminate].
      injection H as <-. destruct j as [|j]; simpl in He'.
      * congruence.
      * apply (IH i' eq_refl j e'); [lia|exact He'].
Qed.

Lemma find_slot_at P tbl i :
  find_slot P tbl 0 = Some i ->
  exists e, tbl !! i = Some e /\ P e = true.
Proof.
  intros H. apply find_slot_Some in H as (_ & e & He & HP).
  rewrite Nat.sub_0_r in He. eauto.
Qed.

(** Changing one slot does not move the scan for a predicate that holds
    neither of the old nor of the new entry there. *)
Lemma find_slot_insert_other P tbl i old x :
  tbl !! i = Some old -> P old = false -> P x = false ->
  find_slot P (<[i := x]> tbl) 0 = find_slot P tbl 0.
Proof.
  revert i. induction tbl as [|e tbl IH]; intros i Hi Ho Hx.
  - discriminate.
  - destruct i as [|i]; simpl in *.
    + injection Hi as ->. rewrite Ho, Hx. reflexivity.
    + destruct (P e); [reflexivity|].
      rewrite !find_slot_shift, (IH i); auto.
Qed.

Lemma lookup_handle_insert_other handle st i old x a n :
  g_handles st !! i = Some old ->
  slot_holds handle old = false -> slot_holds handle x = false ->
  lookup_handle handle {| alloc := a; g_handles := <[i := x]> (g_handles st);
                          g_next_handle := n |}
  = lookup_handle handle st.
Proof.
  intros Hi Ho Hx. unfold lookup_handle. cbn [g_handles].
  rewrite (find_slot_insert_other _ _ _ _ _ Hi Ho Hx).
  destruct (find_slot (slot_holds handle) (g_handles st) 0) as [j|] eqn:E;
    [|reflexivity].
  destruct (find_slot_at _ _ _ E) as (e & He & HP).
  destruct (decide (i = j)) as [->|Hne].
  - congruence.
  - rewrite list_lookup_insert_ne by exact Hne. reflexivity.
Qed.

(** ** The table stays tidy *)

Lemma tidy_initial : tidy initial_server.
Proof.
  constructor; unfold initial_server; cbn [g_next_handle g_handles].
  - lia.
  - intros i e He Hu. apply lookup_replicate in He as [-> _].
    cbn in Hu. congruence.
  - intros i j ei ej Hi _ Hu. apply lookup_replicate in Hi as [-> _].
    cbn in Hu. congruence.
  - apply length_replicate.
Qed.

Lemma tidy_store ptr size st :
  tidy st -> g_next_handle st < 2 ^ 64 - 1 ->
  tidy (snd (store_handle ptr size st)).
Proof.
  intros [T1 T2 T3 T4] Hn. unfold store_handle.
  destruct (find_slot slot_free (g_handles st) 0) as [i|] eqn:E;
    [|constructor; assumption].
  cbn [snd]. constructor; cbn [g_handles g_next_handle].
  - rewrite wrap64_succ by lia. lia.
  - rewrite wrap64_succ by lia. intros k e Hk Hu.
    apply list_lookup_insert_Some in Hk as [(-> & <- & _)|(Hne & Hk)].
    + cbn [he_handle]. lia.
    + specialize (T2 k e Hk Hu). lia.
  - intros k j ek ej Hk Hj Huk Huj Heq.
    apply list_lookup_insert_Some in Hk as [(<- & <- & _)|(Hnk & Hk)];
    apply list_lookup_insert_Some in Hj as [(<- & <- & _)|(Hnj & Hj)];
      cbn [he_handle] in Heq; try congruence.
    + specialize (T2 j ej Hj Huj). lia.
    + specialize (T2 k ek Hk Huk). lia.
    + eapply T3; eauto.
  - rewrite length_insert. exact T4.
Qed.

Lemma tidy_remove handle st :
  tidy st -> tidy (snd (remove_handle handle st)).
Proof.
  intros [T1 T2 T3 T4]. unfold remove_handle.
  destruct (find_slot (slot_holds handle) (g_handles st) 0) as [i|] eqn:E;
    [|constructor; assumption].
  destruct (g_handles st !! i) as [e|] eqn:He; [|constructor; assumption].
  cbn [snd]. constructor; cbn [g_handles g_next_handle].
  - exact T1.
  - intros k ek Hk Hu.
    apply list_lookup_insert_Some in Hk as [(-> & <- & _)|(Hne & Hk)].
    + cbn in Hu. congruence.
    + eauto.
  - intros k j ek ej Hk Hj Huk Huj Heq.
    apply list_lookup_insert_Some in Hk as [(<- & <- & _)|(Hnk & Hk)];
      [cbn in Huk; congruence|].
    apply list_lookup_insert_Some in Hj as [(<- & <- & _)|(Hnj & Hj)];
      [cbn in Huj; congruence|].
    eapply T3; eauto.
  - rewrite length_insert. exact T4.
Qed.

Lemma tidy_run cs :
  forall st hist n,
    counted st hist n -> tidy st -> 0 <= n ->
    n + Z.of_nat (length cs) < 2 ^ 64 - 1 ->
    tidy (fst (table_run cs (st, hist))).
Proof.
  induction cs as [|c cs IH]; intros st hist n C T Hn Hfit.
  - exact T.
  - cbn [table_run length] in *.
    pose proof (counted_perform c st hist n C) as C1.
    assert (T1 : tidy (fst (table_perform c (st, hist)))).
    { destruct C as [Hnext _ _ _].
      destruct c as [ptr size|handle]; cbn [table_perform].
      - pose proof (tidy_store ptr size st T) as H.
        destruct (store_handle ptr size st). apply H. lia.
      - pose proof (tidy_remove handle st T) as H.
        destruct (remove_handle handle st). exact H. }
    destruct (table_perform c (st, hist)) as [st1 hist1].
    cbn [fst snd] in *.
    apply (IH st1 hist1 (n + 1)); [apply C1; lia|exact T1|lia|lia].
Qed.

Lemma table_state_tidy st :
  table_state st -> tidy st /\ g_next_handle st < 2 ^ 64.
Proof.
  intros (cs & hist & Hlen & Hrun).
  pose proof (tidy_run cs initial_server no_history 0 counted_initial
                tidy_initial) as T.
  pose proof (counted_run cs initial_server no_history 0 counted_initial)
    as C.
  rewrite Hrun in T, C. cbn [fst snd] in T, C.
  split; [apply T; lia|].
  destruct C as [Hn _ _ _]; lia.
Qed.

Lemma table_state_initial : table_state initial_server.
Proof. exists [], no_history. split; [reflexivity|reflexivity]. Qed.

Lemma table_state_run cs :
  Z.of_nat (length cs) < 2 ^ 64 - 1 ->
  table_state (fst (table_run cs (initial_server, no_history))).
Proof.
  intros H. exists cs, (snd (table_run cs (initial_server, no_history))).
  split; [exact H|]. apply surjective_pairing.
Qed.

(** ** Store, look up, remove *)

Lemma slot_holds_false_unused handle e :
  he_in_use e = 0 -> slot_holds handle e = false.
Proof. intros H. unfold slot_holds. rewrite H. reflexivity. Qed.

Lemma slot_holds_false_other handle e :
  he_handle e <> handle -> slot_holds handle e = false.
Proof.
  intros H. unfold slot_holds. apply Z.eqb_neq in H. rewrite H.
  apply andb_false_r.
Qed.

Lemma store_handle_tidy st ptr size :
  tidy st -> ~ exhausted st ->
  let '(h, st') := store_handle ptr size st in
  h = g_next_handle st /\
  lookup_handle h st' = Some (ptr, size) /\
  (forall h', h' <> h -> lookup_handle h' st' = lookup_handle h' st).
Proof.
  intros [T1 T2 T3 T4] Hroom.
  unfold store_handle.
  destruct (find_slot slot_free (g_handles st) 0) as [i|] eqn:E.
  2:{ exfalso. apply Hroom, exhausted_scan, E. }
  destruct (find_slot_at _ _ _ E) as (old & Hold & Hfree).
  unfold slot_free in Hfree. apply Z.eqb_eq in Hfree.
  split; [reflexivity|]. split.
  - unfold lookup_handle. cbn [g_handles].
    set (x := {| he_handle := g_next_handle st; he_ptr := ptr;
                 he_size := size; he_in_use := 1 |}).
    assert (Hi : (i < length (g_handles st))%nat)
      by (eapply lookup_lt_Some, Hold).
    rewrite (find_slot_first _ _ i x).
    + rewrite list_lookup_insert_eq by exact Hi. reflexivity.
    + apply list_lookup_insert_eq, Hi.
    + unfold slot_holds. cbn. rewrite Z.eqb_refl. reflexivity.
    + intros j e Hj He. rewrite list_lookup_insert_ne in He by lia.
      destruct (Z.eq_dec (he_in_use e) 0) as [Hz|Hu];
        [apply slot_holds_false_unused, Hz|].
      apply slot_holds_false_other. specialize (T2 j e He Hu). lia.
  - intros h' Hne. apply (lookup_handle_insert_other h' st i old _ _ _ Hold).
    + apply slot_holds_false_unused, Hfree.
    + apply slot_holds_false_other. cbn. congruence.
Qed.

Lemma remove_handle_tidy st handle ptr size :
  tidy st ->
  lookup_handle handle st = Some (ptr, size) ->
  let '(r, st') := remove_handle handle st in
  r = 1 /\
  lookup_handle handle st' = None /\
  (forall h', h' <> handle -> lookup_handle h' st' = lookup_handle h' st) /\
  g_next_handle st' = g_next_handle st /\
  alloc st' = alloc st /\
  ~ exhausted st'.
Proof.
  intros [T1 T2 T3 T4] Hlk.
  unfold lookup_handle in Hlk. unfold remove_handle.
  destruct (find_slot (slot_holds handle) (g_handles st) 0) as [i|] eqn:E;
    [|discriminate].
  destruct (find_slot_at _ _ _ E) as (e & He & HP).
  rewrite He in Hlk |- *.
  unfold slot_holds in HP. apply andb_true_iff in HP as [Hu Hh].
  apply negb_true_iff, Z.eqb_neq in Hu. apply Z.eqb_eq in Hh.
  set (x := {| he_handle := he_handle e; he_ptr := NULL;
               he_size := he_size e; he_in_use := 0 |}).
  assert (Hi : (i < length (g_handles st))%nat)
    by (eapply lookup_lt_Some, He).
  split; [reflexivity|].
  split; [|split; [|split; [reflexivity|split; [reflexivity|]]]].
  - unfold lookup_handle. cbn [g_handles].
    rewrite find_slot_none; [reflexivity|].
    intros j ej Hj.
    apply list_lookup_insert_Some in Hj as [(<- & <- & _)|(Hne & Hj)].
    + apply slot_holds_false_unused. reflexivity.
    + destruct (Z.eq_dec (he_in_use ej) 0) as [Hz|Huj];
        [apply slot_holds_false_unused, Hz|].
      apply slot_holds_false_other. intros Heq. apply Hne.
      apply (T3 i j e ej); auto. congruence.
  - intros h' Hne. apply (lookup_handle_insert_other h' st i e _ _ _ He).
    + apply slot_holds_false_other. congruence.
    + apply slot_holds_false_unused. reflexivity.
  - intros Hex. unfold exhausted in Hex. cbn [g_handles] in Hex.
    rewrite Forall_lookup in Hex.
    apply (Hex i x); [apply list_lookup_insert_eq, Hi|reflexivity].
Qed.

Lemma zero_handle_absent st :
  tidy st -> find_slot (slot_holds 0) (g_handles st) 0 = None.
Proof.
  intros [T1 T2 T3 T4]. apply find_slot_none. intros j e Hj.
  destruct (Z.eq_dec (he_in_use e) 0) as [Hu|Hu];
    [apply slot_holds_false_unused, Hu|].
  apply slot_holds_false_other. specialize (T2 j e Hj Hu). lia.
Qed.

(** X13. What is stored is found. In any state of the table that store and
    remove calls reach from the start before the 64-bit counter runs out,
    and that still has a free slot, [store_handle] returns the counter's
    value as a handle under which [lookup_handle] finds exactly the pointer
    and size stored, and every other handle resolves as before. *)
Theorem store_then_lookup (st : server_state) (ptr size : Z) :
  table_state st -> ~ exhausted st ->
  let '(h, st') := store_handle ptr size st in
  h = g_next_handle st /\
  lookup_handle h st' = Some (ptr, size) /\
  (forall h', h' <> h -> lookup_handle h' st' = lookup_handle h' st).
Proof.
  intros Hst Hroom. apply store_handle_tidy; [|exact Hroom].
  apply table_state_tidy, Hst.
Qed.

Lemma sample_table_state : table_state sample_table.
Proof. apply table_state_run. vm_compute. reflexivity. Qed.

Lemma sample_table_room : ~ exhausted sample_table.
Proof. rewrite exhausted_scan. vm_compute. discriminate. Qed.

Lemma store_then_lookup_witness :
  let '(h, st') := store_handle 8192 7 sample_table in
  h = g_next_handle sample_table /\
  lookup_handle h st' = Some (8192, 7) /\
  (forall h', h' <> h ->
     lookup_handle h' st' = lookup_handle h' sample_table).
Proof.
  apply (store_then_lookup sample_table 8192 7).
  - exact sample_table_state.
  - exact sample_table_room.
Defined.

(** X14. What is removed is gone, and only that. In any state of the table
    that store and remove calls reach from the start before the 64-bit
    counter runs out, removing a handle that resolves returns 1; afterwards
    the handle no longer resolves, every other handle resolves as before,
    the counter has not moved, and a slot is free again. *)
Theorem remove_then_lookup (st : server_state) (handle ptr size : Z) :
  table_state st ->
  lookup_handle handle st = Some (ptr, size) ->
  let '(r, st') := remove_handle handle st in
  r = 1 /\
  lookup_handle handle st' = None /\
  (forall h', h' <> handle -> lookup_handle h' st' = lookup_handle h' st) /\
  g_next_handle st' = g_next_handle st /\
  ~ exhausted st'.
Proof.
  intros Hst Hlk.
  pose proof (remove_handle_tidy st handle ptr size
                (proj1 (table_state_tidy st Hst)) Hlk) as H.
  destruct (remove_handle handle st) as [r st'].
  destruct H as (H1 & H2 & H3 & H4 & _ & H5). auto.
Qed.

Lemma remove_then_lookup_witness :
  let '(r, st') := remove_handle 2 sample_table in
  r = 1 /\
  lookup_handle 2 st' = None /\
  (forall h', h' <> 2 -> lookup_handle h' st' = lookup_handle h' sample_table)
  /\
  g_next_handle st' = g_next_handle sample_table /\
  ~ exhausted st'.
Proof.
  apply (remove_then_lookup sample_table 2 2048 20).
  - exact sample_table_state.
  - vm_compute. reflexivity.
Defined.

(** X15. Handles that are not there. In any state of the table that store
    and remove calls reach from the start before the 64-bit counter runs
    out, handle 0 never resolves; and removing a handle that does not
    resolve, 0 included, returns 0 and leaves the table exactly as it was. *)
Theorem absent_handles (st : server_state) (handle : Z) :
  table_state st ->
  lookup_handle 0 st = None /\
  remove_handle 0 st = (0, st) /\
  (lookup_handle handle st = None -> remove_handle handle st = (0, st)).
Proof.
  intros Hst. destruct (table_state_tidy st Hst) as [T Hn].
  pose proof (zero_handle_absent st T) as Hz.
  split; [unfold lookup_handle; rewrite Hz; reflexivity|].
  split; [unfold remove_handle; rewrite Hz; reflexivity|].
  unfold lookup_handle, remove_handle.
  destruct (find_slot (slot_holds handle) (g_handles st) 0) as [i|] eqn:E;
    [|reflexivity].
  destruct (find_slot_at _ _ _ E) as (e & He & _). rewrite He. discriminate.
Qed.

Lemma absent_handles_witness :
  lookup_handle 0 sample_table = None /\
  remove_handle 0 sample_table = (0, sample_table) /\
  (lookup_handle 1 sample_table = None ->
   remove_handle 1 sample_table = (0, sample_table)).
Proof.
  apply (absent_handles sample_table 1). exact sample_table_state.
Defined.

Example removed_handle_absent : lookup_handle 1 sample_table = None.
Proof. vm_compute. reflexivity. Qed.

End TableProps.

(* ===================================================================== *)
(** * The daemon: what each request does *)
(* ===================================================================== *)

Module DispatcherProps.
Import Machine Protocol Allocator Server.
Import BitFacts AllocatorFacts TableFacts DispatcherFacts.
Import AllocatorProps ProtocolProps TableProps.

(** ** The table under the handlers *)

Lemma tidy_same st st' :
  g_handles st' = g_handles st -> g_next_handle st' = g_next_handle st ->
  tidy st -> tidy st'.
Proof.
  intros Hh Hn [T1 T2 T3 T4]. constructor; rewrite ?Hh, ?Hn; assumption.
Qed.

Lemma tidy_handle_alloc o h st :
  tidy st -> g_next_handle st < 2 ^ 64 - 1 ->
  tidy (snd (handle_alloc o h st)).
Proof.
  intros T Hn. unfold handle_alloc.
  destruct (ether_alloc (malloc_chunk o) (msg_size h) (alloc st)) as [ptr a1].
  destruct (ptr =? NULL); [apply (tidy_same st); auto|].
  set (st0 := {| alloc := a1; g_handles := g_handles st;
                 g_next_handle := g_next_handle st |}).
  assert (T0 : tidy st0) by (apply (tidy_same st); auto).
  pose proof (tidy_store ptr (msg_size h) st0 T0 Hn) as T1.
  destruct (store_handle ptr (msg_size h) st0) as [handle st1].
  cbn [snd] in T1.
  destruct (handle =? 0); [|exact T1].
  cbn [snd]. apply (tidy_same st1); auto.
Qed.

Lemma tidy_handle_free o h st : tidy st -> tidy (snd (handle_free o h st)).
Proof.
  intros T. unfold handle_free.
  destruct (lookup_handle (msg_handle h) st) as [[ptr sz]|]; [|exact T].
  destruct (ptr =? NULL); [exact T|].
  set (st0 := {| alloc := ether_free ptr (alloc st);
                 g_handles := g_handles st;
                 g_next_handle := g_next_handle st |}).
  assert (T0 : tidy st0) by (apply (tidy_same st); auto).
  pose proof (tidy_remove (msg_handle h) st0 T0) as T1.
  destruct (remove_handle (msg_handle h) st0). exact T1.
Qed.

Lemma tidy_handle_write o h payload st :
  tidy st -> tidy (snd (handle_write o h payload st)).
Proof.
  intros T. unfold handle_write.
  destruct (lookup_handle (msg_handle h) st) as [[ptr sz]|]; [|exact T].
  destruct (ptr =? NULL); [exact T|].
  destruct (sz <? msg_size h); [exact T|].
  destruct (ether_write ptr payload (msg_size h) (alloc st)) as [ret a1].
  destruct (negb (ret =? ETHER_OK)); [exact T|].
  apply (tidy_same st); auto.
Qed.

Lemma handle_read_state o h st : snd (handle_read o h st) = st.
Proof.
  unfold handle_read.
  destruct (lookup_handle (msg_handle h) st) as [[ptr sz]|]; [|reflexivity].
  destruct (ptr =? NULL); [reflexivity|].
  destruct (malloc_scratch o); [|reflexivity].
  destruct (ether_read _ _ _ _) as [ret buffer'].
  destruct (negb (ret =? ETHER_OK)); reflexivity.
Qed.

Lemma tidy_turn o header_buf incoming st :
  tidy st -> g_next_handle st < 2 ^ 64 - 1 ->
  tidy (after (handle_client_turn o header_buf incoming st)).
Proof.
  intros T Hn. unfold handle_client_turn.
  destruct header_buf as [buf|]; [|exact T].
  set (h := ether_msg_deserialize_header buf).
  destruct (negb (ether_msg_validate h)); [exact T|].
  destruct (if 0 <? msg_size h
            then if negb (malloc_payload o) then None
                 else match incoming with
                      | Some bytes => Some (Some bytes)
                      | None => None
                      end
            else Some None) as [payload|]; [|exact T].
  destruct (msg_command h =? ETHER_CMD_PING); [exact T|].
  destruct (msg_command h =? ETHER_CMD_ALLOC).
  { pose proof (tidy_handle_alloc o h st T Hn) as H.
    destruct (handle_alloc o h st). exact H. }
  destruct (msg_command h =? ETHER_CMD_FREE).
  { pose proof (tidy_handle_free o h st T) as H.
    destruct (handle_free o h st). exact H. }
  destruct (msg_command h =? ETHER_CMD_WRITE).
  { pose proof (tidy_handle_write o h payload st T) as H.
    destruct (handle_write o h payload st). exact H. }
  destruct (msg_command h =? ETHER_CMD_READ); [|exact T].
  pose proof (handle_read_state o h st) as H.
  destruct (handle_read o h st). cbn [after snd] in *. subst. exact T.
Qed.

Lemma reachable_tidy st : reachable st -> tidy st.
Proof.
  induction 1 as [|o header_buf incoming st _ IH (_ & _ & Hn)].
  - exact tidy_initial.
  - apply tidy_turn; assumption.
Qed.

(** X16. The daemon's books agree. In every state the daemon can reach (with
    a [malloc] that returns fresh chunks, payloads as long as their header
    says, and a handle counter that has not run out), the table has its 1024
    slots, every handle in use is between 1 and the counter, no two entries
    in use share a handle or a pointer, and each entry in use points to a
    live, well-formed chunk whose size is the size cached in the table. *)
Theorem reachable_table_sound (st : server_state) :
  reachable st ->
  length (g_handles st) = MAX_HANDLES /\
  forall i e,
    g_handles st !! i = Some e -> he_in_use e <> 0 ->
    1 <= he_handle e < g_next_handle st /\
    he_ptr e <> NULL /\
    (exists b, heap (alloc st) !! get_header (he_ptr e) = Some b /\
               is_valid_block (get_header (he_ptr e)) (heap (alloc st))
               = true /\
               blk_size b = he_size e /\ block_wf b) /\
    (forall j ej,
       g_handles st !! j = Some ej -> he_in_use ej <> 0 ->
       he_handle ej = he_handle e \/ he_ptr ej = he_ptr e -> j = i).
Proof.
  intros R. pose proof (reachable_tidy st R) as [T1 T2 T3 T4].
  pose proof (reachable_consistent st R) as [C1 C2 C3].
  split; [exact T4|]. intros i e He Hu.
  split; [apply (T2 i e He Hu)|].
  destruct (C2 i e He Hu) as (Hp & Hb).
  split; [exact Hp|]. split; [exact Hb|].
  intros j ej Hj Huj [Heq|Heq].
  - apply (T3 j i ej e); auto.
  - apply (C3 j i ej e); auto.
Qed.

Lemma sample_session_reachable : reachable sample_session.
Proof.
  unfold sample_session. apply reach_turn; [apply reach_turn|].
  - apply reach_initial.
  - split; [right; split; vm_compute; reflexivity|].
    split; [|vm_compute; reflexivity].
    intros buf bytes [= <-] [= <-]. vm_compute. reflexivity.
  - split; [right; split; vm_compute; reflexivity|].
    split; [|vm_compute; reflexivity].
    intros buf bytes [= <-] [= <-]. vm_compute. reflexivity.
Qed.

Lemma sample_session_server : sample_session = sample_server.
Proof. vm_compute. reflexivity. Qed.

Lemma reachable_table_sound_witness :
  length (g_handles sample_session) = MAX_HANDLES /\
  forall i e,
    g_handles sample_session !! i = Some e -> he_in_use e <> 0 ->
    1 <= he_handle e < g_next_handle sample_session /\
    he_ptr e <> NULL /\
    (exists b, heap (alloc sample_session) !! get_header (he_ptr e) = Some b /\
               is_valid_block (get_header (he_ptr e))
                 (heap (alloc sample_session)) = true /\
               blk_size b = he_size e /\ block_wf b) /\
    (forall j ej,
       g_handles sample_session !! j = Some ej -> he_in_use ej <> 0 ->
       he_handle ej = he_handle e \/ he_ptr ej = he_ptr e -> j = i).
Proof.
  apply (reachable_table_sound sample_session). exact sample_session_reachable.
Defined.

(** ** Requests on a handle that is not in the table *)

Lemma unknown_handle_rejected o h payload st :
  lookup_handle (msg_handle h) st = None ->
  handle_free o h st
  = (send_response o ETHER_CMD_ERROR (msg_handle h) None 0, st) /\
  handle_write o h payload st
  = (send_response o ETHER_CMD_ERROR (msg_handle h) None 0, st) /\
  handle_read o h st
  = (send_response o ETHER_CMD_ERROR (msg_handle h) None 0, st).
Proof.
  intros H. unfold handle_free, handle_write, handle_read. rewrite H.
  repeat split.
Qed.

Lemma unissued_handle_absent st handle :
  tidy st -> handle = 0 \/ g_next_handle st <= handle ->
  lookup_handle handle st = None.
Proof.
  intros [T1 T2 T3 T4] Hh. unfold lookup_handle.
  rewrite find_slot_none; [reflexivity|].
  intros j e Hj.
  destruct (Z.eq_dec (he_in_use e) 0) as [Hu|Hu];
    [apply slot_holds_false_unused, Hu|].
  apply slot_holds_false_other. specialize (T2 j e Hj Hu). lia.
Qed.

(** X17. A handle that was never issued is refused. In every state the
    daemon can reach, handle 0 and every handle from the counter upwards
    resolve to nothing, and FREE, WRITE and READ on such a handle each
    answer ERROR carrying that handle (the response message being allocated)
    and change neither the table nor the allocator, statistics included. *)
Theorem unissued_handle_refused (o : oracle) (h : ether_msg_header_t)
  (payload : option (list Z)) (st : server_state) :
  reachable st ->
  msg_handle h = 0 \/ g_next_handle st <= msg_handle h ->
  calloc_msg o = true ->
  lookup_handle (msg_handle h) st = None /\
  handle_free o h st = (error_response (msg_handle h), st) /\
  handle_write o h payload st = (error_response (msg_handle h), st) /\
  handle_read o h st = (error_response (msg_handle h), st).
Proof.
  intros R Hh Hc.
  pose proof (unissued_handle_absent st _ (reachable_tidy st R) Hh) as H.
  destruct (unknown_handle_rejected o h payload st H) as (H1 & H2 & H3).
  rewrite H1, H2, H3, send_error by exact Hc. repeat split. exact H.
Qed.

Lemma unissued_handle_refused_witness :
  let h := request ETHER_CMD_FREE 77 0 in
  lookup_handle (msg_handle h) sample_session = None /\
  handle_free sample_oracle h sample_session
  = (error_response (msg_handle h), sample_session) /\
  handle_write sample_oracle h (Some hello) sample_session
  = (error_response (msg_handle h), sample_session) /\
  handle_read sample_oracle h sample_session
  = (error_response (msg_handle h), sample_session).
Proof.
  intros h.
  apply (unissued_handle_refused sample_oracle h (Some hello) sample_session).
  - exact sample_session_reachable.
  - right. vm_compute. congruence.
  - reflexivity.
Defined.

(** ** ALLOC *)

Lemma send_ok_empty o handle :
  calloc_msg o = true ->
  send_response o ETHER_CMD_OK handle None 0 = ok_response handle [].
Proof.
  intros H. unfold send_response, ether_msg_create. rewrite H.
  change (ETHER_MAX_PAYLOAD <? 0) with false.
  cbn [negb header payload msg_magic msg_version msg_command msg_flags
       msg_size msg_reserved].
  change (0 <? 0) with false. reflexivity.
Qed.

(** X18. ALLOC served. In a reachable state with a free slot, an ALLOC for a
    non-zero size, with [malloc] returning a fresh chunk and the response
    message allocated, is answered OK with the counter's value as the new,
    non-zero handle; that handle then resolves to a live region of exactly
    the size asked for, all zero, every other handle resolves as before, and
    nothing has been handed to [free]. *)
Theorem alloc_request_served (o : oracle) (h : ether_msg_header_t)
  (st : server_state) :
  reachable st -> ~ exhausted st ->
  0 < msg_size h ->
  0 < malloc_chunk o ->
  is_valid_block (malloc_chunk o) (heap (alloc st)) = false ->
  calloc_msg o = true ->
  let hd := g_next_handle st in
  let p := get_user_ptr (malloc_chunk o) in
  exists st',
    handle_alloc o h st = (ok_response hd [], st') /\
    hd <> 0 /\
    live_handle hd st' p (fresh_block (msg_size h)) /\
    ether_size p (alloc st') = msg_size h /\
    (forall h', h' <> hd -> lookup_handle h' st' = lookup_handle h' st) /\
    released (alloc st') = released (alloc st).
Proof.
  intros R Hroom Hs Hc Hfresh Hmsg hd p.
  pose proof (reachable_tidy st R) as T.
  unfold handle_alloc. rewrite ether_alloc_ok by (unfold NULL; lia).
  assert (Hp : p <> NULL)
    by (unfold p, get_user_ptr, HEADER_SIZE, NULL; lia).
  fold p. assert (Hp' := Hp). apply Z.eqb_neq in Hp'. rewrite Hp'.
  set (a1 := set_stats _ _).
  set (st0 := {| alloc := a1; g_handles := g_handles st;
                 g_next_handle := g_next_handle st |}).
  assert (T0 : tidy st0) by (apply (tidy_same st); auto).
  assert (Hroom0 : ~ exhausted st0) by exact Hroom.
  pose proof (store_handle_tidy st0 p (msg_size h) T0 Hroom0) as Hst.
  assert (Ha : alloc (snd (store_handle p (msg_size h) st0)) = a1).
  { unfold store_handle. destruct (find_slot _ _ _); reflexivity. }
  destruct (store_handle p (msg_size h) st0) as [handle st'].
  destruct Hst as (-> & Hlk & Hother). cbn [snd g_next_handle st0] in *.
  fold hd in Hlk, Hother |- *.
  assert (Hhd : hd <> 0) by (destruct T as [T1 _ _ _]; unfold hd; lia).
  assert (Hhd' := Hhd). apply Z.eqb_neq in Hhd'. rewrite Hhd'.
  exists st'. rewrite send_ok_empty by exact Hmsg.
  split; [reflexivity|]. split; [exact Hhd|].
  assert (Hb : heap (alloc st') !! get_header p
               = Some (fresh_block (msg_size h))).
  { rewrite Ha. unfold p. rewrite get_header_user_ptr. apply lookup_insert_eq. }
  assert (Hl : is_valid_block (get_header p) (heap (alloc st')) = true).
  { rewrite Ha. unfold p. rewrite get_header_user_ptr. cbn [heap a1 set_stats
      set_heap].
    rewrite is_valid_block_insert_same by (unfold NULL; lia). reflexivity. }
  split.
  { unfold live_handle. cbn [blk_size fresh_block].
    split; [exact Hlk|]. split; [exact Hp|]. split; [exact Hb|].
    split; [exact Hl|]. apply fresh_block_wf. lia. }
  split; [apply (ether_size_live p (alloc st') _ Hp Hl Hb)|].
  split.
  { intros h' Hne. rewrite (Hother h' Hne). reflexivity. }
  rewrite Ha. reflexivity.
Qed.

Lemma alloc_request_served_witness :
  let o := second_oracle in
  let h := request ETHER_CMD_ALLOC 0 32 in
  let hd := g_next_handle sample_session in
  let p := get_user_ptr (malloc_chunk o) in
  exists st',
    handle_alloc o h sample_session = (ok_response hd [], st') /\
    hd <> 0 /\
    live_handle hd st' p (fresh_block (msg_size h)) /\
    ether_size p (alloc st') = msg_size h /\
    (forall h', h' <> hd ->
       lookup_handle h' st' = lookup_handle h' sample_session) /\
    released (alloc st') = released (alloc sample_session).
Proof.
  intros o h.
  apply (alloc_request_served o h sample_session).
  - exact sample_session_reachable.
  - rewrite exhausted_scan. vm_compute. discriminate.
  - vm_compute. reflexivity.
  - vm_compute. reflexivity.
  - vm_compute. reflexivity.
  - reflexivity.
Defined.

(** X19. ALLOC on a full table leaks nothing. When every slot is taken, an
    ALLOC for a non-zero size that did obtain its chunk answers ERROR with
    handle 0 (the response message being allocated), leaves the table and
    the counter as they were, and has released the chunk again: it is no
    longer live, it has been handed to [free], and [current_usage] is back
    where it was. *)
Theorem alloc_on_full_table (o : oracle) (h : ether_msg_header_t)
  (st : server_state) :
  exhausted st ->
  0 < msg_size h -> 0 < malloc_chunk o ->
  0 <= current_usage (g_stats (alloc st)) < 2 ^ 64 ->
  calloc_msg o = true ->
  exists st',
    handle_alloc o h st = (error_response 0, st') /\
    g_handles st' = g_handles st /\
    g_next_handle st' = g_next_handle st /\
    is_valid_block (malloc_chunk o) (heap (alloc st')) = false /\
    released (alloc st') = released (alloc st) ++ [malloc_chunk o] /\
    current_usage (g_stats (alloc st')) = current_usage (g_stats (alloc st)).
Proof.
  intros Hfull Hs Hc Hcur Hmsg.
  apply exhausted_scan in Hfull.
  unfold handle_alloc. rewrite ether_alloc_ok by (unfold NULL; lia).
  set (p := get_user_ptr (malloc_chunk o)).
  assert (Hp : p <> NULL)
    by (unfold p, get_user_ptr, HEADER_SIZE, NULL; lia).
  assert (Hp' := Hp). apply Z.eqb_neq in Hp'. rewrite Hp'.
  unfold store_handle. cbn [g_handles]. rewrite Hfull.
  change (0 =? 0) with true. cbv iota. cbn [alloc g_handles g_next_handle].
  set (a1 := set_stats _ _).
  assert (Hb : heap a1 !! get_header p = Some (fresh_block (msg_size h))).
  { unfold p. rewrite get_header_user_ptr. apply lookup_insert_eq. }
  assert (Hl : live (heap a1) (get_header p)).
  { unfold live, p. rewrite get_header_user_ptr. cbn [heap a1 set_stats
      set_heap].
    rewrite is_valid_block_insert_same by (unfold NULL; lia). reflexivity. }
  rewrite (ether_free_live p a1 _ Hp Hl Hb).
  eexists. rewrite send_error by exact Hmsg.
  split; [reflexivity|]. cbn [g_handles g_next_handle alloc].
  split; [reflexivity|]. split; [reflexivity|].
  unfold p. rewrite get_header_user_ptr.
  split.
  { cbn [heap sys_free set_stats set_heap].
    apply wiped_not_live. unfold NULL. lia. }
  split; [reflexivity|].
  cbn [g_stats sys_free set_stats set_heap freed_stats allocated_stats
       current_usage a1 blk_size fresh_block].
  unfold wrap64. rewrite Zminus_mod_idemp_l.
  replace (current_usage (g_stats (alloc st)) + msg_size h - msg_size h)
    with (current_usage (g_stats (alloc st))) by lia.
  apply Z.mod_small, Hcur.
Qed.

Lemma alloc_on_full_table_witness :
  exists st',
    handle_alloc sample_oracle (request ETHER_CMD_ALLOC 0 32) full_server
    = (error_response 0, st') /\
    g_handles st' = g_handles full_server /\
    g_next_handle st' = g_next_handle full_server /\
    is_valid_block 1000 (heap (alloc st')) = false /\
    released (alloc st') = released (alloc full_server) ++ [1000] /\
    current_usage (g_stats (alloc st'))
    = current_usage (g_stats (alloc full_server)).
Proof.
  apply (alloc_on_full_table sample_oracle (request ETHER_CMD_ALLOC 0 32)
           full_server).
  - apply exhausted_scan. vm_compute. reflexivity.
  - vm_compute. reflexivity.
  - vm_compute. reflexivity.
  - split; vm_compute; congruence.
  - reflexivity.
Defined.

(** ** FREE *)

Lemma handle_free_known o h st ptr size :
  reachable st ->
  lookup_handle (msg_handle h) st = Some (ptr, size) ->
  calloc_msg o = true ->
  exists st',
    handle_free o h st = (ok_response (msg_handle h) [], st') /\
    lookup_handle (msg_handle h) st' = None /\
    (forall h', h' <> msg_handle h ->
       lookup_handle h' st' = lookup_handle h' st) /\
    is_valid_block (get_header ptr) (heap (alloc st')) = false /\
    released (alloc st') = released (alloc st) ++ [get_header ptr] /\
    g_next_handle st' = g_next_handle st.
Proof.
  intros R Hlk Hmsg.
  pose proof (reachable_tidy st R) as T.
  destruct (reachable_lookup_live st _ ptr size R Hlk)
    as (b & (_ & Hp & Hb & Hl & _) & Hsz).
  unfold handle_free. rewrite Hlk.
  assert (Hp' := Hp). apply Z.eqb_neq in Hp'. rewrite Hp'.
  rewrite (ether_free_live ptr (alloc st) b Hp Hl Hb).
  set (a1 := sys_free _ _).
  set (st0 := {| alloc := a1; g_handles := g_handles st;
                 g_next_handle := g_next_handle st |}).
  assert (T0 : tidy st0) by (apply (tidy_same st); auto).
  assert (Hlk0 : lookup_handle (msg_handle h) st0 = Some (ptr, size))
    by exact Hlk.
  pose proof (remove_handle_tidy st0 (msg_handle h) ptr size T0 Hlk0) as Hrm.
  destruct (remove_handle (msg_handle h) st0) as [r st'].
  destruct Hrm as (_ & Hgone & Hother & Hnext & Ha & _).
  exists st'. rewrite send_ok_empty by exact Hmsg.
  split; [reflexivity|]. split; [exact Hgone|].
  split; [intros h' Hne; rewrite (Hother h' Hne); reflexivity|].
  assert (Hhdr : get_header ptr <> NULL).
  { apply is_valid_block_lookup in Hl. tauto. }
  rewrite Ha. split; [apply wiped_not_live, Hhdr|].
  split; [reflexivity|exact Hnext].
Qed.

(** X20. FREE served. In a reachable state, a FREE for a handle the table
    resolves is answered OK (the response message being allocated);
    afterwards the handle no longer resolves while every other handle
    resolves as before, the chunk is no longer live and has been handed to
    [free], the counter of handles is untouched, and a further FREE, WRITE
    or READ on the same handle is answered ERROR and changes nothing. *)
Theorem free_request_served (o : oracle) (h : ether_msg_header_t)
  (st : server_state) (ptr size : Z) :
  reachable st ->
  lookup_handle (msg_handle h) st = Some (ptr, size) ->
  calloc_msg o = true ->
  exists st',
    handle_free o h st = (ok_response (msg_handle h) [], st') /\
    lookup_handle (msg_handle h) st' = None /\
    (forall h', h' <> msg_handle h ->
       lookup_handle h' st' = lookup_handle h' st) /\
    is_valid_block (get_header ptr) (heap (alloc st')) = false /\
    released (alloc st') = released (alloc st) ++ [get_header ptr] /\
    g_next_handle st' = g_next_handle st /\
    (forall payload,
       handle_free o h st' = (error_response (msg_handle h), st') /\
       handle_write o h payload st' = (error_response (msg_handle h), st') /\
       handle_read o h st' = (error_response (msg_handle h), st')).
Proof.
  intros R Hlk Hmsg.
  destruct (handle_free_known o h st ptr size R Hlk Hmsg)
    as (st' & H1 & Hgone & H3 & H4 & H5 & H6).
  exists st'. repeat (split; [assumption|]).
  intros payload.
  destruct (unknown_handle_rejected o h payload st' Hgone)
    as (E1 & E2 & E3).
  rewrite E1, E2, E3, send_error by exact Hmsg. auto.
Qed.

Lemma free_request_served_witness :
  let o := sample_oracle in
  let h := request ETHER_CMD_FREE 1 0 in
  exists st',
    handle_free o h sample_session = (ok_response (msg_handle h) [], st') /\
    lookup_handle (msg_handle h) st' = None /\
    (forall h', h' <> msg_handle h ->
       lookup_handle h' st' = lookup_handle h' sample_session) /\
    is_valid_block (get_header 1024) (heap (alloc st')) = false /\
    released (alloc st')
    = released (alloc sample_session) ++ [get_header 1024] /\
    g_next_handle st' = g_next_handle sample_session /\
    (forall payload,
       handle_free o h st' = (error_response (msg_handle h), st') /\
       handle_write o h payload st' = (error_response (msg_handle h), st') /\
       handle_read o h st' = (error_response (msg_handle h), st')).
Proof.
  intros o h.
  apply (free_request_served o h sample_session 1024 10).
  - exact sample_session_reachable.
  - vm_compute. reflexivity.
  - reflexivity.
Defined.

(** ** WRITE, then READ *)

Ltac lengths :=
  repeat (rewrite length_app || rewrite length_take || rewrite length_drop);
  lia.

(** X21. What a client writes it reads back. For a handle naming a live
    region, with every allocation succeeding, a WRITE of [len > 0] bytes
    that fit the region (and the 16 MiB limit) is answered OK and changes
    neither the table nor the statistics; a READ of [len] bytes on the same
    handle is then answered OK with exactly the bytes written, and leaves
    the state as it is. *)
Theorem served_write_then_read (o o' : oracle) (hw hr : ether_msg_header_t)
  (data scratch : list Z) (st : server_state) (ptr : Z) (b : block) :
  live_handle (msg_handle hw) st ptr b ->
  msg_handle hr = msg_handle hw ->
  msg_size hr = msg_size hw ->
  0 < msg_size hw <= blk_size b ->
  msg_size hw <= ETHER_MAX_PAYLOAD ->
  Z.of_nat (length data) = msg_size hw ->
  malloc_scratch o' = Some scratch ->
  Z.of_nat (length scratch) = msg_size hr ->
  calloc_msg o = true -> calloc_msg o' = true ->
  exists st',
    handle_write o hw (Some data) st = (ok_response (msg_handle hw) [], st') /\
    handle_read o' hr st' = (ok_response (msg_handle hw) data, st') /\
    g_handles st' = g_handles st /\
    g_next_handle st' = g_next_handle st /\
    g_stats (alloc st') = g_stats (alloc st).
Proof.
  intros (Hlk & Hp & Hb & Hl & Hwf1 & Hwf2) Hh Hs Hlen Hmax Hdata Hscr
    Hslen Hmsg Hmsg'.
  assert (Hp' := Hp). apply Z.eqb_neq in Hp'.
  unfold handle_write. rewrite Hlk, Hp'.
  destruct (blk_size b <? msg_size hw) eqn:E; [apply Z.ltb_lt in E; lia|].
  rewrite (ether_write_live ptr (alloc st) b Hp Hl Hb) by lia.
  change (negb (ETHER_OK =? ETHER_OK)) with false. cbv iota.
  rewrite send_ok_empty by exact Hmsg.
  set (b' := with_data (memcpy (blk_data b) data (msg_size hw)) b).
  set (a1 := set_heap (<[get_header ptr := b']> (heap (alloc st))) (alloc st)).
  set (st' := {| alloc := a1; g_handles := g_handles st;
                 g_next_handle := g_next_handle st |}).
  exists st'. split; [reflexivity|].
  split; [|auto].
  assert (Hhdr : get_header ptr <> NULL).
  { apply is_valid_block_lookup in Hl. tauto. }
  assert (Hb' : heap (alloc st') !! get_header ptr = Some b')
    by apply lookup_insert_eq.
  assert (Hl' : is_valid_block (get_header ptr) (heap (alloc st')) = true).
  { cbn [alloc st' a1 heap set_heap].
    rewrite is_valid_block_insert_same by exact Hhdr.
    apply is_valid_block_lookup in Hl as (_ & b0 & Hb0 & Ht).
    rewrite Hb in Hb0. injection Hb0 as <-. exact Ht. }
  unfold handle_read. rewrite Hh, Hs.
  change (lookup_handle (msg_handle hw) st')
    with (lookup_handle (msg_handle hw) st).
  rewrite Hlk, Hp', E, Hscr.
  rewrite (ether_read_live ptr (alloc st') b' Hp Hl' Hb')
    by (cbn [blk_size b' with_data]; lia).
  change (negb (ETHER_OK =? ETHER_OK)) with false. cbv iota.
  rewrite send_ok_data; [|exact Hmsg'|lia|].
  2:{ unfold b'. cbn [blk_data with_data]. unfold memcpy.
      lengths. }
  f_equal. f_equal.
  unfold b'. cbn [blk_data with_data]. unfold memcpy.
  rewrite take_app_le by lengths.
  rewrite take_take, Nat.min_id.
  rewrite take_app_le by lengths.
  rewrite take_take, Nat.min_id. apply take_ge. lia.
Qed.

Lemma served_write_then_read_witness :
  exists st',
    handle_write sample_oracle (request ETHER_CMD_WRITE 1 6) (Some hello)
      sample_session
    = (ok_response 1 [], st') /\
    handle_read
      {| malloc_chunk := 0; malloc_scratch := Some (replicate 6 0xAA);
         malloc_payload := true; calloc_msg := true |}
      (request ETHER_CMD_READ 1 6) st'
    = (ok_response 1 hello, st') /\
    g_handles st' = g_handles sample_session /\
    g_next_handle st' = g_next_handle sample_session /\
    g_stats (alloc st') = g_stats (alloc sample_session).
Proof.
  apply (served_write_then_read sample_oracle
           {| malloc_chunk := 0; malloc_scratch := Some (replicate 6 0xAA);
              malloc_payload := true; calloc_msg := true |}
           (request ETHER_CMD_WRITE 1 6) (request ETHER_CMD_READ 1 6)
           hello (replicate 6 0xAA) sample_session 1024 served_block).
  - rewrite sample_session_server. exact sample_live_handle.
  - reflexivity.
  - reflexivity.
  - vm_compute. split; congruence.
  - vm_compute. congruence.
  - reflexivity.
  - reflexivity.
  - reflexivity.
  - reflexivity.
  - reflexivity.
Defined.

(** ** What goes out on the socket *)

(** X22. Every response is a well-formed frame. For a command and a handle
    of their C types and [data] holding at least [data_len] bytes,
    [send_response] sends nothing when the message cannot be created
    (payload above 16 MiB or [calloc] failing); otherwise it sends
    [24 + data_len] bytes whose first 24 deserialize to a header that passes
    [ether_msg_validate] and carries the command, the handle and [data_len],
    with flags and reserved word zero, followed by the first [data_len]
    bytes of [data] (zeros when [data] is [NULL]). *)
Theorem responses_are_frames (o : oracle) (cmd handle : Z)
  (data : option (list Z)) (data_len : Z) :
  0 <= cmd < 2 ^ 8 -> 0 <= handle < 2 ^ 64 -> 0 <= data_len ->
  (forall d, data = Some d -> data_len <= Z.of_nat (length d)) ->
  let out := send_response o cmd handle data data_len in
  (out = [] <-> ETHER_MAX_PAYLOAD < data_len \/ calloc_msg o = false) /\
  (out <> [] ->
   let h := ether_msg_deserialize_header (take 24 out) in
   Z.of_nat (length out) = ETHER_HEADER_SIZE + data_len /\
   ether_msg_validate h = true /\
   h = {| msg_magic := ETHER_MAGIC; msg_version := ETHER_PROTOCOL_VER;
          msg_command := cmd; msg_flags := 0; msg_handle := handle;
          msg_size := data_len; msg_reserved := 0 |} /\
   drop 24 out = match data with
                 | Some d => take (Z.to_nat data_len) d
                 | None => replicate (Z.to_nat data_len) 0
                 end).
Proof.
  intros Hc Hh Hl Hd out. unfold out, send_response, ether_msg_create.
  destruct (ETHER_MAX_PAYLOAD <? data_len) eqn:E.
  { apply Z.ltb_lt in E. split; [tauto|congruence]. }
  apply Z.ltb_ge in E.
  destruct (calloc_msg o); cbn [negb]; cbv iota.
  2:{ split; [tauto|congruence]. }
  cbn [header payload msg_magic msg_version msg_command msg_flags msg_size
       msg_reserved].
  assert (Hw8 : wrap8 cmd = cmd) by (apply Z.mod_small; lia).
  assert (Hw32 : wrap32 data_len = data_len).
  { apply Z.mod_small. unfold ETHER_MAX_PAYLOAD in E. lia. }
  rewrite Hw8, Hw32.
  set (hdr := {| msg_magic := ETHER_MAGIC; msg_version := ETHER_PROTOCOL_VER;
                 msg_command := cmd; msg_flags := 0; msg_handle := handle;
                 msg_size := data_len; msg_reserved := 0 |}).
  assert (Hlen : length (ether_msg_serialize_header hdr) = 24%nat)
    by reflexivity.
  split.
  { split; [|intros [H|H]; [lia|discriminate]].
    intros H. apply (f_equal length) in H. rewrite length_app, Hlen in H.
    discriminate. }
  intros _. cbv zeta.
  rewrite take_app_length' by exact Hlen.
  rewrite drop_app_length' by exact Hlen.
  rewrite length_app, Hlen.
  assert (Hr : header_in_range hdr).
  { unfold header_in_range, hdr.
    cbn [msg_magic msg_version msg_command msg_flags msg_handle msg_size
         msg_reserved].
    unfold ETHER_MAGIC, ETHER_PROTOCOL_VER, ETHER_MAX_PAYLOAD in *. lia. }
  rewrite (deserialize_serialize hdr Hr).
  assert (Hv : ether_msg_validate hdr = true).
  { unfold ether_msg_validate, hdr. cbn [msg_magic msg_version msg_size].
    change (negb (ETHER_MAGIC =? ETHER_MAGIC)) with false.
    change (negb (ETHER_PROTOCOL_VER =? ETHER_PROTOCOL_VER)) with false.
    cbv iota.
    destruct (ETHER_MAX_PAYLOAD <? data_len) eqn:E';
      [apply Z.ltb_lt in E'; lia|reflexivity]. }
  destruct (0 <? data_len) eqn:E0.
  - apply Z.ltb_lt in E0.
    destruct data as [d|].
    + pose proof (Hd d eq_refl) as Hdl.
      assert (Ht : take (Z.to_nat data_len)
                     (memcpy (replicate (Z.to_nat data_len) 0) d data_len)
                   = take (Z.to_nat data_len) d).
      { unfold memcpy. rewrite take_app_le by (rewrite length_take; lia).
        rewrite take_take, Nat.min_id. reflexivity. }
      rewrite Ht, length_take.
      split; [unfold ETHER_HEADER_SIZE; lia|]. auto.
    + rewrite take_replicate, Nat.min_id, length_replicate.
      split; [unfold ETHER_HEADER_SIZE; lia|]. auto.
  - apply Z.ltb_ge in E0. assert (data_len = 0) by lia. subst data_len.
    cbn [length]. split; [reflexivity|].
    split; [exact Hv|]. split; [reflexivity|].
    destruct data; reflexivity.
Qed.

Lemma responses_are_frames_witness :
  let out := send_response sample_oracle ETHER_CMD_OK 1 (Some hello) 6 in
  (out = [] <->
   ETHER_MAX_PAYLOAD < 6 \/ calloc_msg sample_oracle = false) /\
  (out <> [] ->
   let h := ether_msg_deserialize_header (take 24 out) in
   Z.of_nat (length out) = ETHER_HEADER_SIZE + 6 /\
   ether_msg_validate h = true /\
   h = {| msg_magic := ETHER_MAGIC; msg_version := ETHER_PROTOCOL_VER;
          msg_command := ETHER_CMD_OK; msg_flags := 0; msg_handle := 1;
          msg_size := 6; msg_reserved := 0 |} /\
   drop 24 out = take (Z.to_nat 6) hello).
Proof.
  apply (responses_are_frames sample_oracle ETHER_CMD_OK 1 (Some hello) 6).
  - vm_compute. split; congruence.
  - vm_compute. split; congruence.
  - lia.
  - intros d [= <-]. vm_compute. congruence.
Defined.

(** ** Turns that serve nothing *)

(** X23. Only ALLOC, FREE and WRITE change the daemon. A turn of
    [handle_client] leaves the allocator, the table and the counter exactly
    as they were unless it dispatches a valid ALLOC, FREE or WRITE; when no
    header arrives or the payload cannot be received the loop ends with
    nothing sent; a header that fails validation is skipped with nothing
    sent; and a valid request with any other command than PING, ALLOC, FREE,
    WRITE and READ (REALLOC included) whose payload, if any, has arrived is
    answered ERROR with handle 0 (the response message being allocated). *)
Theorem only_three_commands_change_state (o : oracle)
  (header_buf incoming : option (list Z)) (st : server_state) :
  (forall buf, header_buf = Some buf ->
     let h := ether_msg_deserialize_header buf in
     ether_msg_validate h = true ->
     msg_command h <> ETHER_CMD_ALLOC /\ msg_command h <> ETHER_CMD_FREE /\
     msg_command h <> ETHER_CMD_WRITE) ->
  let t := handle_client_turn o header_buf incoming st in
  after t = st /\
  (header_buf = None -> goes_on t = false /\ sent t = []) /\
  (forall buf, header_buf = Some buf ->
     let h := ether_msg_deserialize_header buf in
     (ether_msg_validate h = false -> goes_on t = true /\ sent t = []) /\
     (ether_msg_validate h = true -> 0 < msg_size h ->
      malloc_payload o = false \/ incoming = None ->
      goes_on t = false /\ sent t = []) /\
     (ether_msg_validate h = true ->
      msg_size h = 0 \/ (malloc_payload o = true /\ incoming <> None) ->
      msg_command h <> ETHER_CMD_PING -> msg_command h <> ETHER_CMD_READ ->
      calloc_msg o = true ->
      goes_on t = true /\ sent t = error_response 0)).
Proof.
  intros Hcmd t. unfold t, handle_client_turn.
  destruct header_buf as [buf|].
  2:{ split; [reflexivity|]. split; [auto|]. intros buf [=]. }
  specialize (Hcmd buf eq_refl). cbv zeta in Hcmd.
  set (h := ether_msg_deserialize_header buf) in *.
  destruct (ether_msg_validate h) eqn:V; cbn [negb]; cbv iota.
  2:{ split; [reflexivity|]. split; [discriminate|].
      intros buf' [= <-]. cbv zeta. fold h. rewrite V.
      split; [auto|]. split; discriminate. }
  destruct (Hcmd eq_refl) as (Ha & Hf & Hw).
  apply Z.eqb_neq in Ha, Hf, Hw. rewrite Ha, Hf, Hw.
  assert (Hquiet :
    forall payload : option (list Z),
      after (let '(out, st') :=
               if msg_command h =? ETHER_CMD_PING then handle_ping o st
               else if msg_command h =? ETHER_CMD_READ
                    then handle_read o h st
                    else (send_response o ETHER_CMD_ERROR 0 None 0, st) in
             {| goes_on := true; sent := out; after := st' |}) = st).
  { intros _. destruct (msg_command h =? ETHER_CMD_PING); [reflexivity|].
    destruct (msg_command h =? ETHER_CMD_READ); [|reflexivity].
    pose proof (handle_read_state o h st) as H.
    destruct (handle_read o h st). exact H. }
  split.
  { destruct (0 <? msg_size h); [|apply (Hquiet None)].
    destruct (malloc_payload o); cbn [negb]; cbv iota; [|reflexivity].
    destruct incoming; [apply (Hquiet None)|reflexivity]. }
  split; [discriminate|].
  intros buf' [= <-]. cbv zeta. fold h. rewrite V.
  split; [discriminate|]. split.
  - intros _ Hs Hno. apply Z.ltb_lt in Hs. rewrite Hs.
    destruct Hno as [->| ->]; [auto|].
    destruct (malloc_payload o); auto.
  - intros _ Hpay Hping Hread Hmsg.
    apply Z.eqb_neq in Hping, Hread. rewrite Hping, Hread.
    rewrite send_error by exact Hmsg.
    destruct Hpay as [Hz|[Hm Hin]].
    + rewrite Hz. change (0 <? 0) with false. auto.
    + rewrite Hm. cbn [negb]. destruct incoming; [|contradiction].
      destruct (0 <? msg_size h); auto.
Qed.

Lemma only_three_commands_change_state_witness :
  let buf := ether_msg_serialize_header (request ETHER_CMD_REALLOC 1 0) in
  let t := handle_client_turn sample_oracle (Some buf) None sample_session in
  after t = sample_session /\
  (Some buf = None -> goes_on t = false /\ sent t = []) /\
  (forall buf', Some buf = Some buf' ->
     let h := ether_msg_deserialize_header buf' in
     (ether_msg_validate h = false -> goes_on t = true /\ sent t = []) /\
     (ether_msg_validate h = true -> 0 < msg_size h ->
      malloc_payload sample_oracle = false \/ @None (list Z) = None ->
      goes_on t = false /\ sent t = []) /\
     (ether_msg_validate h = true ->
      msg_size h = 0 \/
      (malloc_payload sample_oracle = true /\ @None (list Z) <> None) ->
      msg_command h <> ETHER_CMD_PING -> msg_command h <> ETHER_CMD_READ ->
      calloc_msg sample_oracle = true ->
      goes_on t = true /\ sent t = error_response 0)).
Proof.
  intros buf.
  apply (only_three_commands_change_state sample_oracle (Some buf) None
           sample_session).
  intros buf' [= <-]. vm_compute. intros _. repeat split; congruence.
Defined.

Example realloc_request_refused :
  handle_client_turn sample_oracle
    (Some (ether_msg_serialize_header (request ETHER_CMD_REALLOC 1 0)))
    None sample_session
  = {| goes_on := true; sent := error_response 0; after := sample_session |}.
Proof. vm_compute. reflexivity. Qed.

End DispatcherProps.

(* ===================================================================== *)
(** * The client library against the daemon *)
(* ===================================================================== *)

Module ClientFacts.
Import Machine Protocol Allocator Server Client.
Import BitFacts AllocatorFacts DispatcherFacts.
Import ProtocolProps DispatcherProps.

(** ** The scan of the cache, by positions *)

Lemma find_entry_shift P tbl k :
  find_entry P tbl (S k) = S <$> find_entry P tbl k.
Proof.
  revert k. induction tbl as [|e tbl IH]; intros k; simpl; [reflexivity|].
  destruct (P e); [reflexivity|]. apply IH.
Qed.

Lemma find_entry_first P tbl i x :
  tbl !! i = Some x -> P x = true ->
  (forall j e, (j < i)%nat -> tbl !! j = Some e -> P e = false) ->
  find_entry P tbl 0 = Some i.
Proof.
  revert i. induction tbl as [|e tbl IH]; intros i Hi Hx Hbefore.
  - discriminate.
  - destruct i as [|i]; simpl in *.
    + injection Hi as ->. rewrite Hx. reflexivity.
    + rewrite (Hbefore 0%nat e) by (try lia; reflexivity).
      rewrite find_entry_shift, (IH i); [reflexivity|assumption..|].
      intros j e' Hj He'. apply (Hbefore (S j) e'); [lia|exact He'].
Qed.

Lemma find_entry_none P tbl :
  find_entry P tbl 0 = None <->
  forall j e, tbl !! j = Some e -> P e = false.
Proof.
  induction tbl as [|e tbl IH]; simpl.
  - split; [intros _ j e' H; discriminate|reflexivity].
  - destruct (P e) eqn:E.
    + split; [discriminate|]. intros H.
      rewrite (H 0%nat e eq_refl) in E. discriminate.
    + rewrite find_entry_shift.
      destruct (find_entry P tbl 0) as [i|] eqn:E'.
      * split; [discriminate|]. intros H. exfalso.
        assert (Hn : @None nat = None) by reflexivity.
        destruct IH as [_ IH]. discriminate IH.
        intros j e' Hj. apply (H (S j) e' Hj).
      * split; [|reflexivity]. intros _ [|j] e' Hj.
        -- injection Hj as <-. exact E.
        -- destruct IH as [IH _]. apply (IH eq_refl j e' Hj).
Qed.

Lemma find_entry_at P tbl i :
  find_entry P tbl 0 = Some i ->
  exists e, tbl !! i = Some e /\ P e = true.
Proof.
  revert i. induction tbl as [|e tbl IH]; intros i H.
  - discriminate.
  - simpl in H. destruct (P e) eqn:E.
    + injection H as <-. exists e. auto.
    + rewrite find_entry_shift in H.
      destruct (find_entry P tbl 0) as [i'|]; [|discriminate].
      injection H as <-. apply (IH i' eq_refl).
Qed.

Lemma find_entry_insert_other P tbl i old x :
  tbl !! i = Some old -> P old = false -> P x = false ->
  find_entry P (<[i := x]> tbl) 0 = find_entry P tbl 0.
Proof.
  revert i. induction tbl as [|e tbl IH]; intros i Hi Ho Hx.
  - discriminate.
  - destruct i as [|i]; simpl in *.
    + injection Hi as ->. rewrite Ho, Hx. reflexivity.
    + destruct (P e); [reflexivity|].
      rewrite !find_entry_shift, (IH i); auto.
Qed.

Lemma cache_lookup_insert_other local cache i old x :
  cache !! i = Some old ->
  entry_holds local old = false -> entry_holds local x = false ->
  cache_lookup local (<[i := x]> cache) = cache_lookup local cache.
Proof.
  intros Hi Ho Hx. unfold cache_lookup.
  rewrite (find_entry_insert_other _ _ _ _ _ Hi Ho Hx).
  destruct (find_entry (entry_holds local) cache 0) as [j|] eqn:E;
    [|reflexivity].
  destruct (find_entry_at _ _ _ E) as (e & He & HP).
  destruct (decide (i = j)) as [->|Hne].
  - congruence.
  - rewrite list_lookup_insert_ne by exact Hne. reflexivity.
Qed.

Lemma entry_holds_false_invalid local e :
  ce_valid e = 0 -> entry_holds local e = false.
Proof. intros H. unfold entry_holds. rewrite H. reflexivity. Qed.

Lemma entry_holds_false_other local e :
  ce_local_ptr e <> local -> entry_holds local e = false.
Proof.
  intros H. unfold entry_holds. apply Z.eqb_neq in H. rewrite H.
  apply andb_false_r.
Qed.

Lemma entry_holds_true local e :
  entry_holds local e = true -> ce_valid e <> 0 /\ ce_local_ptr e = local.
Proof.
  unfold entry_holds. intros H. apply andb_true_iff in H as [Hv Hl].
  apply negb_true_iff, Z.eqb_neq in Hv. apply Z.eqb_eq in Hl. auto.
Qed.

Lemma cache_full_scan cache :
  cache_full cache <-> find_entry entry_free cache 0 = None.
Proof.
  rewrite find_entry_none. unfold cache_full. rewrite Forall_lookup.
  unfold entry_free.
  split; intros H j e Hj; specialize (H j e Hj).
  - apply Z.eqb_neq, H.
  - apply Z.eqb_neq, H.
Qed.

Lemma cache_lookup_none local cache :
  cache_lookup local cache = None <->
  forall j e, cache !! j = Some e -> entry_holds local e = false.
Proof.
  unfold cache_lookup. rewrite <- find_entry_none.
  destruct (find_entry (entry_holds local) cache 0) as [i|] eqn:E;
    [|tauto].
  destruct (find_entry_at _ _ _ E) as (e & -> & _).
  split; discriminate.
Qed.

Lemma cache_ok_initial : cache_ok initial_cache.
Proof.
  split; [|apply length_replicate].
  intros i j ei ej Hi Hj Hvi. unfold initial_cache in Hi.
  apply lookup_replicate in Hi as [-> _]. contradiction.
Qed.

(** ** The cache *)

Lemma cache_store_ok cache local remote size :
  cache_ok cache -> cache_lookup local cache = None ->
  ~ cache_full cache ->
  let '(r, cache') := cache_store local remote size cache in
  r = 0 /\ cache_ok cache' /\
  cache_lookup local cache' = Some (remote, size) /\
  (forall other, other <> local ->
     cache_lookup other cache' = cache_lookup other cache).
Proof.
  intros [D L] Habsent Hroom. unfold cache_store.
  destruct (find_entry entry_free cache 0) as [i|] eqn:E.
  2:{ exfalso. apply Hroom, cache_full_scan, E. }
  destruct (find_entry_at _ _ _ E) as (old & Hold & Hfree).
  unfold entry_free in Hfree. apply Z.eqb_eq in Hfree.
  set (x := {| ce_local_ptr := local; ce_remote_handle := remote;
               ce_size := size; ce_valid := 1 |}).
  assert (Hi : (i < length cache)%nat) by (eapply lookup_lt_Some, Hold).
  pose proof (proj1 (cache_lookup_none local cache) Habsent) as Hnone.
  split; [reflexivity|]. split; [|split].
  - split; [|rewrite length_insert; exact L].
    intros j k ej ek Hj Hk Hvj Hvk Heq.
    apply list_lookup_insert_Some in Hj as [(<- & <- & _)|(Hnj & Hj)];
      apply list_lookup_insert_Some in Hk as [(<- & <- & _)|(Hnk & Hk)].
    + reflexivity.
    + exfalso. specialize (Hnone k ek Hk).
      unfold entry_holds in Hnone. cbn in Heq. rewrite <- Heq in Hnone.
      rewrite Z.eqb_refl in Hnone. apply Z.eqb_neq in Hvk.
      rewrite Hvk in Hnone. discriminate.
    + exfalso. specialize (Hnone j ej Hj).
      unfold entry_holds in Hnone. cbn in Heq. rewrite Heq in Hnone.
      rewrite Z.eqb_refl in Hnone. apply Z.eqb_neq in Hvj.
      rewrite Hvj in Hnone. discriminate.
    + apply (D j k ej ek); assumption.
  - unfold cache_lookup. rewrite (find_entry_first _ _ i x).
    + rewrite list_lookup_insert_eq by exact Hi. reflexivity.
    + apply list_lookup_insert_eq, Hi.
    + unfold entry_holds. cbn. rewrite Z.eqb_refl. reflexivity.
    + intros j e Hj He. rewrite list_lookup_insert_ne in He by lia.
      apply (Hnone j e He).
  - intros other Hne.
    apply (cache_lookup_insert_other other cache i old x Hold).
    + apply entry_holds_false_invalid, Hfree.
    + apply entry_holds_false_other. cbn. congruence.
Qed.

Lemma cache_remove_ok cache local handle size :
  cache_ok cache -> cache_lookup local cache = Some (handle, size) ->
  let '(r, cache') := cache_remove local cache in
  r = 0 /\ cache_ok cache' /\
  cache_lookup local cache' = None /\
  (forall other, other <> local ->
     cache_lookup other cache' = cache_lookup other cache) /\
  ~ cache_full cache'.
Proof.
  intros [D L] Hlk. unfold cache_lookup in Hlk. unfold cache_remove.
  destruct (find_entry (entry_holds local) cache 0) as [i|] eqn:E;
    [|discriminate].
  destruct (find_entry_at _ _ _ E) as (e & He & HP).
  rewrite He in Hlk |- *.
  apply entry_holds_true in HP as [Hv Hl].
  set (x := {| ce_local_ptr := ce_local_ptr e;
               ce_remote_handle := ce_remote_handle e;
               ce_size := ce_size e; ce_valid := 0 |}).
  assert (Hi : (i < length cache)%nat) by (eapply lookup_lt_Some, He).
  split; [reflexivity|]. split; [|split; [|split]].
  - split; [|rewrite length_insert; exact L].
    intros j k ej ek Hj Hk Hvj Hvk Heq.
    apply list_lookup_insert_Some in Hj as [(<- & <- & _)|(Hnj & Hj)];
      [contradiction|].
    apply list_lookup_insert_Some in Hk as [(<- & <- & _)|(Hnk & Hk)];
      [contradiction|].
    apply (D j k ej ek); assumption.
  - apply cache_lookup_none. intros j ej Hj.
    apply list_lookup_insert_Some in Hj as [(<- & <- & _)|(Hne & Hj)].
    + apply entry_holds_false_invalid. reflexivity.
    + destruct (Z.eq_dec (ce_valid ej) 0) as [Hz|Hvj];
        [apply entry_holds_false_invalid, Hz|].
      apply entry_holds_false_other. intros Heq. apply Hne.
      apply (D i j e ej); auto. congruence.
  - intros other Hne. apply (cache_lookup_insert_other other cache i e x He).
    + apply entry_holds_false_other. congruence.
    + apply entry_holds_false_invalid. reflexivity.
  - intros Hfull. unfold cache_full in Hfull. rewrite Forall_lookup in Hfull.
    apply (Hfull i x); [apply list_lookup_insert_eq, Hi|reflexivity].
Qed.

Lemma cache_remove_absent cache local :
  cache_lookup local cache = None -> cache_remove local cache = (-1, cache).
Proof.
  unfold cache_lookup, cache_remove.
  destruct (find_entry (entry_holds local) cache 0) as [i|] eqn:E;
    [|reflexivity].
  destruct (find_entry_at _ _ _ E) as (e & -> & _). discriminate.
Qed.

(** X24. The client's cache finds what was stored. For a cache whose valid
    entries have distinct local pointers and which does not hold [local]
    yet: when every slot is valid [cache_store] returns -1 and changes
    nothing; otherwise it returns 0, [cache_lookup] then gives the remote
    handle and size stored, every other pointer resolves as before, and the
    valid entries are still distinct. *)
Theorem cache_store_then_lookup (cache : list handle_cache_entry_t)
  (local remote size : Z) :
  cache_ok cache -> cache_lookup local cache = None ->
  (cache_full cache -> cache_store local remote size cache = (-1, cache)) /\
  (~ cache_full cache ->
   let '(r, cache') := cache_store local remote size cache in
   r = 0 /\ cache_ok cache' /\
   cache_lookup local cache' = Some (remote, size) /\
   (forall other, other <> local ->
      cache_lookup other cache' = cache_lookup other cache)).
Proof.
  intros Hok Habsent. split.
  - intros Hfull. apply cache_full_scan in Hfull.
    unfold cache_store. rewrite Hfull. reflexivity.
  - intros Hroom. apply cache_store_ok; assumption.
Qed.

Lemma sample_cache_ok : cache_ok sample_cache.
Proof.
  pose proof (cache_store_ok initial_cache 7000 1 10 cache_ok_initial) as H.
  unfold sample_cache.
  destruct (cache_store 7000 1 10 initial_cache) as [r cache'].
  apply H.
  - vm_compute. reflexivity.
  - rewrite cache_full_scan. vm_compute. discriminate.
Qed.

Lemma cache_store_then_lookup_witness :
  (cache_full sample_cache ->
   cache_store 7100 2 20 sample_cache = (-1, sample_cache)) /\
  (~ cache_full sample_cache ->
   let '(r, cache') := cache_store 7100 2 20 sample_cache in
   r = 0 /\ cache_ok cache' /\
   cache_lookup 7100 cache' = Some (2, 20) /\
   (forall other, other <> 7100 ->
      cache_lookup other cache' = cache_lookup other sample_cache)).
Proof.
  apply (cache_store_then_lookup sample_cache 7100 2 20).
  - exact sample_cache_ok.
  - vm_compute. reflexivity.
Defined.

(** X25. The client's cache forgets what was removed. For a cache whose
    valid entries have distinct local pointers: [cache_remove] of a pointer
    the cache does not hold returns -1 and changes nothing; of a pointer it
    holds, it returns 0, the pointer no longer resolves, every other pointer
    resolves as before, and a slot is free again. *)
Theorem cache_remove_then_lookup (cache : list handle_cache_entry_t)
  (local : Z) :
  cache_ok cache ->
  (cache_lookup local cache = None ->
   cache_remove local cache = (-1, cache)) /\
  (forall handle size,
     cache_lookup local cache = Some (handle, size) ->
     let '(r, cache') := cache_remove local cache in
     r = 0 /\ cache_ok cache' /\
     cache_lookup local cache' = None /\
     (forall other, other <> local ->
        cache_lookup other cache' = cache_lookup other cache) /\
     ~ cache_full cache').
Proof.
  intros Hok. split; [apply cache_remove_absent|].
  intros handle size Hlk.
  apply (cache_remove_ok cache local handle size Hok Hlk).
Qed.

Lemma cache_remove_then_lookup_witness :
  (cache_lookup 7000 sample_cache = None ->
   cache_remove 7000 sample_cache = (-1, sample_cache)) /\
  (forall handle size,
     cache_lookup 7000 sample_cache = Some (handle, size) ->
     let '(r, cache') := cache_remove 7000 sample_cache in
     r = 0 /\ cache_ok cache' /\
     cache_lookup 7000 cache' = None /\
     (forall other, other <> 7000 ->
        cache_lookup other cache' = cache_lookup other sample_cache) /\
     ~ cache_full cache').
Proof.
  apply (cache_remove_then_lookup sample_cache 7000). exact sample_cache_ok.
Defined.

Example sample_cache_lookup : cache_lookup 7000 sample_cache = Some (1, 10).
Proof. vm_compute. reflexivity. Qed.

(** ** The daemon on a request frame *)

Lemma request_in_range cmd handle size :
  0 <= cmd < 2 ^ 8 -> 0 <= handle < 2 ^ 64 -> 0 <= size < 2 ^ 32 ->
  header_in_range (request cmd handle size).
Proof.
  intros Hc Hh Hs. unfold header_in_range, request.
  cbn [msg_magic msg_version msg_command msg_flags msg_handle msg_size
       msg_reserved].
  unfold ETHER_MAGIC, ETHER_PROTOCOL_VER. lia.
Qed.

Lemma request_valid cmd handle size :
  size <= ETHER_MAX_PAYLOAD ->
  ether_msg_validate (request cmd handle size) = true.
Proof.
  intros Hs. unfold ether_msg_validate, request.
  cbn [msg_magic msg_version msg_size].
  change (negb (ETHER_MAGIC =? ETHER_MAGIC)) with false.
  change (negb (ETHER_PROTOCOL_VER =? ETHER_PROTOCOL_VER)) with false.
  cbv iota.
  destruct (ETHER_MAX_PAYLOAD <? size) eqn:E;
    [apply Z.ltb_lt in E; lia|reflexivity].
Qed.

Lemma frame_split h body :
  take 24 (ether_msg_serialize_header h ++ body)
  = ether_msg_serialize_header h /\
  drop 24 (ether_msg_serialize_header h ++ body) = body.
Proof.
  assert (Hlen : length (ether_msg_serialize_header h) = 24%nat)
    by reflexivity.
  split; [apply take_app_length', Hlen|apply drop_app_length', Hlen].
Qed.

(** What [recv_response] makes of a response without payload. *)
Lemma recv_reply w cmd handle :
  0 <= cmd < 2 ^ 8 -> 0 <= handle < 2 ^ 64 ->
  recv_header w = Some (ether_msg_serialize_header (request cmd handle 0)) ->
  recv_response w None 0 = Some (request cmd handle 0, None).
Proof.
  intros Hc Hh Hw. unfold recv_response. rewrite Hw.
  rewrite deserialize_serialize by (apply request_in_range; lia).
  rewrite request_valid by (unfold ETHER_MAX_PAYLOAD; lia).
  reflexivity.
Qed.

Lemma ok_response_frame handle :
  ok_response handle []
  = ether_msg_serialize_header (request ETHER_CMD_OK handle 0).
Proof. unfold ok_response. rewrite app_nil_r. reflexivity. Qed.

Lemma error_response_frame handle :
  error_response handle
  = ether_msg_serialize_header (request ETHER_CMD_ERROR handle 0).
Proof. reflexivity. Qed.

(** The daemon's turn on a WRITE frame with payload for a live handle. *)
Lemma write_turn o handle len data st sptr b :
  live_handle handle st sptr b ->
  0 < len <= blk_size b -> len <= ETHER_MAX_PAYLOAD ->
  0 <= handle < 2 ^ 64 ->
  malloc_payload o = true -> calloc_msg o = true ->
  handle_client_turn o
    (Some (ether_msg_serialize_header (request ETHER_CMD_WRITE handle len)))
    (Some data) st
  = {| goes_on := true; sent := ok_response handle [];
       after :=
         {| alloc := set_heap
                       (<[get_header sptr :=
                            with_data (memcpy (blk_data b) data len) b]>
                          (heap (alloc st))) (alloc st);
            g_handles := g_handles st;
            g_next_handle := g_next_handle st |} |}.
Proof.
  intros (Hlk & Hp & Hb & Hl & Hwf) Hlen Hmax Hh Hpay Hmsg.
  unfold handle_client_turn.
  rewrite deserialize_serialize
    by (apply request_in_range; unfold ETHER_CMD_WRITE, ETHER_MAX_PAYLOAD in *;
        lia).
  rewrite request_valid by exact Hmax. cbn [negb].
  cbn [msg_size msg_command request].
  destruct (0 <? len) eqn:E; [|apply Z.ltb_ge in E; lia].
  rewrite Hpay. cbn [negb].
  change (ETHER_CMD_WRITE =? ETHER_CMD_PING) with false.
  change (ETHER_CMD_WRITE =? ETHER_CMD_ALLOC) with false.
  change (ETHER_CMD_WRITE =? ETHER_CMD_FREE) with false.
  change (ETHER_CMD_WRITE =? ETHER_CMD_WRITE) with true.
  cbv iota.
  unfold handle_write. cbn [msg_handle msg_size request]. rewrite Hlk.
  assert (Hp' := Hp). apply Z.eqb_neq in Hp'. rewrite Hp'.
  destruct (blk_size b <? len) eqn:E'; [apply Z.ltb_lt in E'; lia|].
  rewrite (ether_write_live sptr (alloc st) b Hp Hl Hb) by lia.
  change (negb (ETHER_OK =? ETHER_OK)) with false. cbv iota.
  rewrite send_ok_empty by exact Hmsg. reflexivity.
Qed.

(** The daemon's turn on a WRITE frame without payload. *)
Lemma empty_write_turn o handle incoming st sptr b :
  live_handle handle st sptr b ->
  0 <= handle < 2 ^ 64 -> calloc_msg o = true ->
  handle_client_turn o
    (Some (ether_msg_serialize_header (request ETHER_CMD_WRITE handle 0)))
    incoming st
  = {| goes_on := true; sent := error_response handle; after := st |}.
Proof.
  intros (Hlk & Hp & Hb & Hl & Hwf1 & Hwf2) Hh Hmsg.
  unfold handle_client_turn.
  rewrite deserialize_serialize
    by (apply request_in_range; unfold ETHER_CMD_WRITE in *; lia).
  rewrite request_valid by (unfold ETHER_MAX_PAYLOAD; lia). cbn [negb].
  cbn [msg_size msg_command request].
  change (0 <? 0) with false. cbv iota.
  change (ETHER_CMD_WRITE =? ETHER_CMD_PING) with false.
  change (ETHER_CMD_WRITE =? ETHER_CMD_ALLOC) with false.
  change (ETHER_CMD_WRITE =? ETHER_CMD_FREE) with false.
  change (ETHER_CMD_WRITE =? ETHER_CMD_WRITE) with true.
  cbv iota.
  unfold handle_write. cbn [msg_handle msg_size request]. rewrite Hlk.
  assert (Hp' := Hp). apply Z.eqb_neq in Hp'. rewrite Hp'.
  destruct (blk_size b <? 0) eqn:E'; [apply Z.ltb_lt in E'; lia|].
  unfold ether_write.
  change (negb (ETHER_ERR_INVALID =? ETHER_OK)) with true. cbv iota.
  rewrite send_error by exact Hmsg. reflexivity.
Qed.

(** What [ether_rwrite] puts on the socket. *)
Lemma rwrite_request w handle len data :
  0 <= len <= ETHER_MAX_PAYLOAD -> len <= Z.of_nat (length data) ->
  sent_header w = true -> sent_payload w = true ->
  exists msg,
    ether_msg_create true ETHER_CMD_WRITE len = Some msg /\
    send_message w (with_payload (memcpy (payload msg) data len)
                      (with_handle handle msg))
    = Some (ether_msg_serialize_header (request ETHER_CMD_WRITE handle len)
            ++ (if 0 <? len then take (Z.to_nat len) data else [])).
Proof.
  intros Hlen Hdata Hs1 Hs2. unfold ether_msg_create.
  destruct (ETHER_MAX_PAYLOAD <? len) eqn:E; [apply Z.ltb_lt in E; lia|].
  cbn [negb]. eexists. split; [reflexivity|].
  unfold send_message, with_payload, with_handle.
  cbn [header payload msg_magic msg_version msg_command msg_flags msg_handle
       msg_size msg_reserved].
  rewrite Hs1, Hs2. cbn [negb].
  assert (Hw32 : wrap32 len = len).
  { apply Z.mod_small. unfold ETHER_MAX_PAYLOAD in *. lia. }
  rewrite Hw32. change (wrap8 ETHER_CMD_WRITE) with ETHER_CMD_WRITE.
  fold (request ETHER_CMD_WRITE handle len).
  destruct (0 <? len) eqn:E0; [|rewrite app_nil_r; reflexivity].
  f_equal. f_equal. unfold memcpy.
  rewrite take_app_le by (rewrite length_take; lia).
  rewrite take_take, Nat.min_id. reflexivity.
Qed.

(** ** Remote write, end to end *)

(** X26. A remote write reaches the daemon's memory. With every [send] and
    allocation succeeding: when the client's cache maps [ptr] to a handle
    that is live at the daemon with the size the cache holds, [ether_rwrite]
    of [0 < len <= size] bytes (at most 16 MiB) sends one frame, the WRITE
    header followed by the first [len] bytes of [data]; the daemon's turn on
    that frame stores those bytes at the start of the chunk and answers OK;
    and on that answer [ether_rwrite] returns [ETHER_OK] and copies the same
    bytes into the local buffer, leaving the cache as it was. *)
Theorem rwrite_served (c : ether_conn) (ptr : Z) (data : list Z) (len : Z)
  (w : wire) (cs : client_state) (o : oracle) (st : server_state)
  (handle sptr : Z) (b : block) :
  conn_connected c <> 0 -> ptr <> NULL ->
  cache_lookup ptr (g_cache cs) = Some (handle, blk_size b) ->
  0 < handle < 2 ^ 64 ->
  live_handle handle st sptr b ->
  0 < len <= blk_size b -> len <= ETHER_MAX_PAYLOAD ->
  len <= Z.of_nat (length data) ->
  sent_header w = true -> sent_payload w = true ->
  malloc_payload o = true -> calloc_msg o = true ->
  let req := ether_msg_serialize_header (request ETHER_CMD_WRITE handle len)
             ++ take (Z.to_nat len) data in
  let t := handle_client_turn o (Some (take 24 req)) (Some (drop 24 req)) st in
  recv_header w = Some (sent t) ->
  ether_rwrite (Some c) ptr (Some data) len true w cs
  = (ETHER_OK, req,
     {| g_cache := g_cache cs;
        local_mem := copy_local ptr data len (local_mem cs);
        local_freed := local_freed cs |}) /\
  goes_on t = true /\
  sent t = ok_response handle [] /\
  g_handles (after t) = g_handles st /\
  exists b',
    heap (alloc (after t)) !! get_header sptr = Some b' /\
    blk_size b' = blk_size b /\
    take (Z.to_nat len) (blk_data b') = take (Z.to_nat len) data.
Proof.
  intros Hc Hp Hlk Hh Hlive Hlen Hmax Hdata Hs1 Hs2 Hpay Hmsg req t.
  assert (Ht : t = {| goes_on := true; sent := ok_response handle [];
                      after :=
                        {| alloc := set_heap
                             (<[get_header sptr :=
                                  with_data (memcpy (blk_data b)
                                               (take (Z.to_nat len) data) len)
                                    b]> (heap (alloc st))) (alloc st);
                           g_handles := g_handles st;
                           g_next_handle := g_next_handle st |} |}).
  { unfold t, req. destruct (frame_split
      (request ETHER_CMD_WRITE handle len) (take (Z.to_nat len) data))
      as [-> ->].
    apply (write_turn o handle len _ st sptr b); auto. lia. }
  rewrite Ht. cbn [goes_on sent after g_handles alloc heap set_heap].
  intros Hw. split.
  - unfold ether_rwrite.
    apply Z.eqb_neq in Hc, Hp. rewrite Hc, Hp. cbn [orb].
    rewrite Hlk.
    destruct (handle =? 0) eqn:E0; [apply Z.eqb_eq in E0; lia|].
    destruct (blk_size b <? len) eqn:E1; [apply Z.ltb_lt in E1; lia|].
    destruct (rwrite_request w handle len data) as (msg & -> & ->);
      [lia|lia|assumption..|].
    destruct (0 <? len) eqn:E2; [|apply Z.ltb_ge in E2; lia].
    rewrite ok_response_frame in Hw.
    rewrite (recv_reply w ETHER_CMD_OK handle)
      by (try exact Hw; unfold ETHER_CMD_OK; lia).
    cbn [msg_command request].
    change (negb (ETHER_CMD_OK =? ETHER_CMD_OK)) with false. reflexivity.
  - split; [reflexivity|]. split; [reflexivity|]. split; [reflexivity|].
    eexists. split; [apply lookup_insert_eq|].
    split; [reflexivity|].
    cbn [blk_data with_data]. unfold memcpy.
    rewrite take_take, Nat.min_id.
    rewrite take_app_le by (rewrite length_take; lia).
    rewrite take_take, Nat.min_id. reflexivity.
Qed.

Lemma rwrite_served_witness :
  let req := ether_msg_serialize_header (request ETHER_CMD_WRITE 1 6)
             ++ take (Z.to_nat 6) hello in
  let t := handle_client_turn sample_oracle (Some (take 24 req))
             (Some (drop 24 req)) sample_session in
  ether_rwrite (Some sample_conn) 7000 (Some hello) 6 true
    (wire_with (ok_response 1 [])) sample_client
  = (ETHER_OK, req,
     {| g_cache := g_cache sample_client;
        local_mem := copy_local 7000 hello 6 (local_mem sample_client);
        local_freed := local_freed sample_client |}) /\
  goes_on t = true /\
  sent t = ok_response 1 [] /\
  g_handles (after t) = g_handles sample_session /\
  exists b',
    heap (alloc (after t)) !! get_header 1024 = Some b' /\
    blk_size b' = blk_size served_block /\
    take (Z.to_nat 6) (blk_data b') = take (Z.to_nat 6) hello.
Proof.
  apply (rwrite_served sample_conn 7000 hello 6 (wire_with (ok_response 1 []))
           sample_client sample_oracle sample_session 1 1024 served_block).
  - vm_compute. congruence.
  - vm_compute. congruence.
  - vm_compute. reflexivity.
  - vm_compute. split; congruence.
  - rewrite sample_session_server. exact sample_live_handle.
  - vm_compute. split; congruence.
  - vm_compute. congruence.
  - vm_compute. congruence.
  - reflexivity.
  - reflexivity.
  - reflexivity.
  - reflexivity.
  - vm_compute. reflexivity.
Defined.

(** X27. An empty remote write is refused by the daemon. With every [send]
    and allocation succeeding: for a pointer the cache maps to a handle that
    is live at the daemon, [ether_rwrite] with [len = 0] sends the bare
    WRITE header; the daemon's turn on it answers ERROR and changes nothing;
    and on that answer [ether_rwrite] returns [ETHER_ERR_INVALID] and leaves
    the client as it was. *)
Theorem rwrite_empty_refused (c : ether_conn) (ptr : Z) (data : list Z)
  (w : wire) (cs : client_state) (o : oracle) (incoming : option (list Z))
  (st : server_state) (handle size sptr : Z) (b : block) :
  conn_connected c <> 0 -> ptr <> NULL ->
  cache_lookup ptr (g_cache cs) = Some (handle, size) ->
  0 <= size ->
  0 < handle < 2 ^ 64 ->
  live_handle handle st sptr b ->
  sent_header w = true ->
  calloc_msg o = true ->
  let req := ether_msg_serialize_header (request ETHER_CMD_WRITE handle 0) in
  let t := handle_client_turn o (Some req) incoming st in
  recv_header w = Some (sent t) ->
  ether_rwrite (Some c) ptr (Some data) 0 true w cs
  = (ETHER_ERR_INVALID, req, cs) /\
  t = {| goes_on := true; sent := error_response handle; after := st |}.
Proof.
  intros Hc Hp Hlk Hsz Hh Hlive Hs1 Hmsg req t.
  assert (Ht : t = {| goes_on := true; sent := error_response handle;
                      after := st |}).
  { apply (empty_write_turn o handle incoming st sptr b); auto. lia. }
  rewrite Ht. cbn [sent]. intros Hw. split; [|reflexivity].
  unfold ether_rwrite.
  apply Z.eqb_neq in Hc, Hp. rewrite Hc, Hp. cbn [orb].
  rewrite Hlk.
  destruct (handle =? 0) eqn:E0; [apply Z.eqb_eq in E0; lia|].
  destruct (size <? 0) eqn:E1; [apply Z.ltb_lt in E1; lia|].
  change (ether_msg_create true ETHER_CMD_WRITE 0)
    with (Some {| header := request ETHER_CMD_WRITE 0 0; payload := [] |}).
  unfold send_message, with_payload, with_handle.
  cbn [header payload msg_magic msg_version msg_command msg_flags msg_handle
       msg_size msg_reserved request].
  rewrite Hs1. cbn [negb]. change (0 <? 0) with false. cbv iota.
  rewrite error_response_frame in Hw.
  rewrite (recv_reply w ETHER_CMD_ERROR handle)
    by (try exact Hw; unfold ETHER_CMD_ERROR; lia).
  cbn [msg_command request].
  change (negb (ETHER_CMD_ERROR =? ETHER_CMD_OK)) with true. reflexivity.
Qed.

Lemma rwrite_empty_refused_witness :
  let req := ether_msg_serialize_header (request ETHER_CMD_WRITE 1 0) in
  let t := handle_client_turn sample_oracle (Some req) None sample_session in
  ether_rwrite (Some sample_conn) 7000 (Some hello) 0 true
    (wire_with (error_response 1)) sample_client
  = (ETHER_ERR_INVALID, req, sample_client) /\
  t = {| goes_on := true; sent := error_response 1;
         after := sample_session |}.
Proof.
  apply (rwrite_empty_refused sample_conn 7000 hello
           (wire_with (error_response 1)) sample_client sample_oracle None
           sample_session 1 10 1024 served_block).
  - vm_compute. congruence.
  - vm_compute. congruence.
  - vm_compute. reflexivity.
  - lia.
  - vm_compute. split; congruence.
  - rewrite sample_session_server. exact sample_live_handle.
  - reflexivity.
  - reflexivity.
  - vm_compute. reflexivity.
Defined.

(** ** PING, end to end *)

(** X28. A ping is answered. Whatever state the daemon is in, with the
    [send] and the allocations succeeding, [ether_ping] on a connected
    socket sends the bare PING header, the daemon's turn on it sends the
    PONG header and changes nothing, and on that answer [ether_ping] returns
    0. *)
Theorem ping_answered (c : ether_conn) (w : wire) (o : oracle)
  (incoming : option (list Z)) (st : server_state) :
  conn_connected c <> 0 ->
  sent_header w = true ->
  calloc_msg o = true ->
  let req := ether_msg_serialize_header (request ETHER_CMD_PING 0 0) in
  let t := handle_client_turn o (Some req) incoming st in
  recv_header w = Some (sent t) ->
  ether_ping (Some c) true w = (0, req) /\
  t = {| goes_on := true;
         sent := ether_msg_serialize_header (request ETHER_CMD_PONG 0 0);
         after := st |}.
Proof.
  intros Hc Hs Hmsg req t.
  assert (Ht : t = {| goes_on := true;
                      sent := ether_msg_serialize_header
                                (request ETHER_CMD_PONG 0 0);
                      after := st |}).
  { unfold t, req, handle_client_turn.
    rewrite deserialize_serialize
      by (apply request_in_range; unfold ETHER_CMD_PING; lia).
    rewrite request_valid by (unfold ETHER_MAX_PAYLOAD; lia). cbn [negb].
    cbn [msg_size msg_command request].
    change (0 <? 0) with false. cbv iota.
    change (ETHER_CMD_PING =? ETHER_CMD_PING) with true. cbv iota.
    unfold handle_ping, send_response, ether_msg_create.
    change (ETHER_MAX_PAYLOAD <? 0) with false. rewrite Hmsg. cbn [negb].
    cbn [header payload msg_magic msg_version msg_command msg_flags
         msg_size msg_reserved].
    change (0 <? 0) with false. cbv iota. rewrite app_nil_r. reflexivity. }
  rewrite Ht. cbn [sent]. intros Hw. split; [|reflexivity].
  unfold ether_ping. apply Z.eqb_neq in Hc. rewrite Hc.
  change (ether_msg_create true ETHER_CMD_PING 0)
    with (Some {| header := request ETHER_CMD_PING 0 0; payload := [] |}).
  unfold send_message. cbn [header payload msg_size request].
  rewrite Hs. cbn [negb]. change (0 <? 0) with false. cbv iota.
  rewrite (recv_reply w ETHER_CMD_PONG 0)
    by (try exact Hw; unfold ETHER_CMD_PONG; lia).
  reflexivity.
Qed.

Lemma ping_answered_witness :
  let req := ether_msg_serialize_header (request ETHER_CMD_PING 0 0) in
  let t := handle_client_turn sample_oracle (Some req) None sample_session in
  ether_ping (Some sample_conn) true
    (wire_with (ether_msg_serialize_header (request ETHER_CMD_PONG 0 0)))
  = (0, req) /\
  t = {| goes_on := true;
         sent := ether_msg_serialize_header (request ETHER_CMD_PONG 0 0);
         after := sample_session |}.
Proof.
  apply (ping_answered sample_conn
           (wire_with (ether_msg_serialize_header
                         (request ETHER_CMD_PONG 0 0)))
           sample_oracle None sample_session).
  - vm_compute. congruence.
  - reflexivity.
  - reflexivity.
  - vm_compute. reflexivity.
Defined.

(** ** Remote free, end to end *)

(** The daemon's turn on a FREE frame for a handle its table resolves. *)
Lemma free_turn o handle incoming st sptr ssize :
  reachable st -> lookup_handle handle st = Some (sptr, ssize) ->
  0 <= handle < 2 ^ 64 -> calloc_msg o = true ->
  let t := handle_client_turn o
             (Some (ether_msg_serialize_header
                      (request ETHER_CMD_FREE handle 0))) incoming st in
  goes_on t = true /\
  sent t = ok_response handle [] /\
  lookup_handle handle (after t) = None /\
  (forall h', h' <> handle ->
     lookup_handle h' (after t) = lookup_handle h' st) /\
  is_valid_block (get_header sptr) (heap (alloc (after t))) = false /\
  released (alloc (after t)) = released (alloc st) ++ [get_header sptr].
Proof.
  intros R Hlk Hh Hmsg. cbv zeta. unfold handle_client_turn.
  rewrite deserialize_serialize
    by (apply request_in_range; unfold ETHER_CMD_FREE; lia).
  rewrite request_valid by (unfold ETHER_MAX_PAYLOAD; lia). cbn [negb].
  cbn [msg_size msg_command request].
  change (0 <? 0) with false. cbv iota.
  change (ETHER_CMD_FREE =? ETHER_CMD_PING) with false.
  change (ETHER_CMD_FREE =? ETHER_CMD_ALLOC) with false.
  change (ETHER_CMD_FREE =? ETHER_CMD_FREE) with true.
  cbv iota.
  destruct (handle_free_known o (request ETHER_CMD_FREE handle 0)
              st sptr ssize R Hlk Hmsg)
    as (st' & -> & H2 & H3 & H4 & H5 & _).
  cbn [goes_on sent after msg_handle request] in *.
  repeat split; assumption.
Qed.

(** X29. A remote free releases both ends. With the [send] and the
    allocations succeeding, and the daemon in a state it can reach: for a
    pointer the cache maps to a handle the daemon's table resolves,
    [ether_rfree] sends the bare FREE header with that handle and, without
    looking at the answer, forgets the pointer ([cache_lookup] finds
    nothing, [ether_rsize] is 0) and hands the local buffer to [free]; the
    daemon's turn on that frame answers OK, after which the handle no longer
    resolves and the chunk is no longer live and has been handed to [free]. *)
Theorem rfree_releases (c : ether_conn) (ptr : Z) (w : wire)
  (cs : client_state) (o : oracle) (incoming : option (list Z))
  (st : server_state) (handle size sptr ssize : Z) :
  conn_connected c <> 0 -> ptr <> NULL ->
  cache_ok (g_cache cs) ->
  cache_lookup ptr (g_cache cs) = Some (handle, size) ->
  0 < handle < 2 ^ 64 ->
  sent_header w = true ->
  reachable st ->
  lookup_handle handle st = Some (sptr, ssize) ->
  calloc_msg o = true ->
  let req := ether_msg_serialize_header (request ETHER_CMD_FREE handle 0) in
  let t := handle_client_turn o (Some req) incoming st in
  exists cs',
    ether_rfree (Some c) ptr true w cs = (req, cs') /\
    cache_lookup ptr (g_cache cs') = None /\
    ether_rsize (Some c) ptr cs' = 0 /\
    (forall other, other <> ptr ->
       cache_lookup other (g_cache cs') = cache_lookup other (g_cache cs)) /\
    local_freed cs' = local_freed cs ++ [ptr] /\
    sent t = ok_response handle [] /\
    lookup_handle handle (after t) = None /\
    is_valid_block (get_header sptr) (heap (alloc (after t))) = false /\
    released (alloc (after t)) = released (alloc st) ++ [get_header sptr].
Proof.
  intros Hc Hp Hok Hlk Hh Hs R Hslk Hmsg req t.
  destruct (free_turn o handle incoming st sptr ssize R Hslk) as
    (_ & T2 & T3 & _ & T5 & T6); [lia|exact Hmsg|].
  fold req in T2, T3, T5, T6. fold t in T2, T3, T5, T6.
  pose proof (cache_remove_ok (g_cache cs) ptr handle size Hok Hlk) as Hrm.
  unfold ether_rfree.
  assert (Hc' := Hc). assert (Hp' := Hp).
  apply Z.eqb_neq in Hc', Hp'. rewrite Hc', Hp'. cbn [orb].
  rewrite Hlk.
  destruct (handle =? 0) eqn:E0; [apply Z.eqb_eq in E0; lia|].
  change (ether_msg_create true ETHER_CMD_FREE 0)
    with (Some {| header := request ETHER_CMD_FREE 0 0; payload := [] |}).
  unfold send_message, with_handle.
  cbn [header payload msg_magic msg_version msg_command msg_flags msg_handle
       msg_size msg_reserved request].
  rewrite Hs. cbn [negb]. change (0 <? 0) with false. cbv iota.
  destruct (cache_remove ptr (g_cache cs)) as [r cache'].
  destruct Hrm as (_ & _ & Hgone & Hother & _).
  eexists. split; [reflexivity|]. cbn [g_cache local_freed snd].
  split; [exact Hgone|]. split.
  { unfold ether_rsize. rewrite Hp'. cbn [g_cache]. rewrite Hgone.
    reflexivity. }
  split; [exact Hother|]. split; [reflexivity|]. auto.
Qed.

Lemma rfree_releases_witness :
  let req := ether_msg_serialize_header (request ETHER_CMD_FREE 1 0) in
  let t := handle_client_turn sample_oracle (Some req) None sample_session in
  exists cs',
    ether_rfree (Some sample_conn) 7000 true (wire_with []) sample_client
    = (req, cs') /\
    cache_lookup 7000 (g_cache cs') = None /\
    ether_rsize (Some sample_conn) 7000 cs' = 0 /\
    (forall other, other <> 7000 ->
       cache_lookup other (g_cache cs')
       = cache_lookup other (g_cache sample_client)) /\
    local_freed cs' = local_freed sample_client ++ [7000] /\
    sent t = ok_response 1 [] /\
    lookup_handle 1 (after t) = None /\
    is_valid_block (get_header 1024) (heap (alloc (after t))) = false /\
    released (alloc (after t))
    = released (alloc sample_session) ++ [get_header 1024].
Proof.
  apply (rfree_releases sample_conn 7000 (wire_with []) sample_client
           sample_oracle None sample_session 1 10 1024 10).
  - vm_compute. congruence.
  - vm_compute. congruence.
  - exact sample_cache_ok.
  - vm_compute. reflexivity.
  - vm_compute. split; congruence.
  - reflexivity.
  - exact sample_session_reachable.
  - vm_compute. reflexivity.
  - reflexivity.
Defined.

(** ** What [ether_rwrite] checks before it sends *)

Ltac codes :=
  unfold ETHER_OK, ETHER_ERR_NOMEM, ETHER_ERR_INVALID, ETHER_ERR_OVERFLOW,
    ETHER_ERR_NETWORK, ETHER_ERR_NOTFOUND in *.

Ltac refused :=
  cbn [g_cache local_freed local_mem];
  repeat split; try reflexivity; codes;
  try (intros; discriminate);
  try (intros [?|[?|?]]; try reflexivity; discriminate).

(** X30. [ether_rwrite] checks before it sends. Whatever the arguments and
    the socket do: the cache and the list of freed buffers are never
    changed, and nothing at all changes unless the result is [ETHER_OK]; the
    results NOTFOUND, OVERFLOW and NOMEM come with nothing sent; OVERFLOW
    means the cached size is below [len]; NOMEM means [len] is above 16 MiB
    or [calloc] failed; and [ETHER_OK] is only returned for a pointer the
    cache maps to a non-zero handle with [len] within the cached size, and
    then exactly [len] bytes of [data] are copied into the local buffer. *)
Theorem rwrite_checks (conn : option ether_conn) (ptr : Z)
  (data : option (list Z)) (len : Z) (calloc_ok : bool) (w : wire)
  (cs : client_state) :
  let '(ret, out, cs') := ether_rwrite conn ptr data len calloc_ok w cs in
  g_cache cs' = g_cache cs /\ local_freed cs' = local_freed cs /\
  (ret <> ETHER_OK -> cs' = cs) /\
  (ret = ETHER_ERR_NOTFOUND \/ ret = ETHER_ERR_OVERFLOW \/
   ret = ETHER_ERR_NOMEM -> out = []) /\
  (ret = ETHER_ERR_OVERFLOW ->
   exists handle size,
     cache_lookup ptr (g_cache cs) = Some (handle, size) /\ size < len) /\
  (ret = ETHER_ERR_NOMEM ->
   ETHER_MAX_PAYLOAD < len \/ calloc_ok = false) /\
  (ret = ETHER_OK ->
   exists handle size d,
     data = Some d /\
     cache_lookup ptr (g_cache cs) = Some (handle, size) /\
     handle <> 0 /\ len <= size /\ len <= ETHER_MAX_PAYLOAD /\
     local_mem cs' = copy_local ptr d len (local_mem cs)).
Proof.
  unfold ether_rwrite.
  destruct conn as [c|]; [|refused].
  destruct data as [d|]; [|refused].
  destruct ((conn_connected c =? 0) || (ptr =? NULL)); [refused|].
  destruct (cache_lookup ptr (g_cache cs)) as [[handle size]|] eqn:Hlk;
    [|refused].
  destruct (handle =? 0) eqn:E0; [refused|]. apply Z.eqb_neq in E0.
  destruct (size <? len) eqn:E1.
  { apply Z.ltb_lt in E1. refused. intros _. eauto. }
  apply Z.ltb_ge in E1.
  unfold ether_msg_create.
  destruct (ETHER_MAX_PAYLOAD <? len) eqn:E2.
  { apply Z.ltb_lt in E2. refused. auto. }
  apply Z.ltb_ge in E2.
  destruct calloc_ok; cbn [negb]; [|refused; auto].
  match goal with
  | |- context [send_message w ?m] => destruct (send_message w m) as [out|]
  end; [|refused].
  destruct (recv_response w None 0) as [[response p]|]; [|refused].
  destruct (negb (msg_command response =? ETHER_CMD_OK)); [refused|].
  refused.
  - intros H. exfalso. apply H. reflexivity.
  - intros _. exists handle, size, d.
    repeat split; first [assumption|reflexivity].
Qed.

End ClientFacts.
